(** * Fixed-width binary record store (ЛР №14, "бинарная бд")

    A shallow embedding of [2faf56ba_a4908fe8_9f5009f8_v2.py]: the record
    codec ([pack_record], [unpack_record]) and the file operations built on it
    ([init_db_binary], [print_db_from_file], [insert_record_at],
    [delete_record], [one_field_search], [two_fields_search],
    [digit_search]).

    Conventions of the embedding:
    - a byte is [Byte.byte]; a [bytes] object and the content of a file are
      [list byte];
    - a Python [int] is [Z]; a Python [str] is the list of its code points;
    - a Python [float] is a [spec_float] read in binary64; the [f] field of the
      record is binary32.  [spec_float] has one NaN: sign and payload of a NaN
      are not modelled;
    - [struct] uses native byte order; the embedding fixes little-endian
      (x86-64, AArch64);
    - [print] is modelled by the list of printed lines, each line a
      constructor of [line] that records which message it is and the values
      interpolated into it;
    - an uncaught exception is the result [Raised]. *)

From Stdlib Require Import ZArith List Bool Lia Strings.Byte SpecFloat.
Import ListNotations.
Local Open Scope Z_scope.

(** ** Bytes *)

Abbreviation bytes := (list byte).

Definition b2z (b : byte) : Z := Z.of_N (Byte.to_N b).

Definition z2b (z : Z) : byte :=
  match Byte.of_N (Z.to_N (z mod 256)) with
  | Some b => b
  | None => x00
  end.

(** [b.ljust(n, b"\x00")] *)
Definition ljust (n : nat) (b : bytes) : bytes :=
  b ++ repeat x00 (n - length b).

(** Little-endian bytes of the [n] low-order base-256 digits of [z]. *)
Fixpoint le_bytes (n : nat) (z : Z) : bytes :=
  match n with
  | O => []
  | S k => z2b z :: le_bytes k (z / 256)
  end.

Fixpoint le_value (b : bytes) : Z :=
  match b with
  | [] => 0
  | x :: t => b2z x + 256 * le_value t
  end.

(** ** Exceptions and results *)

Inductive exn :=
| UnicodeEncodeError   (* str.encode on a lone surrogate *)
| StructError.         (* struct.error: int out of range, wrong buffer size *)

Inductive result (A : Type) :=
| Returned (a : A)
| Raised (e : exn).
Arguments Returned {A} a.
Arguments Raised {A} e.

Definition bind {A B} (r : result A) (k : A -> result B) : result B :=
  match r with
  | Returned a => k a
  | Raised e => Raised e
  end.

Notation "x <- r ;; k" := (bind r (fun x => k))
  (at level 61, r at next level, right associativity).

(** ** The record format

    [FORMAT = "20s i f 15s"], sizes and alignments as [struct] uses them in
    native mode. *)

Inductive field_code :=
| Fs (n : Z)   (* "<n>s": n bytes, alignment 1 *)
| Fi           (* "i": 4 bytes, alignment 4 *)
| Ff.          (* "f": 4 bytes, alignment 4 *)

Definition field_size (c : field_code) : Z :=
  match c with Fs n => n | Fi => 4 | Ff => 4 end.

Definition field_align (c : field_code) : Z :=
  match c with Fs _ => 1 | Fi => 4 | Ff => 4 end.

Definition align_up (off a : Z) : Z := ((off + a - 1) / a) * a.

(** [struct.calcsize]: each field starts at the next multiple of its
    alignment; there is no padding after the last field. *)
Definition calcsize (fmt : list field_code) : Z :=
  fold_left (fun off c => align_up off (field_align c) + field_size c) fmt 0.

Definition FORMAT : list field_code := [Fs 20; Fi; Ff; Fs 15].

Definition RECORD_SIZE : Z := calcsize FORMAT.

Definition RS : nat := Z.to_nat RECORD_SIZE.

(** ** The [i] field: signed 32-bit integer *)

Definition pack_i (n : Z) : result bytes :=
  if (-2147483648 <=? n) && (n <=? 2147483647)
  then Returned (le_bytes 4 (n mod 4294967296))
  else Raised StructError.

Definition unpack_i (b : bytes) : Z :=
  let u := le_value b in
  if u <? 2147483648 then u else u - 4294967296.

(** ** Text fields: UTF-8

    A [str] is the list of its code points.  [s.encode("utf-8")] raises on a
    lone surrogate; a value outside [0, 0x10FFFF] is not a code point and is
    refused the same way. *)

Abbreviation str := (list Z).

Definition encode_cp (c : Z) : result bytes :=
  if (c <? 0) then Raised UnicodeEncodeError
  else if c <? 128 then Returned [z2b c]
  else if c <? 2048 then Returned [z2b (192 + c / 64); z2b (128 + c mod 64)]
  else if (55296 <=? c) && (c <=? 57343) then Raised UnicodeEncodeError
  else if c <? 65536 then
    Returned [z2b (224 + c / 4096); z2b (128 + (c / 64) mod 64);
              z2b (128 + c mod 64)]
  else if c <? 1114112 then
    Returned [z2b (240 + c / 262144); z2b (128 + (c / 4096) mod 64);
              z2b (128 + (c / 64) mod 64); z2b (128 + c mod 64)]
  else Raised UnicodeEncodeError.

Fixpoint encode_utf8 (s : str) : result bytes :=
  match s with
  | [] => Returned []
  | c :: t =>
      b <- encode_cp c ;;
      r <- encode_utf8 t ;;
      Returned (b ++ r)
  end.

Definition is_cont (b : byte) : bool := (128 <=? b2z b) && (b2z b <? 192).

(** [b.decode("utf-8", errors="ignore")].  The decoder reports an invalid
    start byte as one bad byte, an invalid continuation byte as the bytes of
    the sequence before it (decoding resumes at the offending byte), and a
    sequence cut by the end of the input as bad up to the end; with
    [errors="ignore"] the bad bytes are dropped. *)
Fixpoint decode_utf8_ignore (b : bytes) : str :=
  match b with
  | [] => []
  | b0 :: t =>
      let c0 := b2z b0 in
      if c0 <? 128 then c0 :: decode_utf8_ignore t
      else if c0 <? 194 then decode_utf8_ignore t
      else if c0 <? 224 then
        match t with
        | [] => []
        | b1 :: t1 =>
            if is_cont b1
            then ((c0 - 192) * 64 + (b2z b1 - 128)) :: decode_utf8_ignore t1
            else decode_utf8_ignore t
        end
      else if c0 <? 240 then
        match t with
        | [] => []
        | b1 :: t1 =>
            if negb (is_cont b1)
               || (if b2z b1 <? 160 then c0 =? 224 else c0 =? 237)
            then decode_utf8_ignore t
            else
              match t1 with
              | [] => []
              | b2 :: t2 =>
                  if is_cont b2
                  then ((c0 - 224) * 4096 + (b2z b1 - 128) * 64
                        + (b2z b2 - 128)) :: decode_utf8_ignore t2
                  else decode_utf8_ignore t1
              end
        end
      else if c0 <? 245 then
        match t with
        | [] => []
        | b1 :: t1 =>
            if negb (is_cont b1)
               || (if b2z b1 <? 144 then c0 =? 240 else c0 =? 244)
            then decode_utf8_ignore t
            else
              match t1 with
              | [] => []
              | b2 :: t2 =>
                  if negb (is_cont b2) then decode_utf8_ignore t1
                  else
                    match t2 with
                    | [] => []
                    | b3 :: t3 =>
                        if is_cont b3
                        then ((c0 - 240) * 262144 + (b2z b1 - 128) * 4096
                              + (b2z b2 - 128) * 64 + (b2z b3 - 128))
                             :: decode_utf8_ignore t3
                        else decode_utf8_ignore t2
                    end
              end
        end
      else decode_utf8_ignore t
  end.

(** [s.rstrip("\x00")] *)
Fixpoint rstrip0 (s : str) : str :=
  match s with
  | [] => []
  | c :: t =>
      match rstrip0 t with
      | [] => if c =? 0 then [] else [c]
      | t' => c :: t'
      end
  end.

(** ** The [f] field: binary32

    [FORMAT] has no byte-order prefix, so [struct] works in native mode:
    [struct.pack] stores the C conversion of the double to [float], round to
    nearest, ties to even, and a finite double beyond the range of a single
    becomes an infinity.  (The [OverflowError] of the [f] field belongs to
    the standard modes, those with a byte-order prefix.)  [struct.unpack]
    widens the stored single to a double, which is exact. *)

Abbreviation float := spec_float.

Definition f32_of_f64 (x : float) : spec_float :=
  match x with
  | S754_finite s m e => binary_round 24 128 s m e
  | _ => x
  end.

Definition f64_of_f32 (y : spec_float) : float :=
  match y with
  | S754_finite s m e => binary_round 53 1024 s m e
  | _ => y
  end.

Definition sign_bit (s : bool) : Z := if s then 2147483648 else 0.

(** IEEE 754 binary32 interchange encoding: sign (1 bit), biased exponent
    (8 bits), trailing significand (23 bits). *)
Definition bits_of_f32 (y : spec_float) : Z :=
  match y with
  | S754_zero s => sign_bit s
  | S754_infinity s => sign_bit s + 2139095040
  | S754_nan => 2143289344
  | S754_finite s m e =>
      if Zpos m <? 8388608 then sign_bit s + Zpos m
      else sign_bit s + (e + 150) * 8388608 + (Zpos m - 8388608)
  end.

Definition f32_of_bits (w : Z) : spec_float :=
  let s := 2147483648 <=? w in
  let E := (w / 8388608) mod 256 in
  let F := w mod 8388608 in
  if E =? 0 then
    match F with
    | Zpos m => S754_finite s m (-149)
    | _ => S754_zero s
    end
  else if E =? 255 then
    if F =? 0 then S754_infinity s else S754_nan
  else
    match F + 8388608 with
    | Zpos m => S754_finite s m (E - 150)
    | _ => S754_nan
    end.

Definition pack_f (x : float) : bytes := le_bytes 4 (bits_of_f32 (f32_of_f64 x)).

Definition unpack_f (b : bytes) : float := f64_of_f32 (f32_of_bits (le_value b)).

(** The double nearest to [d * 10 ^ e10] (ties to even), negated when [s]:
    the value of a decimal literal and of [float(str)] on decimal digits. *)
Definition float_of_decimal (s : bool) (d e10 : Z) : float :=
  match d with
  | Zpos p =>
      if 0 <=? e10 then binary_round 53 1024 s (Z.to_pos (Zpos p * 10 ^ e10)) 0
      else
        let '(q, e', l) :=
          SFdiv_core_binary 53 1024 (Zpos p) 0 (10 ^ (- e10)) 0 in
        binary_round_aux 53 1024 s q e' l
  | _ => S754_zero s
  end.

(** ** Records *)

Record record := mkRecord {
  name : str;
  count : Z;
  price : float;
  category : str
}.

(** [pack_record].  The arguments of [struct.pack] are evaluated first, left
    to right, so an unencodable [name] or [category] is reported before a
    [count] that does not fit; no [price] is refused.  In [FORMAT] every field
    starts at a
    multiple of its alignment, so [struct.pack] inserts no pad byte. *)
Definition pack_record (r : record) : result bytes :=
  nb <- encode_utf8 (name r) ;;
  cb <- encode_utf8 (category r) ;;
  ib <- pack_i (count r) ;;
  Returned (ljust 20 (firstn 20 nb) ++ ib ++ pack_f (price r)
            ++ ljust 15 (firstn 15 cb)).

(** [unpack_record].  [struct.unpack] raises unless the buffer has exactly
    [RECORD_SIZE] bytes. *)
Definition unpack_record (data : bytes) : result record :=
  if (length data =? RS)%nat then
    Returned {|
      name := rstrip0 (decode_utf8_ignore (firstn 20 data));
      count := unpack_i (firstn 4 (skipn 20 data));
      price := unpack_f (firstn 4 (skipn 24 data));
      category := rstrip0 (decode_utf8_ignore (firstn 15 (skipn 28 data)))
    |}
  else Raised StructError.

(** ** Files

    The state of an open binary file object: the content of the file and the
    position of the stream.  Only the calls the program makes are modelled:
    [seek(offset)], [seek(0, 2)], [read(n)], [write(b)], [truncate(size)]. *)

Record handle := mkHandle {
  content : bytes;
  cursor : nat
}.

Definition f_open (c : bytes) : handle := mkHandle c 0.

Definition f_seek (off : Z) (f : handle) : handle :=
  mkHandle (content f) (Z.to_nat off).

Definition f_seek_end (f : handle) : handle :=
  mkHandle (content f) (length (content f)).

Definition f_read (n : nat) (f : handle) : bytes * handle :=
  let data := firstn n (skipn (cursor f) (content f)) in
  (data, mkHandle (content f) (cursor f + length data)).

(** Writing overwrites from the stream position on and extends the file when
    it runs past the end (a gap before the position is filled with zeros). *)
Definition f_write (b : bytes) (f : handle) : handle :=
  mkHandle (firstn (cursor f) (content f)
            ++ repeat x00 (cursor f - length (content f))
            ++ b
            ++ skipn (cursor f + length b) (content f))
           (cursor f + length b).

Definition f_truncate (size : Z) (f : handle) : handle :=
  mkHandle (firstn (Z.to_nat size) (content f)
            ++ repeat x00 (Z.to_nat size - length (content f)))
           (cursor f).

(** [range(start, stop, step)], [step <> 0]. *)
Definition py_range (start stop step : Z) : list Z :=
  let len := if 0 <? step then (stop - start + step - 1) / step
             else (start - stop - step - 1) / (- step) in
  map (fun k => start + Z.of_nat k * step) (seq 0 (Z.to_nat len)).

(** ** Printed lines *)

Inductive line :=
| DbHeader                        (* Содержимое БД '{filename}': *)
| FileNotFound                    (* Файл не найден *)
| SizeWarning (size : Z)          (* Предупреждение: размер файла {size} байт не кратен размеру записи *)
| CorruptRecord (idx len : Z)     (* [{idx}] Повреждённая/неполная запись ({len(data)} байт) *)
| Row (idx : Z) (r : record)      (* {idx}. {name}, {count}, {price}, {category} *)
| Initialized (count_records : Z) (* Файл '{filename}' инициализирован бинарной БД ({count_records} записей ...) *)
| BadPosition                     (* Некорректная позиция *)
| BadPositionRange (hi : Z)       (* Некорректная позиция. Допустимо 1..{hi} *)
| InsertBadSize                   (* Файл имеет некорректный размер (...). Вставка отменена. *)
| Appended                        (* Запись добавлена в конец *)
| Inserted (pos : Z)              (* Запись вставлена на позицию {pos} *)
| DeleteBadSize                   (* Файл имеет некорректный размер (...). Удаление отменено. *)
| EmptyDb                         (* База пуста *)
| Deleted (pos : Z)               (* Запись удалена с позиции {pos} *)
| SearchBadSize                   (* Файл имеет некорректный размер (...). Поиск отменён. *)
| FieldNotNumber                  (* Номер поля должен быть числом 1-4 *)
| FieldsNotNumbers                (* Номера полей должны быть числами 1-4 *)
| FieldsMustDiffer                (* Номера полей должны быть разными *)
| BadFieldNumber                  (* Некорректный номер поля. Допустимо 1-4 *)
| NoMatches                       (* Совпадений не найдено *)
| EmptyCondition                  (* Значение переменной для поиска не может быть равно нулю *)
| BadOperator                     (* Некорректный оператор. Ожидается один из: >, <, = *)
| NoNumber                        (* Число для сравнения не указано *)
| BadNumber.                      (* Некорректное число для сравнения *)

(** The file system as the program sees it: the file named [filename] is
    absent ([None]) or has a content.  An operation returns the lines it
    printed and the file it leaves.  [Raised] carries neither: in
    [insert_record_at] the call that can raise precedes [open] and every
    [print], so the file is then as it was and nothing was printed. *)
Abbreviation disk := (option (list byte)).

Definition getsize (c : bytes) : Z := Z.of_nat (length c).

(** ** Initialisation *)

Definition generate_record (index : Z) : option record :=
  if index =? 0 then
    Some (mkRecord [1103; 1073; 1083; 1086; 1082; 1086] 10
            (float_of_decimal false 35 (-1))          (* 3.5 *)
            [1092; 1088; 1091; 1082; 1090])
  else if index =? 1 then
    Some (mkRecord [1082; 1085; 1080; 1075; 1072] 2
            (float_of_decimal false 7990 (-1))        (* 799.0 *)
            [1090; 1086; 1074; 1072; 1088])
  else if index =? 2 then
    Some (mkRecord [1085; 1086; 1091; 1090; 1073; 1091; 1082] 1
            (float_of_decimal false 8999999 (-2))     (* 89999.99 *)
            [1090; 1077; 1093; 1085; 1080; 1082; 1072])
  else None.

(** The [while True] loop of [init_db_binary], for a generator [generate];
    [fuel] bounds the number of iterations. *)
Fixpoint init_loop (generate : Z -> option record) (fuel : nat)
    (i count_records : Z) (f : handle) : option (result (handle * Z)) :=
  match fuel with
  | O => None
  | S k =>
      match generate i with
      | None => Some (Returned (f, count_records))
      | Some rec =>
          match pack_record rec with
          | Raised e => Some (Raised e)
          | Returned b =>
              init_loop generate k (i + 1) (count_records + 1) (f_write b f)
          end
      end
  end.

(** [init_db_binary] over a generator: opening with ["wb"] creates the file
    or empties it.  (When [pack_record] raises, the file keeps the records
    written before; that file is not part of the result.) *)
Definition init_db_with (generate : Z -> option record) (fuel : nat)
    (d : disk) : option (result (list line * disk)) :=
  match init_loop generate fuel 0 0 (f_open []) with
  | None => None
  | Some (Raised e) => Some (Raised e)
  | Some (Returned (f, count_records)) =>
      Some (Returned ([Initialized count_records], Some (content f)))
  end.

Definition init_db_binary (d : disk) : option (result (list line * disk)) :=
  init_db_with generate_record 4 d.

(** ** Reading the file record by record

    [print_db_from_file] and the three searches run the same loop:
    read [RECORD_SIZE] bytes; stop on an empty read; report a short read and
    stop; otherwise unpack the record, print it when it passes the test [ok],
    and go on with the next index.  The loop returns the printed lines and the
    flag [found]; [fuel] bounds the number of reads. *)
Fixpoint read_loop (ok : record -> bool) (fuel : nat) (f : handle) (idx : Z)
  : option (result (list line * bool)) :=
  match fuel with
  | O => None
  | S k =>
      let '(data, f') := f_read RS f in
      match data with
      | [] => Some (Returned ([], false))
      | _ :: _ =>
          if negb (length data =? RS)%nat then
            Some (Returned ([CorruptRecord idx (Z.of_nat (length data))], false))
          else
            match unpack_record data with
            | Raised e => Some (Raised e)
            | Returned r =>
                match read_loop ok k f' (idx + 1) with
                | Some (Returned (ls, found)) =>
                    Some (Returned ((if ok r then [Row idx r] else []) ++ ls,
                                    ok r || found))
                | other => other
                end
            end
      end
  end.

(** Enough fuel for any file: every read but the last consumes at least one
    byte. *)
Definition read_fuel (c : bytes) : nat := S (length c).

Definition print_db_from_file (d : disk) : option (result (list line)) :=
  match d with
  | None => Some (Returned [DbHeader; FileNotFound])
  | Some c =>
      let size := getsize c in
      let warning :=
        if negb (size mod RECORD_SIZE =? 0) then [SizeWarning size] else [] in
      match read_loop (fun _ => true) (read_fuel c) (f_open c) 1 with
      | None => None
      | Some (Raised e) => Some (Raised e)
      | Some (Returned (ls, _)) => Some (Returned (DbHeader :: warning ++ ls))
      end
  end.

(** ** Insertion and deletion *)

(** One step of the shifting loops: copy the record in slot [src] to slot
    [dst]. *)
Definition move_record (src dst : Z) (f : handle) : handle :=
  let f := f_seek (src * RECORD_SIZE) f in
  let '(chunk, f) := f_read RS f in
  let f := f_seek (dst * RECORD_SIZE) f in
  f_write chunk f.

Definition insert_record_at (d : disk) (position_1based : Z) (r : record)
  : result (list line * disk) :=
  match d with
  | None => Returned ([FileNotFound], d)
  | Some c =>
      let pos := position_1based in
      if pos <? 1 then Returned ([BadPosition], d)
      else
        let file_size := getsize c in
        let n := file_size / RECORD_SIZE in
        if negb (file_size mod RECORD_SIZE =? 0) then
          Returned ([InsertBadSize], d)
        else if pos >? n + 1 then Returned ([BadPositionRange (n + 1)], d)
        else
          new_data <- pack_record r ;;
          let f := f_open c in
          if pos =? n + 1 then
            let f := f_seek_end f in
            let f := f_write new_data f in
            Returned ([Appended], Some (content f))
          else
            let f := fold_left (fun f i => move_record i (i + 1) f)
                               (py_range (n - 1) (pos - 2) (-1)) f in
            let f := f_seek ((pos - 1) * RECORD_SIZE) f in
            let f := f_write new_data f in
            Returned ([Inserted pos], Some (content f))
  end.

Definition delete_record (d : disk) (position_1based : Z)
  : list line * disk :=
  match d with
  | None => ([FileNotFound], d)
  | Some c =>
      let pos := position_1based in
      if pos <? 1 then ([BadPosition], d)
      else
        let file_size := getsize c in
        if negb (file_size mod RECORD_SIZE =? 0) then ([DeleteBadSize], d)
        else
          let n := file_size / RECORD_SIZE in
          if n =? 0 then ([EmptyDb], d)
          else if pos >? n then ([BadPositionRange n], d)
          else
            let f := f_open c in
            let f := fold_left (fun f i => move_record i (i - 1) f)
                               (py_range pos n 1) f in
            let f := f_truncate ((n - 1) * RECORD_SIZE) f in
            ([Deleted pos], Some (content f))
  end.

(** ** Strings: the operations the searches use *)

Definition str_eqb (a b : str) : bool :=
  if list_eq_dec Z.eq_dec a b then true else false.

(** [c.isspace()], the characters [str.strip()] removes. *)
Definition isspace (c : Z) : bool :=
  ((9 <=? c) && (c <=? 13)) || ((28 <=? c) && (c <=? 32))
  || (c =? 133) || (c =? 160) || (c =? 5760)
  || ((8192 <=? c) && (c <=? 8202))
  || (c =? 8232) || (c =? 8233) || (c =? 8239) || (c =? 8287) || (c =? 12288).

Fixpoint lstrip (s : str) : str :=
  match s with
  | [] => []
  | c :: t => if isspace c then lstrip t else s
  end.

Fixpoint rstrip (s : str) : str :=
  match s with
  | [] => []
  | c :: t =>
      match rstrip t with
      | [] => if isspace c then [] else [c]
      | t' => c :: t'
      end
  end.

Definition strip (s : str) : str := lstrip (rstrip s).

(** ["." in s] *)
Definition has_dot (s : str) : bool := existsb (Z.eqb 46) s.

(** An argument that the caller passes as an [int] or as the text typed by
    the operator (the menu passes the field numbers as text). *)
Inductive arg :=
| AInt (n : Z)
| AStr (s : str).

(** ** Searches

    [int(s)] and [float(s)] on a string are parameters of the searches:
    [None] stands for [ValueError]. *)

Section Search.

Variable py_int : str -> option Z.
Variable py_float : str -> option float.

Definition int_of_arg (a : arg) : option Z :=
  match a with
  | AInt n => Some n
  | AStr s => py_int s
  end.

(** The test of one field against [value], as both searches spell it out. *)
Definition field_ok (field_num : Z) (value : str) (r : record) : bool :=
  if field_num =? 1 then str_eqb (name r) value
  else if field_num =? 2 then
    match py_int value with
    | Some v => count r =? v
    | None => false
    end
  else if field_num =? 3 then
    match py_float value with
    | Some v => SFeqb (price r) v
    | None => false
    end
  else str_eqb (category r) value.

Definition valid_field (n : Z) : bool :=
  (n =? 1) || (n =? 2) || (n =? 3) || (n =? 4).

(** The end of every search: the rows printed by the loop, and the
    no-match line when nothing was found. *)
Definition search_file (ok : record -> bool) (c : bytes)
  : option (result (list line)) :=
  match read_loop ok (read_fuel c) (f_open c) 1 with
  | None => None
  | Some (Raised e) => Some (Raised e)
  | Some (Returned (ls, found)) =>
      Some (Returned (ls ++ (if found then [] else [NoMatches])))
  end.

Definition one_field_search (d : disk) (field_num : arg) (value : str)
  : option (result (list line)) :=
  match d with
  | None => Some (Returned [FileNotFound])
  | Some c =>
      let file_size := getsize c in
      if negb (file_size mod RECORD_SIZE =? 0) then
        Some (Returned [SearchBadSize])
      else
        let n := file_size / RECORD_SIZE in
        if n =? 0 then Some (Returned [EmptyDb])
        else
          match int_of_arg field_num with
          | None => Some (Returned [FieldNotNumber])
          | Some field_num =>
              if negb (valid_field field_num) then
                Some (Returned [BadFieldNumber])
              else search_file (field_ok field_num value) c
          end
  end.

Definition two_fields_search (d : disk) (field1_num : arg) (value1 : str)
    (field2_num : arg) (value2 : str) : option (result (list line)) :=
  match d with
  | None => Some (Returned [FileNotFound])
  | Some c =>
      match int_of_arg field1_num, int_of_arg field2_num with
      | Some field1_num, Some field2_num =>
          if field1_num =? field2_num then Some (Returned [FieldsMustDiffer])
          else if negb (valid_field field1_num)
                  || negb (valid_field field2_num) then
            Some (Returned [BadFieldNumber])
          else
            let file_size := getsize c in
            if negb (file_size mod RECORD_SIZE =? 0) then
              Some (Returned [SearchBadSize])
            else
              let n := file_size / RECORD_SIZE in
              if n =? 0 then Some (Returned [EmptyDb])
              else
                search_file
                  (fun r => field_ok field1_num value1 r
                            && field_ok field2_num value2 r) c
      | _, _ => Some (Returned [FieldsNotNumbers])
      end
  end.

(** The number a condition compares with: an [int] for [count], a [float]
    for [price]. *)
Inductive target :=
| TInt (n : Z)
| TFloat (x : float).

(** The [try] block of [digit_search]. *)
Definition parse_target (num_str : str) : option target :=
  if has_dot num_str then option_map TFloat (py_float num_str)
  else option_map TInt (py_int num_str).

Definition GT : Z := 62.
Definition LT : Z := 60.
Definition EQ : Z := 61.

(** The test of [digit_search] on one record. *)
Definition digit_ok (op : Z) (t : target) (r : record) : bool :=
  match t with
  | TFloat x =>
      if (op =? GT) && SFltb x (price r) then true
      else if (op =? LT) && SFltb (price r) x then true
      else if (op =? EQ) && SFeqb (price r) x then true
      else false
  | TInt n =>
      if (op =? GT) && (count r >? n) then true
      else if (op =? LT) && (count r <? n) then true
      else if (op =? EQ) && (count r =? n) then true
      else false
  end.

Definition digit_search (d : disk) (condition : str)
  : option (result (list line)) :=
  match d with
  | None => Some (Returned [FileNotFound])
  | Some c =>
      match strip condition with
      | [] => Some (Returned [EmptyCondition])
      | op :: rest =>
          if negb ((op =? GT) || (op =? LT) || (op =? EQ)) then
            Some (Returned [BadOperator])
          else
            match strip rest with
            | [] => Some (Returned [NoNumber])
            | num_str =>
                match parse_target num_str with
                | None => Some (Returned [BadNumber])
                | Some t =>
                    let file_size := getsize c in
                    if negb (file_size mod RECORD_SIZE =? 0) then
                      Some (Returned [SearchBadSize])
                    else
                      let n := file_size / RECORD_SIZE in
                      if n =? 0 then Some (Returned [EmptyDb])
                      else search_file (digit_ok op t) c
                end
            end
      end
  end.

End Search.

(** ** [int(s)] and [float(s)]

    Executable instances of the two parameters, for running the searches on
    concrete input.  They follow the grammar of the built-ins: surrounding
    white space, a sign, decimal digits of any script with single underscores
    between them, and for [float] a fraction, an exponent, [inf], [infinity],
    [nan].  The tables are those of Unicode 14 (CPython 3.11); [int] refuses
    more than 4300 digits, its default limit. *)

(** The white space that [int] and [float] skip: that of [str.strip] without
    the four separators U+001C to U+001F. *)
Definition is_num_space (c : Z) : bool :=
  isspace c && negb ((28 <=? c) && (c <=? 31)).

Fixpoint lstrip_num (s : str) : str :=
  match s with
  | [] => []
  | c :: t => if is_num_space c then lstrip_num t else s
  end.

Fixpoint rstrip_num (s : str) : str :=
  match s with
  | [] => []
  | c :: t =>
      match rstrip_num t with
      | [] => if is_num_space c then [] else [c]
      | t' => c :: t'
      end
  end.

Definition strip_num (s : str) : str := lstrip_num (rstrip_num s).

(** The digit zero of every script that has decimal digits; the nine code
    points after a zero are the digits 1 to 9 of its script. *)
Definition digit_zeros : list Z :=
  [48; 1632; 1776; 1984; 2406; 2534; 2662; 2790; 2918; 3046; 3174; 3302; 3430;
   3558; 3664; 3792; 3872; 4160; 4240; 6112; 6160; 6470; 6608; 6784; 6800;
   6992; 7088; 7232; 7248; 42528; 43216; 43264; 43472; 43504; 43600; 44016;
   65296; 66720; 68912; 69734; 69872; 69942; 70096; 70384; 70736; 70864;
   71248; 71360; 71472; 71904; 72016; 72784; 73040; 73120; 92768; 92864;
   93008; 120782; 120792; 120802; 120812; 120822; 123200; 123632; 125264;
   130032].

(** The value of a decimal digit. *)
Definition digit_of (c : Z) : option Z :=
  match find (fun z => (z <=? c) && (c <? z + 10)) digit_zeros with
  | Some z => Some (c - z)
  | None => None
  end.

Definition is_digit (c : Z) : bool :=
  match digit_of c with
  | Some _ => true
  | None => false
  end.

(** The longest prefix that is a digit string, and the rest. *)
Fixpoint scan_digits (s : str) : list Z * str :=
  match s with
  | [] => ([], [])
  | c :: t =>
      match digit_of c with
      | Some v =>
          let '(ds, rest) :=
            match t with
            | u :: ((c2 :: _) as t') =>
                if (u =? 95) && is_digit c2 then scan_digits t'
                else scan_digits t
            | _ => scan_digits t
            end in
          (v :: ds, rest)
      | None => ([], s)
      end
  end.

Definition digits_value (ds : list Z) : Z :=
  fold_left (fun a x => 10 * a + x) ds 0.

Definition scan_sign (s : str) : bool * str :=
  match s with
  | c :: t => if c =? 45 then (true, t) else if c =? 43 then (false, t)
              else (false, s)
  | [] => (false, [])
  end.

Definition int_of_str (s : str) : option Z :=
  let '(neg, s1) := scan_sign (strip_num s) in
  match scan_digits s1 with
  | ((_ :: _) as ds, []) =>
      if (4300 <? length ds)%nat then None
      else Some (if neg then - digits_value ds else digits_value ds)
  | _ => None
  end.

Definition lower (c : Z) : Z :=
  if (65 <=? c) && (c <=? 90) then c + 32 else c.

Definition float_of_str (s : str) : option float :=
  let '(neg, s1) := scan_sign (strip_num s) in
  let l := map lower s1 in
  if str_eqb l [105; 110; 102]
     || str_eqb l [105; 110; 102; 105; 110; 105; 116; 121]
  then Some (S754_infinity neg)
  else if str_eqb l [110; 97; 110] then Some S754_nan
  else
    let '(ip, r1) := scan_digits s1 in
    let '(fp, r2) :=
      match r1 with
      | c :: t => if c =? 46 then scan_digits t else ([], r1)
      | [] => ([], [])
      end in
    match ip ++ fp with
    | [] => None
    | m =>
        match r2 with
        | [] =>
            Some (float_of_decimal neg (digits_value m)
                    (- Z.of_nat (length fp)))
        | c :: t =>
            if lower c =? 101 then
              let '(eneg, s3) := scan_sign t in
              match scan_digits s3 with
              | ((_ :: _) as ed, []) =>
                  let e := if eneg then - digits_value ed
                           else digits_value ed in
                  Some (float_of_decimal neg (digits_value m)
                          (e - Z.of_nat (length fp)))
              | _ => None
              end
            else None
        end
    end.

(** ** Vocabulary of the statements *)

(** A byte string of [w] bytes. *)
Definition sized (w : nat) (b : bytes) : Prop := length b = w.

(** Replacing slot [j] of a list of chunks; [j = length l] appends. *)
Definition put (j : nat) (x : bytes) (l : list bytes) : list bytes :=
  firstn j l ++ x :: skipn (S j) l.

(** The record of a chunk, whatever its size. *)
Definition record_of (data : bytes) : record :=
  {| name := rstrip0 (decode_utf8_ignore (firstn 20 data));
     count := unpack_i (firstn 4 (skipn 20 data));
     price := unpack_f (firstn 4 (skipn 24 data));
     category := rstrip0 (decode_utf8_ignore (firstn 15 (skipn 28 data))) |}.

(** The rows a reading loop prints for a list of records, numbered from
    [idx]. *)
Fixpoint matching_rows (ok : record -> bool) (idx : Z) (rs : list record)
  : list line :=
  match rs with
  | [] => []
  | r :: t => (if ok r then [Row idx r] else []) ++ matching_rows ok (idx + 1) t
  end.

Definition rows_from (idx : Z) (rs : list record) : list line :=
  matching_rows (fun _ => true) idx rs.

(** The report of a trailing partial record. *)
Definition corrupt_tail (idx : Z) (tail : bytes) : list line :=
  match tail with
  | [] => []
  | _ => [CorruptRecord idx (Z.of_nat (length tail))]
  end.

(** Cutting a byte string into [k] chunks of [RS] bytes. *)
Fixpoint split_chunks (k : nat) (c : bytes) : list bytes :=
  match k with
  | O => []
  | S k' => firstn RS c :: split_chunks k' (skipn RS c)
  end.

(** What a search prints for the records [rs] of a consistent, non-empty
    file and the test [ok]: the matching rows, or the no-match line. *)
Definition search_output (ok : record -> bool) (rs : list record) : list line :=
  matching_rows ok 1 rs ++ (if existsb ok rs then [] else [NoMatches]).

(** [a op b] on floats and on integers, [op] one of [>], [<], [=]. *)
Definition float_cmp (op : Z) (a b : float) : bool :=
  ((op =? GT) && SFltb b a) || ((op =? LT) && SFltb a b)
  || ((op =? EQ) && SFeqb a b).

Definition int_cmp (op : Z) (a b : Z) : bool :=
  ((op =? GT) && (a >? b)) || ((op =? LT) && (a <? b))
  || ((op =? EQ) && (a =? b)).

Definition is_operator (ch : Z) : Prop := ch = GT \/ ch = LT \/ ch = EQ.

Section SearchQueries.

Variable py_int : str -> option Z.
Variable py_float : str -> option float.

(** Two field selectors that [two_fields_search] accepts. *)
Definition accepted_fields (f1 f2 : arg) : Prop :=
  exists n1 n2, int_of_arg py_int f1 = Some n1 /\ int_of_arg py_int f2 = Some n2
                /\ n1 <> n2 /\ valid_field n1 = true /\ valid_field n2 = true.

(** A condition that [digit_search] accepts: an operator and a literal that
    parses. *)
Definition accepted_condition (condition : str) : Prop :=
  exists op rest t, strip condition = op :: rest /\ is_operator op
                    /\ strip rest <> []
                    /\ parse_target py_int py_float (strip rest) = Some t.

End SearchQueries.

(** A string every code point of which has a UTF-8 encoding: no lone
    surrogate. *)
Definition encodable (s : str) : Prop :=
  Forall (fun c => 0 <= c < 55296 \/ 57344 <= c < 1114112) s.

(** A finite double whose nearest single is an infinity. *)
Definition overflows (x : float) : bool :=
  match x, f32_of_f64 x with
  | S754_finite _ _ _, S754_infinity _ => true
  | _, _ => false
  end.

(** A double that is the value of a single. *)
Definition single (x : float) : Prop :=
  exists y, valid_binary 24 128 y = true /\ x = f64_of_f32 y.


(** ** A store of two records

    The records of the end-to-end scenario, the generator that yields them,
    and the file that [init_db_binary] writes when run over that
    generator. *)

Definition apple : record :=
  mkRecord [97; 112; 112; 108; 101] 10 (float_of_decimal false 35 (-1))
           [102; 114; 117; 105; 116].

Definition book : record :=
  mkRecord [98; 111; 111; 107] 2 (float_of_decimal false 7990 (-1))
           [103; 111; 111; 100; 115].

Definition two_records (index : Z) : option record :=
  if index =? 0 then Some apple
  else if index =? 1 then Some book
  else None.

Definition two_record_db : bytes :=
  match init_db_with two_records 3 None with
  | Some (Returned (_, Some c)) => c
  | _ => []
  end.

(** The block of a record that [pack_record] accepts. *)
Definition block_of (r : record) : bytes :=
  match pack_record r with
  | Returned b => b
  | Raised _ => []
  end.

(** A record whose name is one character too long for its field, one whose
    name ends with a NUL character, and one whose count is [2 ^ 31]. *)
Definition long_name_record : record :=
  mkRecord (repeat 97 21) 1 (S754_zero false) [].

Definition nul_name_record : record :=
  mkRecord [97; 0] 1 (S754_zero false) [].

Definition big_count_record : record :=
  mkRecord [] 2147483648 (S754_zero false) [].

(** [==] on two records as Python compares the tuples of fresh values:
    strings and integers by value, floats by the IEEE comparison, under which
    a NaN is not equal to itself. *)
Definition record_eqb (a b : record) : bool :=
  str_eqb (name a) (name b) && (count a =? count b)
  && SFeqb (price a) (price b) && str_eqb (category a) (category b).

(** ** Vocabulary of the further properties *)

(** The longest prefix of [s] whose UTF-8 encoding has at most [w] bytes. *)
Fixpoint fit_prefix (w : nat) (s : str) : str :=
  match s with
  | [] => []
  | c :: t =>
      match encode_cp c with
      | Returned bc =>
          if (length bc <=? w)%nat then c :: fit_prefix (w - length bc) t
          else []
      | Raised _ => []
      end
  end.


(** A printed line is a row whose record passes [ok]. *)
Definition row_passes (ok : record -> bool) (l : line) : bool :=
  match l with
  | Row _ r => ok r
  | _ => false
  end.

(** The end of a search: the rows found, or the no-match line. *)
Definition found_or_none (rows : list line) : list line :=
  match rows with
  | [] => [NoMatches]
  | _ => rows
  end.

(** The blocks of a list of records that [pack_record] accepts. *)
Definition packed (rs : list record) (bs : list bytes) : Prop :=
  Forall2 (fun r b => pack_record r = Returned b) rs bs.

(** A record whose price, [1e39], is finite and beyond the range of a
    single. *)
Definition huge_price_record : record :=
  mkRecord [97] 2 (float_of_decimal false 1 39) [98].


(** ** The interactive session: [menu] and [main]

    The program as a function of the lines typed by the operator.  The world
    is the input still to be read, the output so far and the files by name
    (two names are two files: links and the several spellings of a path are
    not modelled); [input(prompt)] prints the prompt and takes the next line,
    or raises [EOFError] when there is none. *)

Inductive prompt :=
| AskMenu          (* Выберите пункт меню: *)
| AskInsertPos     (* Введите позицию для вставки (начиная с 1): *)
| AskName          (* Введите имя: *)
| AskCount         (* Введите количество: *)
| AskPrice         (* Введите цену: *)
| AskCategory      (* Введите категорию: *)
| AskDeletePos     (* Введите номер записи для удаления (начиная с 1): *)
| AskField         (* Введите номер поля (1-4): *)
| AskValue         (* Введите значение для поиска: *)
| AskField1        (* Введите номер 1-го поля (1-4): *)
| AskValue1        (* Введите значение 1-го поля: *)
| AskField2        (* Введите номер 2-го поля (1-4): *)
| AskValue2        (* Введите значение 2-го поля: *)
| AskCondition     (* Введите условие поиска (например, >5, <10, =3.5): *)
| AskMode          (* Выберите способ выбора файла (1-2): *)
| AskItem          (* \nВыберите пункт: *)
| AskNewName       (* Введите имя нового файла: *)
| AskPath          (* Введите полный путь к файлу БД (или оставьте пустым для отмены): *)
| AskCreate (path : str).
                   (* Файл '{path}' не найден. Создать новый и инициализировать БД? (y/n): *)

(** The lines that [choose_file] and [choose_any_file] print. *)
Inductive chooser_line :=
| ChooseTitle                  (* Выбор файла базы данных: *)
| ChooseFromList               (* 1. Выбрать файл из текущего каталога *)
| ChooseByPath                 (* 2. Ввести полный путь к файлу *)
| ModeError                    (* Ошибка: введите 1 или 2. *)
| FilesTitle                   (* \nСписок файлов: *)
| FileItem (i : Z) (f : str)   (* {i}. {f} *)
| NewFileItem (i : Z)          (* {len(files) + 1}. Создать новый файл *)
| Picked (selected : str)      (* Вы выбрали существующий файл: {selected} *)
| WillOverwrite                (* Файл существует. Он будет перезаписан. *)
| BadChoice                    (* Некорректный выбор. *)
| Cancelled                    (* Выбор файла отменён. *)
| IsDirectory                  (* Указан каталог, а не файл. ... *)
| PickedExisting (path : str)  (* Выбран существующий файл: {path} *)
| TryAgain.                    (* Попробуйте ввести путь ещё раз. *)

Inductive ui :=
| MenuTitle               (* \nМеню: *)
| MenuItem (k : Z)        (* the nine items of the menu *)
| Ask (p : prompt)
| Op (l : line)           (* a line printed by an operation on the file *)
| Chooser (c : chooser_line)
| ChooseFileFirst         (* Сначала выберите файл БД *)
| ChooseDbFileFirst       (* Сначала выберите файл с БД. *)
| InputError              (* Ошибка ввода данных *)
| OneFieldTitle           (* Поиск по одному полю: *)
| TwoFieldsTitle          (* Поиск по двум полям: *)
| DigitTitle              (* Поиск по числу: *)
| FieldLegend (k : Z)     (* 1 - name, 2 - count, 3 - price, 4 - category *)
| Bye                     (* Выход из программы *)
| BadMenuItem.            (* Некорректный пункт меню *)

(** What ends a call early: the exceptions of [exn], [EOFError] of
    [input], [ValueError] of [int] and [float], and [OSError] of [open] on a
    directory. *)
Inductive failure :=
| EOFError
| ValueError
| OSError
| Exn (e : exn).

Inductive outcome (A : Type) :=
| Done (a : A)
| Failed (f : failure).
Arguments Done {A} a.
Arguments Failed {A} f.

Record world := mkWorld {
  stdin : list str;
  stdout : list ui;
  files : str -> disk
}.

(** A computation on the world; [None] when the model runs out of fuel. *)
Definition io (A : Type) : Type := world -> option (outcome A * world).

Definition io_ret {A} (a : A) : io A := fun w => Some (Done a, w).

Definition io_fail {A} (f : failure) : io A := fun w => Some (Failed f, w).

Definition io_bind {A B} (m : io A) (k : A -> io B) : io B :=
  fun w =>
    match m w with
    | Some (Done a, w') => k a w'
    | Some (Failed f, w') => Some (Failed f, w')
    | None => None
    end.

Notation "x <~ m ;; k" := (io_bind m (fun x => k))
  (at level 61, m at next level, right associativity).
Notation "m ;;; k" := (io_bind m (fun _ => k))
  (at level 61, right associativity).

Definition say (us : list ui) (w : world) : world :=
  mkWorld (stdin w) (stdout w ++ us) (files w).

Definition print (u : ui) : io unit := fun w => Some (Done tt, say [u] w).

Definition input (p : prompt) : io str :=
  fun w =>
    match stdin w with
    | [] => Some (Failed EOFError, say [Ask p] w)
    | l :: t => Some (Done l, mkWorld t (stdout w ++ [Ask p]) (files w))
    end.

(** [except ValueError]: [UnicodeEncodeError] is a subclass of
    [ValueError]; [struct.error] and [EOFError] are not. *)
Definition is_ValueError (f : failure) : bool :=
  match f with
  | ValueError => true
  | Exn UnicodeEncodeError => true
  | _ => false
  end.

Definition try_except_ValueError {A} (body handler : io A) : io A :=
  fun w =>
    match body w with
    | Some (Failed f, w') =>
        if is_ValueError f then handler w' else Some (Failed f, w')
    | other => other
    end.

Definition upd (fs : str -> disk) (p : str) (d : disk) : str -> disk :=
  fun q => if str_eqb q p then d else fs q.

(** A call of an operation that reads the file named [p], and of one that
    may write it. *)
Definition reading (op : disk -> option (result (list line))) (p : str)
  : io unit :=
  fun w =>
    match op (files w p) with
    | None => None
    | Some (Raised e) => Some (Failed (Exn e), w)
    | Some (Returned ls) => Some (Done tt, say (map Op ls) w)
    end.

Definition writing (op : disk -> option (result (list line * disk))) (p : str)
  : io unit :=
  fun w =>
    match op (files w p) with
    | None => None
    | Some (Raised e) => Some (Failed (Exn e), w)
    | Some (Returned (ls, d)) =>
        Some (Done tt,
              mkWorld (stdin w) (stdout w ++ map Op ls) (upd (files w) p d))
    end.

(** [if not db_file]: no file was chosen, or its name is empty. *)
Definition chosen (db_file : option str) : option str :=
  match db_file with
  | Some ((_ :: _) as p) => Some p
  | _ => None
  end.

Definition menu_text : list ui :=
  MenuTitle :: map MenuItem [1; 2; 3; 4; 5; 6; 7; 8; 9].

Definition legend : list ui := map FieldLegend [1; 2; 3; 4].

Section Session.

Variable py_int : str -> option Z.
Variable py_float : str -> option float.

(** [choose_file] works on the directory and on paths; the session takes
    it as given. *)
Variable choose_file : io (option str).

Definition to_int (s : str) : io Z :=
  match py_int s with
  | Some n => io_ret n
  | None => io_fail ValueError
  end.

Definition to_float (s : str) : io float :=
  match py_float s with
  | Some x => io_ret x
  | None => io_fail ValueError
  end.

Definition menu : io Z :=
  (fun w => Some (Done tt, say menu_text w)) ;;;
  try_except_ValueError (l <~ input AskMenu ;; to_int l) (io_ret (-1)).

(** One choice of the menu other than 1 and 9, on the file [db_file]. *)
Definition serve (choice : Z) (db_file : option str) : io unit :=
  if choice =? 2 then
    match chosen db_file with
    | None => print ChooseFileFirst
    | Some p => writing init_db_binary p
    end
  else if choice =? 3 then
    match chosen db_file with
    | None => print ChooseFileFirst
    | Some p => reading print_db_from_file p
    end
  else if choice =? 4 then
    match chosen db_file with
    | None => print ChooseFileFirst
    | Some p =>
        try_except_ValueError
          (l <~ input AskInsertPos ;; pos <~ to_int l ;;
           name <~ input AskName ;;
           l <~ input AskCount ;; count <~ to_int l ;;
           l <~ input AskPrice ;; price <~ to_float l ;;
           category <~ input AskCategory ;;
           writing (fun d => Some (insert_record_at d pos
                                     (mkRecord name count price category))) p)
          (print InputError)
    end
  else if choice =? 5 then
    match chosen db_file with
    | None => print ChooseFileFirst
    | Some p =>
        try_except_ValueError
          (l <~ input AskDeletePos ;; pos <~ to_int l ;;
           writing (fun d => Some (Returned (delete_record d pos))) p)
          (print InputError)
    end
  else if choice =? 6 then
    match chosen db_file with
    | None => print ChooseFileFirst
    | Some p =>
        (fun w => Some (Done tt, say (OneFieldTitle :: legend) w)) ;;;
        l <~ input AskField ;;
        value <~ input AskValue ;;
        reading (fun d => one_field_search py_int py_float d
                            (AStr (strip l)) value) p
    end
  else if choice =? 7 then
    match chosen db_file with
    | None => print ChooseFileFirst
    | Some p =>
        (fun w => Some (Done tt, say (TwoFieldsTitle :: legend) w)) ;;;
        l1 <~ input AskField1 ;;
        value1 <~ input AskValue1 ;;
        l2 <~ input AskField2 ;;
        value2 <~ input AskValue2 ;;
        reading (fun d => two_fields_search py_int py_float d
                            (AStr (strip l1)) value1 (AStr (strip l2)) value2) p
    end
  else if choice =? 8 then
    match chosen db_file with
    | None => print ChooseDbFileFirst
    | Some p =>
        print DigitTitle ;;;
        l <~ input AskCondition ;;
        reading (fun d => digit_search py_int py_float d (strip l)) p
    end
  else print BadMenuItem.

(** The loop of [main]; [fuel] bounds the number of menus shown. *)
Fixpoint main_loop (fuel : nat) (db_file : option str) : io unit :=
  match fuel with
  | O => fun _ => None
  | S k =>
      choice <~ menu ;;
      if choice =? 1 then
        db_file <~ choose_file ;; main_loop k db_file
      else if choice =? 9 then print Bye
      else serve choice db_file ;;; main_loop k db_file
  end.

Definition main (fuel : nat) : io unit := main_loop fuel None.

End Session.

(** The line that answers a choice of the menu other than 1 and 9 when no
    file is chosen. *)
Definition no_file_reply (choice : Z) : ui :=
  if (2 <=? choice) && (choice <=? 7) then ChooseFileFirst
  else if choice =? 8 then ChooseDbFileFirst
  else BadMenuItem.

(** What is printed, and what is left of the input, when every line is read
    as a choice of the menu and no file is chosen: the menu, the prompt and
    the reply for each line up to the first choice 9, or up to the end of the
    input, where the menu and the prompt are printed once more. *)
Fixpoint idle_transcript (py_int : str -> option Z) (lines : list str)
  : list ui * list str :=
  match lines with
  | [] => (menu_text ++ [Ask AskMenu], [])
  | l :: t =>
      let choice := match py_int l with Some n => n | None => -1 end in
      if choice =? 9 then (menu_text ++ [Ask AskMenu; Bye], t)
      else
        let '(out, rest) := idle_transcript py_int t in
        (menu_text ++ [Ask AskMenu; no_file_reply choice] ++ out, rest)
  end.

(** ** Choosing the file: [list_files], [choose_any_file], [choose_file]

    The directory and the paths are those of the operating system; the
    chooser takes them as given. *)

(** The file that [init_db_binary] writes. *)
Definition initial_db : bytes :=
  match init_db_binary None with
  | Some (Returned (_, Some c)) => c
  | _ => []
  end.

Definition is_some {A} (o : option A) : bool :=
  match o with
  | Some _ => true
  | None => false
  end.

(** [enumerate(files, start=i)] *)
Fixpoint enumerate (i : Z) (fs : list str) : list (Z * str) :=
  match fs with
  | [] => []
  | f :: t => (i, f) :: enumerate (i + 1) t
  end.

Section Chooser.

Variable py_int : str -> option Z.
(** [s.lower()] *)
Variable py_lower : str -> str.
(** [list_files()]: the names in [folder] that are files. *)
Variable list_files : (str -> disk) -> list str.
(** [os.path.join(folder, filename)] *)
Variable join_folder : str -> str.
(** [os.path.abspath(os.path.expanduser(path))] *)
Variable abspath : str -> str.
(** [os.path.isdir(path)]; the program creates no directory. *)
Variable isdir : str -> bool.

(** [os.path.exists(path)] *)
Definition path_exists (p : str) : io bool :=
  fun w => Some (Done (isdir p || is_some (files w p)), w).

(** [init_db_binary(path)] from the chooser: [open] refuses a directory. *)
Definition init_at (p : str) : io unit :=
  if isdir p then io_fail OSError else writing init_db_binary p.

Definition chooser_says (cs : list chooser_line) : io unit :=
  fun w => Some (Done tt, say (map Chooser cs) w).

(** The loop of [choose_any_file]; [fuel] bounds the number of paths
    asked for. *)
Fixpoint choose_any_file_loop (fuel : nat) : io (option str) :=
  match fuel with
  | O => fun _ => None
  | S k =>
      l <~ input AskPath ;;
      match strip l with
      | [] => chooser_says [Cancelled] ;;; io_ret None
      | path =>
          let path := abspath path in
          if isdir path then
            chooser_says [IsDirectory] ;;; choose_any_file_loop k
          else
            e <~ path_exists path ;;
            if (e : bool) then
              chooser_says [PickedExisting path] ;;;
              init_at path ;;; io_ret (Some path)
            else
              ans <~ input (AskCreate path) ;;
              if str_eqb (py_lower (strip ans)) [121] then
                init_at path ;;; io_ret (Some path)
              else chooser_says [TryAgain] ;;; choose_any_file_loop k
      end
  end.

(** Every turn of the loop reads a line: the length of the input bounds
    the number of turns. *)
Definition choose_any_file : io (option str) :=
  fun w => choose_any_file_loop (S (length (stdin w))) w.

Definition choose_file : io (option str) :=
  chooser_says [ChooseTitle; ChooseFromList; ChooseByPath] ;;;
  mode <~ try_except_ValueError
            (l <~ input AskMode ;; m <~ to_int py_int l ;; io_ret (Some m))
            (chooser_says [ModeError] ;;; io_ret None) ;;
  match mode with
  | None => io_ret None
  | Some mode =>
      if mode =? 1 then
        fun w =>
          let files_ := list_files (files w) in
          (chooser_says
             (FilesTitle
              :: map (fun '(i, f) => FileItem i f) (enumerate 1 files_)
              ++ [NewFileItem (Z.of_nat (length files_) + 1)]) ;;;
           l <~ input AskItem ;;
           choice <~ to_int py_int l ;;
           if (1 <=? choice) && (choice <=? Z.of_nat (length files_)) then
             let selected := nth (Z.to_nat (choice - 1)) files_ [] in
             chooser_says [Picked selected] ;;;
             init_at selected ;;; io_ret (Some selected)
           else if choice =? Z.of_nat (length files_) + 1 then
             filename <~ input AskNewName ;;
             let full_path := join_folder filename in
             e <~ path_exists full_path ;;
             (if (e : bool) then chooser_says [WillOverwrite] else io_ret tt) ;;;
             init_at full_path ;;; io_ret (Some full_path)
           else chooser_says [BadChoice] ;;; io_ret None) w
      else if mode =? 2 then choose_any_file
      else chooser_says [BadChoice] ;;; io_ret None
  end.

End Chooser.

(** The program: [main] with its own [choose_file]. *)
Definition program (py_int : str -> option Z) (py_float : str -> option float)
    (py_lower : str -> str) (list_files : (str -> disk) -> list str)
    (join_folder abspath : str -> str) (isdir : str -> bool) (fuel : nat)
  : io unit :=
  main py_int py_float
       (choose_file py_int py_lower list_files join_folder abspath isdir) fuel.

(** What a call of the chooser may have done to the files. *)
Definition chooser_effect (r : outcome (option str)) (w w' : world) : Prop :=
  match r with
  | Done (Some p) => files w' = upd (files w) p (Some initial_db)
  | _ => files w' = files w
  end.

(** A file that is absent or whose size is a multiple of [RECORD_SIZE]. *)
Definition consistent (d : disk) : Prop :=
  match d with
  | None => True
  | Some c => getsize c mod RECORD_SIZE = 0
  end.

(** What choice [choice] of the menu may have written in place of [d0]. *)
Definition written (choice : Z) (d0 d : disk) : Prop :=
  (choice = 2 /\ exists ls, init_db_binary d0 = Some (Returned (ls, d)))
  \/ (choice = 4 /\ exists pos r ls, insert_record_at d0 pos r = Returned (ls, d))
  \/ (choice = 5 /\ exists pos ls, delete_record d0 pos = (ls, d)).

(** [delete_record] at position 1, [k] times. *)
Fixpoint delete_first (k : nat) (d : disk) : list line * disk :=
  match k with
  | O => ([], d)
  | S k' =>
      let '(ls, d1) := delete_record d 1 in
      let '(ls', d2) := delete_first k' d1 in
      (ls ++ ls', d2)
  end.

(** * Properties *)

Lemma RECORD_SIZE_eq : RECORD_SIZE = 43.
Proof. reflexivity. Qed.

Lemma RS_eq : RS = 43%nat.
Proof. reflexivity. Qed.

Lemma firstn_exact {A} (a b : list A) n : length a = n -> firstn n (a ++ b) = a.
Proof. intros <-. rewrite firstn_app, Nat.sub_diag, firstn_all. cbn. apply app_nil_r. Qed.

Lemma skipn_exact {A} (a b : list A) n : length a = n -> skipn n (a ++ b) = b.
Proof. intros <-. now rewrite skipn_app, Nat.sub_diag, skipn_all. Qed.

Section Chunks.

Variable w : nat.

Lemma concat_sized_length (l : list bytes) :
  Forall (sized w) l -> length (concat l) = (length l * w)%nat.
Proof.
  induction 1 as [|b l Hb _ IH]; cbn [concat length]; [reflexivity|].
  rewrite length_app, IH, Hb. lia.
Qed.

Lemma firstn_concat_sized (l : list bytes) (i : nat) :
  Forall (sized w) l -> firstn (i * w) (concat l) = concat (firstn i l).
Proof.
  intros H. revert i. induction H as [|b l Hb _ IH]; intros [|i];
    cbn [concat firstn Nat.mul]; try reflexivity.
  - now rewrite firstn_nil.
  - rewrite firstn_app, (firstn_all2 b) by (rewrite Hb; lia).
    rewrite Hb, Nat.add_comm, Nat.add_sub. now rewrite IH.
Qed.

Lemma skipn_concat_sized (l : list bytes) (i : nat) :
  Forall (sized w) l -> skipn (i * w) (concat l) = concat (skipn i l).
Proof.
  intros H. revert i. induction H as [|b l Hb _ IH]; intros [|i];
    cbn [concat skipn Nat.mul]; try reflexivity.
  - now rewrite skipn_nil.
  - rewrite skipn_app, (skipn_all2 b) by (rewrite Hb; lia).
    rewrite Hb, Nat.add_comm, Nat.add_sub. apply IH.
Qed.


Lemma read_concat_sized (l : list bytes) (i : nat) :
  Forall (sized w) l -> (i < length l)%nat ->
  f_read w (mkHandle (concat l) (i * w)) =
  (nth i l [], mkHandle (concat l) (i * w + w)).
Proof.
  intros H Hi. unfold f_read. cbn [content cursor].
  rewrite skipn_concat_sized by assumption.
  assert (E : skipn i l = nth i l [] :: skipn (S i) l).
  { clear H. revert i Hi. induction l; intros [|i] Hi; cbn in *; try lia; auto.
    apply IHl. lia. }
  assert (Hs : sized w (nth i l [])).
  { rewrite Forall_forall in H. apply H, nth_In, Hi. }
  rewrite E. cbn [concat]. rewrite firstn_exact by exact Hs. now rewrite Hs.
Qed.

Lemma write_concat_sized (l : list bytes) (j : nat) (x : bytes) :
  Forall (sized w) l -> sized w x -> (j <= length l)%nat ->
  f_write x (mkHandle (concat l) (j * w)) =
  mkHandle (concat (put j x l)) (j * w + w).
Proof.
  intros H Hx Hj. unfold f_write, put. cbn [content cursor].
  unfold sized in Hx. rewrite Hx. f_equal.
  rewrite firstn_concat_sized, concat_sized_length by assumption.
  replace (j * w - length l * w)%nat with 0%nat by nia.
  cbn [repeat app]. rewrite concat_app. cbn [concat]. f_equal. f_equal.
  change (j * w + w)%nat with (j * w + w)%nat.
  replace (j * w + w)%nat with (S j * w)%nat by lia.
  now apply skipn_concat_sized.
Qed.

End Chunks.

Lemma put_length (l : list bytes) j x :
  (j <= length l)%nat -> length (put j x l) = Nat.max (S j) (length l).
Proof.
  intros H. unfold put. rewrite length_app. cbn [length].
  rewrite length_firstn, length_skipn. lia.
Qed.

Lemma Forall_firstn_skipn {A} (P : A -> Prop) n (l : list A) :
  Forall P l -> Forall P (firstn n l) /\ Forall P (skipn n l).
Proof. intros H. apply Forall_app. now rewrite firstn_skipn. Qed.

Lemma put_sized w (l : list bytes) j x :
  Forall (sized w) l -> sized w x -> Forall (sized w) (put j x l).
Proof.
  intros H Hx. unfold put. apply Forall_app. split.
  - now apply Forall_firstn_skipn.
  - constructor; [assumption | now apply Forall_firstn_skipn].
Qed.

Lemma nth_sized w (l : list bytes) i :
  Forall (sized w) l -> (i < length l)%nat -> sized w (nth i l []).
Proof. intros H Hi. rewrite Forall_forall in H. apply H, nth_In, Hi. Qed.

Lemma offset_nat (i : Z) : 0 <= i -> Z.to_nat (i * RECORD_SIZE) = (Z.to_nat i * RS)%nat.
Proof. intros H. unfold RS. rewrite Z2Nat.inj_mul; [reflexivity | lia | now compute]. Qed.

Lemma move_record_concat (l : list bytes) (src dst : Z) (f : handle) :
  content f = concat l -> Forall (sized RS) l ->
  0 <= src < Z.of_nat (length l) -> 0 <= dst <= Z.of_nat (length l) ->
  content (move_record src dst f) =
  concat (put (Z.to_nat dst) (nth (Z.to_nat src) l []) l).
Proof.
  intros Hc Hl Hs Hd. unfold move_record, f_seek.
  rewrite Hc, !offset_nat by lia.
  rewrite read_concat_sized by (assumption || lia).
  cbn [content]. rewrite write_concat_sized; [reflexivity | assumption | | lia].
  apply nth_sized; [assumption | lia].
Qed.

Lemma skipn_cons_nth {A} (d : A) (l : list A) i :
  (i < length l)%nat -> skipn i l = nth i l d :: skipn (S i) l.
Proof.
  revert i. induction l; intros [|i] Hi; cbn in *; try lia; auto.
  apply IHl. lia.
Qed.

Lemma py_range_down (a b : Z) :
  py_range a b (-1) = map (fun k => a - Z.of_nat k) (seq 0 (Z.to_nat (a - b))).
Proof.
  unfold py_range. cbn [Z.ltb Z.compare Z.opp].
  replace ((a - b - -1 - 1) / 1) with (a - b) by (rewrite Z.div_1_r; lia).
  apply map_ext. intros k. lia.
Qed.

Lemma py_range_up (a b : Z) :
  py_range a b 1 = map (fun k => a + Z.of_nat k) (seq 0 (Z.to_nat (b - a))).
Proof.
  unfold py_range. cbn [Z.ltb Z.compare].
  replace ((b - a + 1 - 1) / 1) with (b - a) by (rewrite Z.div_1_r; lia).
  apply map_ext. intros k. lia.
Qed.

(** The state of the file after [k] steps of the loop of [insert_record_at]:
    the last [k] records have moved one slot toward the end. *)
Lemma shift_right_steps (l : list bytes) (k : nat) (f : handle) :
  content f = concat l -> Forall (sized RS) l -> (k <= length l)%nat ->
  content (fold_left (fun f i => move_record i (i + 1) f)
             (map (fun j => Z.of_nat (length l) - 1 - Z.of_nat j) (seq 0 k)) f)
  = concat (firstn (length l - k + 1) l ++ skipn (length l - k) l).
Proof.
  intros Hc Hl. induction k as [|k IH]; intros Hk.
  - cbn [seq map fold_left]. rewrite Nat.sub_0_r, firstn_all2, skipn_all by lia.
    now rewrite app_nil_r.
  - rewrite seq_S, map_app, fold_left_app. cbn [map fold_left Nat.add].
    set (lk := firstn (length l - k + 1) l ++ skipn (length l - k) l) in *.
    assert (Hlen : length lk = (Nat.min (length l - k + 1) (length l) + k)%nat).
    { unfold lk. rewrite length_app, length_firstn, length_skipn. lia. }
    rewrite (move_record_concat lk); try lia.
    + f_equal. unfold put.
      replace (Z.to_nat (Z.of_nat (length l) - 1 - Z.of_nat k + 1)) with (length l - k)%nat by lia.
      replace (Z.to_nat (Z.of_nat (length l) - 1 - Z.of_nat k)) with (length l - S k)%nat by lia.
      replace (length l - S k + 1)%nat with (length l - k)%nat by lia.
      assert (E1 : firstn (length l - k) lk = firstn (length l - k) l).
      { unfold lk. rewrite firstn_app, firstn_firstn, length_firstn.
        replace (length l - k - Nat.min (length l - k + 1) (length l))%nat with 0%nat by lia.
        rewrite firstn_0, app_nil_r. f_equal. lia. }
      assert (E2 : skipn (S (length l - k)) lk = skipn (length l - k) l).
      { unfold lk. rewrite skipn_app, length_firstn.
        rewrite (skipn_all2 (firstn _ _)) by (rewrite length_firstn; lia).
        cbn [app]. rewrite skipn_skipn.
        destruct k as [|k'].
        - rewrite !skipn_all2 by lia. reflexivity.
        - f_equal. lia. }
      assert (E3 : nth (length l - S k) lk [] = nth (length l - S k) l []).
      { unfold lk. rewrite app_nth1 by (rewrite length_firstn; lia).
        apply nth_firstn_lt || (rewrite nth_firstn;
          destruct (Nat.ltb_spec (length l - S k) (length l - k + 1)); [reflexivity | lia]). }
      rewrite E1, E2, E3.
      rewrite (skipn_cons_nth [] l (length l - S k)) by lia.
      do 3 f_equal. lia.
    + now apply IH; lia.
    + unfold lk. apply Forall_app. split; now apply Forall_firstn_skipn.
Qed.

Lemma firstn_S_nth {A} (d : A) (l : list A) k :
  (k < length l)%nat -> firstn (S k) l = firstn k l ++ [nth k l d].
Proof.
  revert k. induction l; intros [|k] Hk; cbn in *; try lia; auto.
  f_equal. apply IHl. lia.
Qed.

(** The state of the file after [k] steps of the loop of [delete_record]:
    the [k] records after slot [p] have moved one slot toward the start. *)
Lemma shift_left_steps (l : list bytes) (p k : nat) (f : handle) :
  content f = concat l -> Forall (sized RS) l -> (p + k < length l)%nat ->
  content (fold_left (fun f i => move_record i (i - 1) f)
             (map (fun j => Z.of_nat p + 1 + Z.of_nat j) (seq 0 k)) f)
  = concat (firstn p l ++ firstn k (skipn (S p) l) ++ skipn (p + k) l).
Proof.
  intros Hc Hl. induction k as [|k IH]; intros Hk.
  - cbn [seq map fold_left firstn app]. now rewrite Nat.add_0_r, firstn_skipn.
  - rewrite seq_S, map_app, fold_left_app. cbn [map fold_left Nat.add].
    set (A := firstn p l) in *. set (B := firstn k (skipn (S p) l)) in *.
    assert (HA : length A = p) by (unfold A; rewrite length_firstn; lia).
    assert (HB : length B = k)
      by (unfold B; rewrite length_firstn, length_skipn; lia).
    assert (E : skipn (p + k) l = nth (p + k) l [] :: skipn (p + S k) l).
    { rewrite (skipn_cons_nth [] l (p + k)) by lia. do 2 f_equal. lia. }
    rewrite E in IH.
    set (y := nth (p + k) l []) in *. set (T := skipn (p + S k) l) in *.
    assert (Hall : Forall (sized RS) (A ++ B ++ y :: T)).
    { rewrite <- E. unfold A, B. repeat (apply Forall_app; split);
        try apply Forall_firstn_skipn; try assumption.
      now apply Forall_firstn_skipn. }
    assert (HT : length T = (length l - (p + S k))%nat)
      by (unfold T; now rewrite length_skipn).
    rewrite (move_record_concat (A ++ B ++ y :: T));
      [ | apply IH; lia | assumption
        | rewrite !length_app; cbn [length]; lia
        | rewrite !length_app; cbn [length]; lia ].
    f_equal. unfold put.
    replace (Z.to_nat (Z.of_nat p + 1 + Z.of_nat k - 1)) with (length (A ++ B))
      by (rewrite length_app; lia).
    replace (Z.to_nat (Z.of_nat p + 1 + Z.of_nat k)) with (length (A ++ B) + 1)%nat
      by (rewrite length_app; lia).
    rewrite (app_assoc A B (y :: T)).
    rewrite app_nth2_plus. cbn [nth].
    rewrite firstn_app, firstn_all, Nat.sub_diag, firstn_0, app_nil_r.
    replace (S (length (A ++ B))) with (length (A ++ B) + 1)%nat by lia.
    rewrite skipn_app, skipn_all2 by lia.
    replace (length (A ++ B) + 1 - length (A ++ B))%nat with 1%nat by lia.
    change (skipn 1 (y :: T)) with T. cbn [app].
    rewrite (firstn_S_nth [] (skipn (S p) l) k) by (rewrite length_skipn; lia).
    fold B. rewrite nth_skipn.
    replace (nth 0 T []) with (nth (S p + k) l []).
    + now rewrite <- !app_assoc.
    + unfold T. rewrite nth_skipn. f_equal. lia.
Qed.





Lemma unpack_record_sized b : sized RS b -> unpack_record b = Returned (record_of b).
Proof.
  unfold sized, unpack_record, record_of. intros ->. now rewrite Nat.eqb_refl.
Qed.

Lemma read_loop_concat (ok : record -> bool) (l : list bytes) :
  forall (pre tail : bytes) (idx : Z) (fuel : nat),
  Forall (sized RS) l -> (length tail < RS)%nat -> (length l < fuel)%nat ->
  read_loop ok fuel (mkHandle (pre ++ concat l ++ tail) (length pre)) idx =
  Some (Returned (matching_rows ok idx (map record_of l)
                  ++ corrupt_tail (idx + Z.of_nat (length l)) tail,
                  existsb ok (map record_of l))).
Proof.
  induction l as [|b l IH]; intros pre tail idx fuel Hl Ht Hf;
    (destruct fuel as [|fuel]; [cbn in Hf; lia|]).
  - cbn [read_loop concat app map matching_rows existsb length].
    unfold f_read. cbn [content cursor].
    rewrite skipn_exact by reflexivity. rewrite firstn_all2 by lia.
    destruct tail as [|t0 tail]; [reflexivity|].
    replace (length (t0 :: tail) =? RS)%nat with false
      by (symmetry; apply Nat.eqb_neq; lia).
    cbn [negb corrupt_tail]. rewrite Z.add_0_r. reflexivity.
  - inversion Hl as [|b' l' Hb Hl']; subst.
    cbn [read_loop concat map matching_rows existsb].
    unfold f_read. cbn [content cursor].
    rewrite skipn_exact by reflexivity. rewrite <- app_assoc.
    rewrite firstn_exact by exact Hb.
    pose proof Hb as Hb'. unfold sized in Hb'.
    destruct b as [|b0 b]; [discriminate Hb'|].
    rewrite Hb', Nat.eqb_refl. cbn [negb].
    rewrite unpack_record_sized by exact Hb.
    replace (mkHandle (pre ++ (b0 :: b) ++ concat l ++ tail) (length pre + RS))
      with (mkHandle ((pre ++ b0 :: b) ++ concat l ++ tail) (length (pre ++ b0 :: b)))
      by (rewrite length_app, Hb', <- app_assoc; reflexivity).
    rewrite IH by (assumption || (cbn [length] in Hf; lia)).
    replace (idx + Z.of_nat (length ((b0 :: b) :: l)))
      with (idx + 1 + Z.of_nat (length l)) by (cbn [length]; lia).
    now rewrite <- app_assoc.
Qed.


Lemma split_chunks_spec (k : nat) :
  forall c : bytes, (k * RS <= length c)%nat ->
  c = concat (split_chunks k c) ++ skipn (k * RS) c
  /\ Forall (sized RS) (split_chunks k c)
  /\ length (split_chunks k c) = k.
Proof.
  induction k as [|k IH]; intros c Hc.
  - cbn. auto.
  - cbn [split_chunks concat length Nat.mul] in *.
    destruct (IH (skipn RS c)) as (E & F & L).
    { rewrite length_skipn. lia. }
    split; [|split].
    + rewrite <- app_assoc, Nat.add_comm, <- skipn_skipn, <- E.
      now rewrite firstn_skipn.
    + constructor; [|assumption]. unfold sized. rewrite length_firstn. lia.
    + now rewrite L.
Qed.

(** A consistent file is the concatenation of its records. *)
Lemma consistent_chunks (c : bytes) (n : nat) :
  length c = (n * RS)%nat ->
  exists l, c = concat l /\ Forall (sized RS) l /\ length l = n.
Proof.
  intros H. destruct (split_chunks_spec n c) as (E & F & L); [lia|].
  exists (split_chunks n c). repeat split; try assumption.
  rewrite skipn_all2 in E by lia. now rewrite app_nil_r in E.
Qed.

Lemma le_bytes_length n z : length (le_bytes n z) = n.
Proof. revert z. induction n; intros z; cbn; [reflexivity | now rewrite IHn]. Qed.

Lemma ljust_firstn_length n (b : bytes) : length (ljust n (firstn n b)) = n.
Proof.
  unfold ljust. rewrite length_app, repeat_length, length_firstn. lia.
Qed.

Lemma pack_i_length n b : pack_i n = Returned b -> length b = 4%nat.
Proof.
  unfold pack_i. destruct (_ && _); [|discriminate].
  intros [= <-]. reflexivity.
Qed.

Lemma pack_f_length x : length (pack_f x) = 4%nat.
Proof. apply le_bytes_length. Qed.

Lemma Returned_inj {A} (a b : A) : Returned a = Returned b -> a = b.
Proof. now intros [= ->]. Qed.

Ltac bind_inv H :=
  match type of H with
  | bind ?r _ = Returned _ =>
      let E := fresh "E" in
      destruct r eqn:E; cbn [bind] in H; [|discriminate H]
  end.

Lemma pack_record_length r b : pack_record r = Returned b -> sized RS b.
Proof.
  unfold pack_record. intros H. repeat bind_inv H.
  apply Returned_inj in H. subst b.
  unfold sized. rewrite !length_app, !ljust_firstn_length.
  rewrite (pack_i_length _ _ E1), pack_f_length. reflexivity.
Qed.

Lemma getsize_chunks (l : list bytes) (tail : bytes) :
  Forall (sized RS) l ->
  getsize (concat l ++ tail) = Z.of_nat (length l) * 43 + Z.of_nat (length tail).
Proof.
  intros H. unfold getsize. rewrite length_app, concat_sized_length with (w := RS) by assumption.
  rewrite RS_eq. lia.
Qed.

Lemma size_div (n m : Z) : 0 <= m < 43 -> (n * 43 + m) / RECORD_SIZE = n.
Proof. intros H. rewrite RECORD_SIZE_eq. symmetry. apply (Z.div_unique _ _ _ m); lia. Qed.

Lemma size_mod (n m : Z) : 0 <= m < 43 -> (n * 43 + m) mod RECORD_SIZE = m.
Proof. intros H. rewrite RECORD_SIZE_eq. symmetry. apply (Z.mod_unique _ _ n); lia. Qed.

Lemma read_loop_chunks (ok : record -> bool) (l : list bytes) (tail : bytes) :
  Forall (sized RS) l -> (length tail < RS)%nat ->
  read_loop ok (read_fuel (concat l ++ tail)) (mkHandle (concat l ++ tail) 0) 1 =
  Some (Returned (matching_rows ok 1 (map record_of l)
                  ++ corrupt_tail (1 + Z.of_nat (length l)) tail,
                  existsb ok (map record_of l))).
Proof.
  intros Hl Ht. apply (read_loop_concat ok l [] tail 1); try assumption.
  unfold read_fuel. rewrite length_app, concat_sized_length with (w := RS) by assumption.
  rewrite RS_eq. lia.
Qed.

Lemma print_db_chunks (l : list bytes) (tail : bytes) :
  Forall (sized RS) l -> (length tail < RS)%nat ->
  print_db_from_file (Some (concat l ++ tail)) =
  Some (Returned (DbHeader ::
                  match tail with
                  | [] => []
                  | _ => [SizeWarning (getsize (concat l ++ tail))]
                  end
                  ++ rows_from 1 (map record_of l)
                  ++ corrupt_tail (1 + Z.of_nat (length l)) tail)).
Proof.
  intros Hl Ht. unfold print_db_from_file, f_open.
  rewrite (read_loop_chunks _ l tail) by assumption.
  rewrite (getsize_chunks l tail Hl) at 1.
  rewrite size_mod by (rewrite RS_eq in Ht; lia).
  destruct tail; reflexivity.
Qed.

Lemma insert_chunks (l : list bytes) (pos : Z) (r : record) (blk : bytes) :
  Forall (sized RS) l -> 1 <= pos <= Z.of_nat (length l) + 1 ->
  pack_record r = Returned blk ->
  insert_record_at (Some (concat l)) pos r =
  Returned ([if pos =? Z.of_nat (length l) + 1 then Appended else Inserted pos],
            Some (concat (firstn (Z.to_nat (pos - 1)) l ++ blk
                          :: skipn (Z.to_nat (pos - 1)) l))).
Proof.
  intros Hl Hp Hr. unfold insert_record_at.
  replace (pos <? 1) with false by (symmetry; apply Z.ltb_ge; lia).
  pose proof (getsize_chunks l [] Hl) as Hs. rewrite app_nil_r in Hs.
  cbn [length] in Hs. rewrite Hs, size_mod, size_div by lia.
  cbn [Z.eqb negb].
  replace (pos >? Z.of_nat (length l) + 1) with false
    by (symmetry; rewrite Z.gtb_ltb; apply Z.ltb_ge; lia).
  rewrite Hr. cbn [bind].
  pose proof (pack_record_length _ _ Hr) as Hb.
  destruct (Z.eqb_spec pos (Z.of_nat (length l) + 1)) as [E|E].
  - do 3 f_equal. unfold f_seek_end, f_write, f_open. cbn [content cursor].
    rewrite firstn_all, Nat.sub_diag, skipn_all2 by lia. cbn [repeat app].
    replace (Z.to_nat (pos - 1)) with (length l) by lia.
    rewrite firstn_all, skipn_all, app_nil_r, concat_app. cbn. now rewrite app_nil_r.
  - do 3 f_equal.
    rewrite py_range_down.
    replace (Z.to_nat (Z.of_nat (length l) - 1 - (pos - 2)))
      with (length l - Z.to_nat (pos - 1))%nat by lia.
    set (k := (length l - Z.to_nat (pos - 1))%nat).
    set (f := fold_left _ _ _).
    assert (Hf : content f = concat (firstn (length l - k + 1) l ++ skipn (length l - k) l)).
    { unfold f. apply shift_right_steps; [reflexivity | assumption | lia]. }
    replace (length l - k)%nat with (Z.to_nat (pos - 1)) in Hf by lia.
    set (p := Z.to_nat (pos - 1)) in *.
    unfold f_seek. rewrite Hf, offset_nat by lia. fold p.
    rewrite write_concat_sized; cbn [content]; try assumption.
    + f_equal. unfold put.
      rewrite firstn_app, firstn_firstn, length_firstn.
      replace (p - Nat.min (p + 1) (length l))%nat with 0%nat by lia.
      rewrite firstn_0, app_nil_r.
      replace (Nat.min p (p + 1)) with p by lia.
      rewrite skipn_app, length_firstn, skipn_all2 by (rewrite length_firstn; lia).
      replace (S p - Nat.min (p + 1) (length l))%nat with 0%nat by lia.
      reflexivity.
    + apply Forall_app. split; now apply Forall_firstn_skipn.
    + rewrite length_app, length_firstn, length_skipn. lia.
Qed.

Lemma delete_chunks (l : list bytes) (pos : Z) :
  Forall (sized RS) l -> 1 <= pos <= Z.of_nat (length l) ->
  delete_record (Some (concat l)) pos =
  ([Deleted pos],
   Some (concat (firstn (Z.to_nat (pos - 1)) l ++ skipn (Z.to_nat pos) l))).
Proof.
  intros Hl Hp. unfold delete_record.
  replace (pos <? 1) with false by (symmetry; apply Z.ltb_ge; lia).
  pose proof (getsize_chunks l [] Hl) as Hs. rewrite app_nil_r in Hs.
  cbn [length Z.of_nat] in Hs. rewrite Z.add_0_r in Hs.
  rewrite Hs, <- (Z.add_0_r (_ * 43)), size_mod, size_div by lia.
  cbn [Z.eqb negb].
  replace (Z.of_nat (length l) =? 0) with false by (symmetry; apply Z.eqb_neq; lia).
  replace (pos >? Z.of_nat (length l)) with false
    by (symmetry; rewrite Z.gtb_ltb; apply Z.ltb_ge; lia).
  do 3 f_equal.
  rewrite py_range_up.
  set (p := Z.to_nat (pos - 1)).
  set (k := Z.to_nat (Z.of_nat (length l) - pos)).
  set (f := fold_left _ _ _).
  assert (Hf : content f =
               concat (firstn p l ++ firstn k (skipn (S p) l) ++ skipn (p + k) l)).
  { unfold f. rewrite <- (shift_left_steps l p k (f_open (concat l)));
      [ | reflexivity | assumption | lia ].
    do 2 f_equal. apply map_ext. intros j. lia. }
  unfold f_truncate. rewrite Hf.
  replace (Z.to_nat ((Z.of_nat (length l) - 1) * RECORD_SIZE))
    with ((p + k) * RS)%nat by (rewrite offset_nat by lia; f_equal; lia).
  assert (Hall : Forall (sized RS)
                   (firstn p l ++ firstn k (skipn (S p) l) ++ skipn (p + k) l)).
  { repeat (apply Forall_app; split); try apply Forall_firstn_skipn; try assumption.
    now apply Forall_firstn_skipn. }
  rewrite firstn_concat_sized by assumption.
  rewrite concat_sized_length with (w := RS) by assumption.
  assert (HA : length (firstn p l) = p) by (rewrite length_firstn; lia).
  assert (HB : length (firstn k (skipn (S p) l)) = k)
    by (rewrite length_firstn, length_skipn; lia).
  rewrite !length_app, HA, HB, length_skipn.
  replace ((p + k) * RS - (p + (k + (length l - (p + k)))) * RS)%nat with 0%nat by nia.
  cbn [repeat content]. rewrite app_nil_r. f_equal.
  rewrite app_assoc, firstn_exact by (rewrite length_app; lia).
  f_equal. rewrite firstn_all2 by (rewrite length_skipn; lia).
  f_equal. lia.
Qed.

(** Inserting an element into a list: what is where afterwards. *)
Lemma insert_positions {A} (l : list A) (p : nat) (x : A) :
  (p <= length l)%nat ->
  let l' := firstn p l ++ x :: skipn p l in
  length l' = S (length l)
  /\ nth_error l' p = Some x
  /\ (forall i, (i < p)%nat -> nth_error l' i = nth_error l i)
  /\ (forall i, (p <= i)%nat -> nth_error l' (S i) = nth_error l i).
Proof.
  intros Hp l'. unfold l'.
  assert (Hf : length (firstn p l) = p) by (rewrite length_firstn; lia).
  repeat split.
  - rewrite length_app. cbn [length]. rewrite Hf, length_skipn. lia.
  - rewrite nth_error_app2 by lia. now rewrite Hf, Nat.sub_diag.
  - intros i Hi. rewrite nth_error_app1 by lia.
    rewrite nth_error_firstn. destruct (Nat.ltb_spec i p); [reflexivity | lia].
  - intros i Hi. rewrite nth_error_app2 by lia. rewrite Hf.
    replace (S i - p)%nat with (S (i - p)) by lia. cbn [nth_error].
    rewrite nth_error_skipn. f_equal. lia.
Qed.

(** Removing the element at index [p]: what is where afterwards. *)
Lemma delete_positions {A} (l : list A) (p : nat) :
  (p < length l)%nat ->
  let l' := firstn p l ++ skipn (S p) l in
  S (length l') = length l
  /\ (forall i, (i < p)%nat -> nth_error l' i = nth_error l i)
  /\ (forall i, (p <= i)%nat -> nth_error l' i = nth_error l (S i)).
Proof.
  intros Hp l'. unfold l'.
  assert (Hf : length (firstn p l) = p) by (rewrite length_firstn; lia).
  repeat split.
  - rewrite length_app, Hf, length_skipn. lia.
  - intros i Hi. rewrite nth_error_app1 by lia.
    rewrite nth_error_firstn. destruct (Nat.ltb_spec i p); [reflexivity | lia].
  - intros i Hi. rewrite nth_error_app2 by lia. rewrite Hf.
    rewrite nth_error_skipn. f_equal. lia.
Qed.

Lemma print_db_consistent (l : list bytes) :
  Forall (sized RS) l ->
  print_db_from_file (Some (concat l)) =
  Some (Returned (DbHeader :: rows_from 1 (map record_of l))).
Proof.
  intros Hl. pose proof (print_db_chunks l [] Hl) as H.
  cbn [corrupt_tail app] in H. rewrite ?app_nil_r in H.
  apply H. rewrite RS_eq. cbn. lia.
Qed.

(** C1 (as amended).  On a consistent store of [n] records, inserting at a
    position [pos] in [1, n+1] a record [r] that [pack_record] accepts adds
    exactly [RECORD_SIZE] bytes to the file; a scan of the new file prints
    [n+1] rows: the stored form of [r] (the record [unpack_record] reads back
    from [pack_record r]) at position [pos], the rows that were before [pos]
    unchanged, the rows that were at or after [pos] one position later, in
    the same order. *)
Theorem insert_then_scan (c : bytes) (n : nat) (pos : Z) (r : record)
    (blk : bytes) :
  length c = (n * RS)%nat ->
  1 <= pos <= Z.of_nat n + 1 ->
  pack_record r = Returned blk ->
  exists (c' : bytes) (rs rs' : list record) (r' : record),
    insert_record_at (Some c) pos r =
      Returned ([if pos =? Z.of_nat n + 1 then Appended else Inserted pos],
                Some c')
    /\ length c' = (length c + RS)%nat
    /\ unpack_record blk = Returned r'
    /\ print_db_from_file (Some c) = Some (Returned (DbHeader :: rows_from 1 rs))
    /\ print_db_from_file (Some c') = Some (Returned (DbHeader :: rows_from 1 rs'))
    /\ length rs = n /\ length rs' = S n
    /\ rs' = firstn (Z.to_nat (pos - 1)) rs ++ r' :: skipn (Z.to_nat (pos - 1)) rs
    /\ nth_error rs' (Z.to_nat (pos - 1)) = Some r'
    /\ (forall i, (i < Z.to_nat (pos - 1))%nat -> nth_error rs' i = nth_error rs i)
    /\ (forall i, (Z.to_nat (pos - 1) <= i)%nat ->
                  nth_error rs' (S i) = nth_error rs i).
Proof.
  intros Hc Hp Hr.
  destruct (consistent_chunks c n Hc) as (l & -> & Hl & Hn).
  pose proof (pack_record_length r blk Hr) as Hb.
  set (p := Z.to_nat (pos - 1)).
  set (l' := firstn p l ++ blk :: skipn p l).
  assert (Hl' : Forall (sized RS) l').
  { apply Forall_app. split; [now apply Forall_firstn_skipn|].
    constructor; [assumption | now apply Forall_firstn_skipn]. }
  set (rs := map record_of l).
  destruct (insert_positions rs p (record_of blk)) as (L & P1 & P2 & P3).
  { unfold rs. rewrite length_map. lia. }
  exists (concat l'), rs,
         (firstn p rs ++ record_of blk :: skipn p rs), (record_of blk).
  repeat split; try assumption.
  - rewrite <- Hn. now apply insert_chunks; [ | lia | ].
  - rewrite !concat_sized_length with (w := RS) by assumption.
    unfold l'. rewrite length_app. cbn [length].
    rewrite length_firstn, length_skipn. lia.
  - now apply unpack_record_sized.
  - now apply print_db_consistent.
  - rewrite print_db_consistent by assumption. unfold l', rs.
    now rewrite map_app, firstn_map, skipn_map.
  - unfold rs. now rewrite length_map.
  - assert (length rs = n) by (unfold rs; now rewrite length_map). lia.
Qed.

(** C2.  On a consistent store of [n >= 1] records, deleting at a position
    [pos] in [1, n] leaves a file of [(n-1) * RECORD_SIZE] bytes, one record
    width less; a scan of it prints [n-1] rows: the rows of the old file
    without the one that was at [pos], in their order (those before [pos] keep
    their position, those after move one position down). *)
Theorem delete_then_scan (c : bytes) (n : nat) (pos : Z) :
  length c = (n * RS)%nat ->
  (1 <= n)%nat ->
  1 <= pos <= Z.of_nat n ->
  exists (c' : bytes) (rs rs' : list record),
    delete_record (Some c) pos = ([Deleted pos], Some c')
    /\ length c' = ((n - 1) * RS)%nat
    /\ (length c' + RS)%nat = length c
    /\ print_db_from_file (Some c) = Some (Returned (DbHeader :: rows_from 1 rs))
    /\ print_db_from_file (Some c') = Some (Returned (DbHeader :: rows_from 1 rs'))
    /\ length rs = n /\ length rs' = (n - 1)%nat
    /\ rs' = firstn (Z.to_nat (pos - 1)) rs ++ skipn (Z.to_nat pos) rs
    /\ (forall i, (i < Z.to_nat (pos - 1))%nat -> nth_error rs' i = nth_error rs i)
    /\ (forall i, (Z.to_nat (pos - 1) <= i)%nat ->
                  nth_error rs' i = nth_error rs (S i)).
Proof.
  intros Hc Hn1 Hp.
  destruct (consistent_chunks c n Hc) as (l & -> & Hl & Hn).
  set (p := Z.to_nat (pos - 1)).
  replace (Z.to_nat pos) with (S p) by lia.
  set (l' := firstn p l ++ skipn (S p) l).
  assert (Hl' : Forall (sized RS) l').
  { apply Forall_app. split; now apply Forall_firstn_skipn. }
  set (rs := map record_of l).
  destruct (delete_positions rs p) as (L & P1 & P2).
  { unfold rs. rewrite length_map. lia. }
  assert (Hlen' : length l' = (n - 1)%nat).
  { unfold l'. rewrite length_app, length_firstn, length_skipn. lia. }
  exists (concat l'), rs, (firstn p rs ++ skipn (S p) rs).
  repeat split; try assumption.
  - unfold l'. replace (S p) with (Z.to_nat pos) by lia.
    apply delete_chunks; [assumption | lia].
  - rewrite concat_sized_length with (w := RS) by assumption. now rewrite Hlen'.
  - rewrite !concat_sized_length with (w := RS) by assumption.
    rewrite Hlen', RS_eq. lia.
  - now apply print_db_consistent.
  - rewrite print_db_consistent by assumption. unfold l', rs.
    now rewrite map_app, firstn_map, skipn_map.
  - unfold rs. now rewrite length_map.
  - assert (length rs = n) by (unfold rs; now rewrite length_map). lia.
Qed.

Lemma inconsistent_chunks (c : bytes) (k m : nat) :
  length c = (k * RS + m)%nat -> (m < RS)%nat ->
  exists l tail, c = concat l ++ tail /\ Forall (sized RS) l /\ length l = k
                 /\ length tail = m.
Proof.
  intros H Hm. destruct (split_chunks_spec k c) as (E & F & L); [lia|].
  exists (split_chunks k c), (skipn (k * RS) c). repeat split; try assumption.
  rewrite length_skipn. lia.
Qed.

(** The scan of any file returns: it neither raises nor runs out of
    fuel. *)
Lemma print_db_returns (c : bytes) :
  exists ls, print_db_from_file (Some c) = Some (Returned ls).
Proof.
  destruct (inconsistent_chunks c (length c / RS) (length c mod RS))
    as (l & tail & -> & Hl & _ & Ht).
  - rewrite RS_eq. pose proof (Nat.div_mod_eq (length c) 43). lia.
  - apply Nat.mod_upper_bound. now rewrite RS_eq.
  - rewrite print_db_chunks; [eauto | assumption |].
    rewrite Ht. apply Nat.mod_upper_bound. now rewrite RS_eq.
Qed.

Lemma getsize_mod (c : bytes) (k m : nat) :
  length c = (k * RS + m)%nat -> (m < RS)%nat ->
  getsize c mod RECORD_SIZE = Z.of_nat m /\ getsize c / RECORD_SIZE = Z.of_nat k.
Proof.
  intros H Hm. unfold getsize. rewrite H, RS_eq in *.
  replace (Z.of_nat (k * 43 + m)) with (Z.of_nat k * 43 + Z.of_nat m) by lia.
  rewrite size_mod, size_div by lia. auto.
Qed.

(** C4 (as amended).  On a file of [k * RECORD_SIZE + m] bytes,
    [0 < m < RECORD_SIZE]: the scan returns normally, having printed the size
    warning, [k] rows numbered [1..k] and last the report of a partial record
    of [m] bytes at index [k+1]; insertion and deletion at a position [>= 1]
    print the size message and leave the file as it is; at a position [< 1]
    they print the position message instead, and leave the file as it
    is. *)
Theorem truncated_file (c : bytes) (k m : nat) :
  length c = (k * RS + m)%nat -> (0 < m < RS)%nat ->
  (exists rs : list record,
      length rs = k
      /\ print_db_from_file (Some c) =
         Some (Returned (DbHeader :: SizeWarning (getsize c)
                         :: rows_from 1 rs
                         ++ [CorruptRecord (Z.of_nat k + 1) (Z.of_nat m)])))
  /\ (forall pos r, 1 <= pos ->
        insert_record_at (Some c) pos r = Returned ([InsertBadSize], Some c))
  /\ (forall pos, 1 <= pos ->
        delete_record (Some c) pos = ([DeleteBadSize], Some c))
  /\ (forall pos r, pos < 1 ->
        insert_record_at (Some c) pos r = Returned ([BadPosition], Some c))
  /\ (forall pos, pos < 1 ->
        delete_record (Some c) pos = ([BadPosition], Some c)).
Proof.
  intros Hc Hm.
  destruct (getsize_mod c k m Hc) as (Hmod & Hdiv); [lia|].
  assert (Hne : negb (getsize c mod RECORD_SIZE =? 0) = true).
  { rewrite Hmod. apply negb_true_iff, Z.eqb_neq. lia. }
  repeat split.
  - destruct (inconsistent_chunks c k m Hc) as (l & tail & -> & Hl & Hk & Ht); [lia|].
    exists (map record_of l). split; [now rewrite length_map|].
    rewrite print_db_chunks by (assumption || lia).
    destruct tail as [|t0 tail]; [cbn in Ht; lia|].
    cbn [corrupt_tail app]. rewrite Hk, Ht.
    now replace (1 + Z.of_nat k) with (Z.of_nat k + 1) by lia.
  - intros pos r Hp. unfold insert_record_at.
    replace (pos <? 1) with false by (symmetry; apply Z.ltb_ge; lia).
    now rewrite Hne.
  - intros pos Hp. unfold delete_record.
    replace (pos <? 1) with false by (symmetry; apply Z.ltb_ge; lia).
    now rewrite Hne.
  - intros pos r Hp. unfold insert_record_at.
    now replace (pos <? 1) with true by (symmetry; apply Z.ltb_lt; lia).
  - intros pos Hp. unfold delete_record.
    now replace (pos <? 1) with true by (symmetry; apply Z.ltb_lt; lia).
Qed.

(** C5 (as amended).  On a consistent store of [n] records: inserting at
    [n+1] a record that [pack_record] accepts appends its block to the file;
    inserting at [0] or at [n+2] prints a position message and leaves the file
    as it is, whatever the record; on the empty store deletion at a position
    [>= 1] prints the empty-store message, at a position [< 1] the position
    message, and leaves the file as it is. *)
Theorem boundary_positions (c : bytes) (n : nat) :
  length c = (n * RS)%nat ->
  (forall r blk, pack_record r = Returned blk ->
     insert_record_at (Some c) (Z.of_nat n + 1) r =
     Returned ([Appended], Some (c ++ blk)))
  /\ (forall r, insert_record_at (Some c) 0 r = Returned ([BadPosition], Some c))
  /\ (forall r, insert_record_at (Some c) (Z.of_nat n + 2) r =
                Returned ([BadPositionRange (Z.of_nat n + 1)], Some c))
  /\ (n = 0%nat -> forall pos, 1 <= pos ->
        delete_record (Some c) pos = ([EmptyDb], Some c))
  /\ (n = 0%nat -> forall pos, pos < 1 ->
        delete_record (Some c) pos = ([BadPosition], Some c)).
Proof.
  intros Hc.
  destruct (getsize_mod c n 0) as (Hmod & Hdiv);
    [lia | rewrite RS_eq; lia |].
  split; [|split; [|split; [|split]]].
  - intros r blk Hr.
    destruct (consistent_chunks c n Hc) as (l & -> & Hl & Hn).
    rewrite <- Hn, insert_chunks with (blk := blk); [ | assumption | lia | assumption].
    rewrite Z.eqb_refl. replace (Z.to_nat (Z.of_nat (length l) + 1 - 1)) with (length l) by lia.
    rewrite firstn_all, skipn_all, concat_app. cbn. now rewrite app_nil_r.
  - intros r. reflexivity.
  - intros r. unfold insert_record_at. rewrite Hmod, Hdiv. cbn [Z.ltb Z.compare Z.of_nat Z.eqb negb].
    replace (Z.of_nat n + 2 <? 1) with false by (symmetry; apply Z.ltb_ge; lia).
    now replace (Z.of_nat n + 2 >? Z.of_nat n + 1) with true
      by (symmetry; rewrite Z.gtb_ltb; apply Z.ltb_lt; lia).
  - intros -> pos Hp. unfold delete_record. rewrite Hmod, Hdiv.
    now replace (pos <? 1) with false by (symmetry; apply Z.ltb_ge; lia).
  - intros -> pos Hp. unfold delete_record.
    now replace (pos <? 1) with true by (symmetry; apply Z.ltb_lt; lia).
Qed.


Lemma matching_rows_ext (f g : record -> bool) idx rs :
  (forall r, f r = g r) -> matching_rows f idx rs = matching_rows g idx rs.
Proof.
  intros H. revert idx. induction rs as [|r rs IH]; intros idx; cbn; [reflexivity|].
  now rewrite H, IH.
Qed.

Lemma existsb_ext {A} (f g : A -> bool) l :
  (forall r, f r = g r) -> existsb f l = existsb g l.
Proof. intros H. induction l; cbn; [reflexivity | now rewrite H, IHl]. Qed.

Lemma search_file_chunks (ok : record -> bool) (l : list bytes) :
  Forall (sized RS) l ->
  search_file ok (concat l) = Some (Returned (search_output ok (map record_of l))).
Proof.
  intros Hl. unfold search_file, f_open.
  pose proof (read_loop_chunks ok l [] Hl) as H.
  rewrite !app_nil_r in H. rewrite H by (rewrite RS_eq; cbn; lia).
  reflexivity.
Qed.

Lemma is_operator_test (ch : Z) :
  is_operator ch <-> negb ((ch =? GT) || (ch =? LT) || (ch =? EQ)) = false.
Proof.
  unfold is_operator. rewrite negb_false_iff, !orb_true_iff, !Z.eqb_eq. tauto.
Qed.

Lemma digit_ok_float (op : Z) (x : float) (r : record) :
  digit_ok op (TFloat x) r = float_cmp op (price r) x.
Proof.
  unfold digit_ok, float_cmp.
  destruct ((op =? GT) && _), ((op =? LT) && _), ((op =? EQ) && _); reflexivity.
Qed.

Lemma digit_ok_int (op : Z) (n : Z) (r : record) :
  digit_ok op (TInt n) r = int_cmp op (count r) n.
Proof.
  unfold digit_ok, int_cmp.
  destruct ((op =? GT) && _), ((op =? LT) && _), ((op =? EQ) && _); reflexivity.
Qed.

Lemma has_dot_In (s : str) : In 46 s <-> has_dot s = true.
Proof.
  unfold has_dot. rewrite existsb_exists. split.
  - intros H. exists 46. split; [exact H | reflexivity].
  - intros (x & Hx & E). apply Z.eqb_eq in E. now subst x.
Qed.

Lemma has_dot_not_In (s : str) : ~ In 46 s <-> has_dot s = false.
Proof.
  rewrite has_dot_In. destruct (has_dot s); split; congruence.
Qed.

Section SearchProperties.

Variable py_int : str -> option Z.
Variable py_float : str -> option float.

Lemma consistent_nonempty (l : list bytes) :
  Forall (sized RS) l -> l <> [] ->
  negb (getsize (concat l) mod RECORD_SIZE =? 0) = false
  /\ (getsize (concat l) / RECORD_SIZE =? 0) = false.
Proof.
  intros Hl Hne.
  destruct (getsize_mod (concat l) (length l) 0) as (Hmod & Hdiv).
  - rewrite concat_sized_length with (w := RS) by assumption. lia.
  - rewrite RS_eq. lia.
  - rewrite Hmod, Hdiv. split; [reflexivity|].
    apply Z.eqb_neq. destruct l; [contradiction | cbn [length]; lia].
Qed.

(** C6 (as amended).  [digit_search] strips the condition first; an empty
    condition gives the empty-condition message.  Otherwise, with [ch] the
    first character of the stripped condition and [num_str] the rest,
    stripped:
    - [ch] is not an operator: the operator message;
    - [num_str] is empty: the missing-number message;
    - [num_str] contains a [.]: it is read by [float] alone, and on a
      consistent, non-empty file the rows printed are those whose [price]
      stands in relation [ch] to the float, compared as floats;
    - [num_str] contains no [.]: it is read by [int] alone, and the rows
      printed are those whose [count] stands in relation [ch] to the integer,
      compared as integers;
    - the selected parser refuses [num_str] (a literal with a [.] that is not
      a float, a literal without one that is not an integer, such as [1e5]):
      the number message.
    The four messages are printed whatever the file. *)
Theorem comparison_dispatch (condition : str) :
  (strip condition = [] ->
     forall c, digit_search py_int py_float (Some c) condition =
               Some (Returned [EmptyCondition]))
  /\ (forall (ch : Z) (rest : str),
      strip condition = ch :: rest ->
      let num_str := strip rest in
      (~ is_operator ch ->
         forall c, digit_search py_int py_float (Some c) condition =
                   Some (Returned [BadOperator]))
      /\ (is_operator ch -> num_str = [] ->
          forall c, digit_search py_int py_float (Some c) condition =
                    Some (Returned [NoNumber]))
      /\ (is_operator ch -> num_str <> [] ->
          (py_int num_str = None -> py_float num_str = None ->
             forall c, digit_search py_int py_float (Some c) condition =
                       Some (Returned [BadNumber]))
          /\ (forall x, In 46 num_str -> py_float num_str = Some x ->
                forall l, Forall (sized RS) l -> l <> [] ->
                digit_search py_int py_float (Some (concat l)) condition =
                Some (Returned (search_output (fun r => float_cmp ch (price r) x)
                                  (map record_of l))))
          /\ (forall n, ~ In 46 num_str -> py_int num_str = Some n ->
                forall l, Forall (sized RS) l -> l <> [] ->
                digit_search py_int py_float (Some (concat l)) condition =
                Some (Returned (search_output (fun r => int_cmp ch (count r) n)
                                  (map record_of l))))
          /\ (In 46 num_str -> py_float num_str = None ->
                forall c, digit_search py_int py_float (Some c) condition =
                          Some (Returned [BadNumber]))
          /\ (~ In 46 num_str -> py_int num_str = None ->
                forall c, digit_search py_int py_float (Some c) condition =
                          Some (Returned [BadNumber])))).
Proof.
  split.
  { intros Hs c. unfold digit_search. now rewrite Hs. }
  intros ch rest Hs num_str. split; [|split].
  - intros Hop c. unfold digit_search. rewrite Hs.
    destruct (negb _) eqn:E; [reflexivity|].
    apply is_operator_test in E. contradiction.
  - intros Hop Hnum c. apply is_operator_test in Hop.
    unfold digit_search. rewrite Hs, Hop. fold num_str. now rewrite Hnum.
  - intros Hop Hne. apply is_operator_test in Hop.
    assert (Hd : forall c,
              digit_search py_int py_float (Some c) condition =
              match parse_target py_int py_float num_str with
              | None => Some (Returned [BadNumber])
              | Some t =>
                  if negb (getsize c mod RECORD_SIZE =? 0)
                  then Some (Returned [SearchBadSize])
                  else if getsize c / RECORD_SIZE =? 0
                       then Some (Returned [EmptyDb])
                       else search_file (digit_ok ch t) c
              end).
    { intros c. unfold digit_search. rewrite Hs, Hop. fold num_str.
      destruct num_str; [contradiction | reflexivity]. }
    split; [|split; [|split; [|split]]].
    + intros Hi Hf c. rewrite Hd. unfold parse_target.
      now rewrite Hi, Hf; destruct (has_dot num_str).
    + intros x Hdot Hx l Hl Hl0. apply has_dot_In in Hdot.
      rewrite Hd. unfold parse_target.
      rewrite Hdot, Hx. cbn [option_map].
      destruct (consistent_nonempty l Hl Hl0) as (-> & ->).
      rewrite search_file_chunks by assumption. unfold search_output.
      rewrite (matching_rows_ext _ _ _ _ (digit_ok_float ch x)).
      now rewrite (existsb_ext _ _ _ (digit_ok_float ch x)).
    + intros n Hdot Hn l Hl Hl0. apply has_dot_not_In in Hdot.
      rewrite Hd. unfold parse_target.
      rewrite Hdot, Hn. cbn [option_map].
      destruct (consistent_nonempty l Hl Hl0) as (-> & ->).
      rewrite search_file_chunks by assumption. unfold search_output.
      rewrite (matching_rows_ext _ _ _ _ (digit_ok_int ch n)).
      now rewrite (existsb_ext _ _ _ (digit_ok_int ch n)).
    + intros Hdot Hf c. apply has_dot_In in Hdot.
      rewrite Hd. unfold parse_target. now rewrite Hdot, Hf.
    + intros Hdot Hi c. apply has_dot_not_In in Hdot.
      rewrite Hd. unfold parse_target. now rewrite Hdot, Hi.
Qed.

(** A query that [two_fields_search] refuses, and the line it prints. *)
Lemma two_fields_refused (f1 f2 : arg) :
  ~ accepted_fields py_int f1 f2 ->
  exists msg,
    In msg [FieldsNotNumbers; FieldsMustDiffer; BadFieldNumber]
    /\ forall d v1 v2, d <> None ->
         two_fields_search py_int py_float d f1 v1 f2 v2 = Some (Returned [msg]).
Proof.
  intros Hno. unfold two_fields_search.
  destruct (int_of_arg py_int f1) as [n1|] eqn:E1.
  2:{ exists FieldsNotNumbers. split; [now left|].
      intros [c|] v1 v2 Hd; [reflexivity | contradiction]. }
  destruct (int_of_arg py_int f2) as [n2|] eqn:E2.
  2:{ exists FieldsNotNumbers. split; [now left|].
      intros [c|] v1 v2 Hd; [reflexivity | contradiction]. }
  destruct (Z.eqb_spec n1 n2) as [Heq|Hne].
  { exists FieldsMustDiffer. split; [right; now left|].
    intros [c|] v1 v2 Hd; [reflexivity | contradiction]. }
  destruct (valid_field n1) eqn:V1; cbn [negb orb].
  - destruct (valid_field n2) eqn:V2; cbn [negb].
    + exfalso. apply Hno. exists n1, n2. auto.
    + exists BadFieldNumber. split; [right; right; now left|].
      intros [c|] v1 v2 Hd; [reflexivity | contradiction].
  - exists BadFieldNumber. split; [right; right; now left|].
    intros [c|] v1 v2 Hd; [reflexivity | contradiction].
Qed.

(** A condition that [digit_search] refuses, and the line it prints. *)
Lemma condition_refused (condition : str) :
  ~ accepted_condition py_int py_float condition ->
  exists msg,
    In msg [EmptyCondition; BadOperator; NoNumber; BadNumber]
    /\ forall d, d <> None ->
         digit_search py_int py_float d condition = Some (Returned [msg]).
Proof.
  intros Hno. unfold digit_search.
  destruct (strip condition) as [|op rest] eqn:Hs.
  { exists EmptyCondition. split; [now left|].
    intros [c|] Hd; [reflexivity | contradiction]. }
  destruct (negb _) eqn:Hop.
  { exists BadOperator. split; [right; now left|].
    intros [c|] Hd; [reflexivity | contradiction]. }
  apply is_operator_test in Hop.
  destruct (strip rest) as [|a num] eqn:Hn.
  { exists NoNumber. split; [right; right; now left|].
    intros [c|] Hd; [reflexivity | contradiction]. }
  destruct (parse_target py_int py_float (a :: num)) as [t|] eqn:Ht.
  { exfalso. apply Hno. exists op, rest, t. rewrite Hn.
    split; [exact Hs|]. split; [exact Hop|]. split; [discriminate | exact Ht]. }
  exists BadNumber. split; [right; right; right; now left|].
  intros [c|] Hd; [reflexivity | contradiction].
Qed.

(** C9 (as amended).  On a file whose size is not a multiple of
    [RECORD_SIZE], [one_field_search] prints the size message and nothing
    else, whatever its arguments; [two_fields_search] and [digit_search] do so
    when their query is accepted.  On the empty file they print the
    empty-store message and nothing else, under the same conditions.  A query
    that [two_fields_search] or [digit_search] does not accept is answered by
    the message of the refusal alone, whatever the size of the file. *)
Theorem search_size_checks (c : bytes) :
  (getsize c mod RECORD_SIZE <> 0 ->
     (forall f v, one_field_search py_int py_float (Some c) f v =
                  Some (Returned [SearchBadSize]))
     /\ (forall f1 v1 f2 v2, accepted_fields py_int f1 f2 ->
           two_fields_search py_int py_float (Some c) f1 v1 f2 v2 =
           Some (Returned [SearchBadSize]))
     /\ (forall condition, accepted_condition py_int py_float condition ->
           digit_search py_int py_float (Some c) condition =
           Some (Returned [SearchBadSize])))
  /\ (c = [] ->
     (forall f v, one_field_search py_int py_float (Some c) f v =
                  Some (Returned [EmptyDb]))
     /\ (forall f1 v1 f2 v2, accepted_fields py_int f1 f2 ->
           two_fields_search py_int py_float (Some c) f1 v1 f2 v2 =
           Some (Returned [EmptyDb]))
     /\ (forall condition, accepted_condition py_int py_float condition ->
           digit_search py_int py_float (Some c) condition =
           Some (Returned [EmptyDb])))
  /\ ((forall f1 v1 f2 v2, ~ accepted_fields py_int f1 f2 ->
        exists msg,
          In msg [FieldsNotNumbers; FieldsMustDiffer; BadFieldNumber]
          /\ two_fields_search py_int py_float (Some c) f1 v1 f2 v2 =
             Some (Returned [msg]))
      /\ (forall condition, ~ accepted_condition py_int py_float condition ->
        exists msg,
          In msg [EmptyCondition; BadOperator; NoNumber; BadNumber]
          /\ digit_search py_int py_float (Some c) condition =
             Some (Returned [msg]))).
Proof.
  assert (Htwo : forall f1 v1 f2 v2, accepted_fields py_int f1 f2 ->
            two_fields_search py_int py_float (Some c) f1 v1 f2 v2 =
            if negb (getsize c mod RECORD_SIZE =? 0)
            then Some (Returned [SearchBadSize])
            else if getsize c / RECORD_SIZE =? 0 then Some (Returned [EmptyDb])
            else search_file (fun r => field_ok py_int py_float
                                         match int_of_arg py_int f1 with Some n => n | None => 0 end v1 r
                                       && field_ok py_int py_float
                                         match int_of_arg py_int f2 with Some n => n | None => 0 end v2 r) c).
  { intros f1 v1 f2 v2 (n1 & n2 & E1 & E2 & Hne & V1 & V2).
    unfold two_fields_search. rewrite E1, E2, V1, V2.
    now replace (n1 =? n2) with false by (symmetry; apply Z.eqb_neq; exact Hne). }
  assert (Hdig : forall condition, accepted_condition py_int py_float condition ->
            exists t op, digit_search py_int py_float (Some c) condition =
            if negb (getsize c mod RECORD_SIZE =? 0)
            then Some (Returned [SearchBadSize])
            else if getsize c / RECORD_SIZE =? 0 then Some (Returned [EmptyDb])
            else search_file (digit_ok op t) c).
  { intros condition (op & rest & t & Hs & Hop & Hne & Ht).
    exists t, op. unfold digit_search. apply is_operator_test in Hop.
    rewrite Hs, Hop. revert Hne Ht.
    destruct (strip rest); intros Hne Ht; [contradiction | now rewrite Ht]. }
  split; [|split].
  - intros Hm.
    assert (E : negb (getsize c mod RECORD_SIZE =? 0) = true)
      by (apply negb_true_iff, Z.eqb_neq, Hm).
    split; [|split].
    + intros f v. unfold one_field_search. now rewrite E.
    + intros f1 v1 f2 v2 H. now rewrite Htwo, E.
    + intros condition H. destruct (Hdig condition H) as (t & op & ->). now rewrite E.
  - intros ->. split; [|split].
    + intros f v. reflexivity.
    + intros f1 v1 f2 v2 H. now rewrite Htwo.
    + intros condition H. now destruct (Hdig condition H) as (t & op & ->).
  - split.
    + intros f1 v1 f2 v2 H.
      destruct (two_fields_refused f1 f2 H) as (msg & Hin & Hmsg).
      exists msg. split; [exact Hin | now apply Hmsg].
    + intros condition H.
      destruct (condition_refused condition H) as (msg & Hin & Hmsg).
      exists msg. split; [exact Hin | now apply Hmsg].
Qed.

End SearchProperties.

(** ** Bytes and integers *)

Ltac dlia := Z.to_euclidean_division_equations; lia.

Lemma b2z_range (b : byte) : 0 <= b2z b < 256.
Proof.
  unfold b2z. pose proof (Byte.to_N_bounded b) as H. lia.
Qed.

Lemma z2b_b2z (b : byte) : z2b (b2z b) = b.
Proof.
  unfold z2b. rewrite Z.mod_small by apply b2z_range.
  unfold b2z. now rewrite N2Z.id, Byte.of_to_N.
Qed.

Lemma b2z_z2b (z : Z) : b2z (z2b z) = z mod 256.
Proof.
  unfold z2b, b2z.
  destruct (Byte.of_N (Z.to_N (z mod 256))) as [b|] eqn:E.
  - apply Byte.to_of_N in E. rewrite E. dlia.
  - apply Byte.of_N_None_iff in E. dlia.
Qed.

Lemma b2z_x00 : b2z x00 = 0.
Proof. reflexivity. Qed.

Lemma le_value_range (b : bytes) : 0 <= le_value b < 256 ^ Z.of_nat (length b).
Proof.
  induction b as [|x t IH]; cbn [le_value length]; [cbn; lia|].
  pose proof (b2z_range x). rewrite Nat2Z.inj_succ, Z.pow_succ_r by lia. lia.
Qed.

Lemma le_value_le_bytes (n : nat) (z : Z) :
  le_value (le_bytes n z) = z mod 256 ^ Z.of_nat n.
Proof.
  revert z. induction n as [|n IH]; intros z.
  - cbn. now rewrite Z.mod_1_r.
  - cbn [le_bytes le_value]. rewrite b2z_z2b, IH.
    rewrite Nat2Z.inj_succ, Z.pow_succ_r by lia.
    rewrite Z.rem_mul_r by lia. reflexivity.
Qed.

Lemma le_bytes_le_value (b : bytes) : le_bytes (length b) (le_value b) = b.
Proof.
  induction b as [|x t IH]; cbn [le_bytes le_value length]; [reflexivity|].
  pose proof (b2z_range x) as Hx. f_equal.
  - rewrite <- (z2b_b2z x) at 2. unfold z2b. f_equal.
    replace ((b2z x + 256 * le_value t) mod 256) with (b2z x mod 256) by dlia.
    reflexivity.
  - replace ((b2z x + 256 * le_value t) / 256) with (le_value t) by dlia.
    exact IH.
Qed.

Lemma unpack_pack_i (n : Z) (b : bytes) : pack_i n = Returned b -> unpack_i b = n.
Proof.
  unfold pack_i. destruct (_ && _) eqn:E; [|discriminate].
  intros H. apply Returned_inj in H. subst b.
  apply andb_true_iff in E. destruct E as (E1 & E2).
  apply Z.leb_le in E1, E2.
  unfold unpack_i. rewrite le_value_le_bytes.
  change (256 ^ Z.of_nat 4) with 4294967296.
  destruct (Z.ltb_spec ((n mod 4294967296) mod 4294967296) 2147483648); dlia.
Qed.

Lemma pack_unpack_i (b : bytes) : length b = 4%nat -> pack_i (unpack_i b) = Returned b.
Proof.
  intros Hb. pose proof (le_value_range b) as Hr. rewrite Hb in Hr.
  change (256 ^ Z.of_nat 4) with 4294967296 in Hr.
  unfold pack_i, unpack_i.
  destruct (Z.ltb_spec (le_value b) 2147483648) as [H|H].
  - replace ((-2147483648 <=? le_value b) && (le_value b <=? 2147483647)) with true
      by (symmetry; apply andb_true_iff; split; apply Z.leb_le; lia).
    rewrite Z.mod_small by lia. now rewrite <- Hb, le_bytes_le_value.
  - replace ((-2147483648 <=? le_value b - 4294967296)
             && (le_value b - 4294967296 <=? 2147483647)) with true
      by (symmetry; apply andb_true_iff; split; apply Z.leb_le; lia).
    replace ((le_value b - 4294967296) mod 4294967296) with (le_value b) by dlia.
    now rewrite <- Hb, le_bytes_le_value.
Qed.

(** ** UTF-8 *)

(** Settles every integer comparison of the goal: by the context when it
    decides it, by cases otherwise. *)
Ltac settle :=
  repeat match goal with
  | |- context [Z.ltb ?a ?b] =>
      first [ replace (Z.ltb a b) with true by (symmetry; apply Z.ltb_lt; dlia)
            | replace (Z.ltb a b) with false by (symmetry; apply Z.ltb_ge; dlia)
            | destruct (Z.ltb_spec a b) ]
  | |- context [Z.leb ?a ?b] =>
      first [ replace (Z.leb a b) with true by (symmetry; apply Z.leb_le; dlia)
            | replace (Z.leb a b) with false by (symmetry; apply Z.leb_gt; dlia)
            | destruct (Z.leb_spec a b) ]
  | |- context [Z.eqb ?a ?b] =>
      first [ replace (Z.eqb a b) with true by (symmetry; apply Z.eqb_eq; dlia)
            | replace (Z.eqb a b) with false by (symmetry; apply Z.eqb_neq; dlia)
            | destruct (Z.eqb_spec a b) ]
  end; cbn [andb orb negb].

Lemma decode_cons (b0 : byte) (t : bytes) :
  decode_utf8_ignore (b0 :: t) =
  let c0 := b2z b0 in
  if c0 <? 128 then c0 :: decode_utf8_ignore t
  else if c0 <? 194 then decode_utf8_ignore t
  else if c0 <? 224 then
    match t with
    | [] => []
    | b1 :: t1 =>
        if is_cont b1
        then ((c0 - 192) * 64 + (b2z b1 - 128)) :: decode_utf8_ignore t1
        else decode_utf8_ignore t
    end
  else if c0 <? 240 then
    match t with
    | [] => []
    | b1 :: t1 =>
        if negb (is_cont b1)
           || (if b2z b1 <? 160 then c0 =? 224 else c0 =? 237)
        then decode_utf8_ignore t
        else
          match t1 with
          | [] => []
          | b2 :: t2 =>
              if is_cont b2
              then ((c0 - 224) * 4096 + (b2z b1 - 128) * 64
                    + (b2z b2 - 128)) :: decode_utf8_ignore t2
              else decode_utf8_ignore t1
          end
    end
  else if c0 <? 245 then
    match t with
    | [] => []
    | b1 :: t1 =>
        if negb (is_cont b1)
           || (if b2z b1 <? 144 then c0 =? 240 else c0 =? 244)
        then decode_utf8_ignore t
        else
          match t1 with
          | [] => []
          | b2 :: t2 =>
              if negb (is_cont b2) then decode_utf8_ignore t1
              else
                match t2 with
                | [] => []
                | b3 :: t3 =>
                    if is_cont b3
                    then ((c0 - 240) * 262144 + (b2z b1 - 128) * 4096
                          + (b2z b2 - 128) * 64 + (b2z b3 - 128))
                         :: decode_utf8_ignore t3
                    else decode_utf8_ignore t2
                end
          end
    end
  else decode_utf8_ignore t.
Proof. destruct t as [|b1 [|b2 [|b3 t3]]]; reflexivity. Qed.

(** Decoding reads back an encoded code point and goes on after it. *)
Lemma decode_encode_cp (c : Z) (bs rest : bytes) :
  encode_cp c = Returned bs ->
  decode_utf8_ignore (bs ++ rest) = c :: decode_utf8_ignore rest.
Proof.
  unfold encode_cp.
  destruct (Z.ltb_spec c 0); [discriminate|].
  destruct (Z.ltb_spec c 128).
  { intros E. apply Returned_inj in E. subst bs. cbn [app].
    rewrite decode_cons. cbv zeta. rewrite b2z_z2b. settle; f_equal; dlia. }
  destruct (Z.ltb_spec c 2048).
  { intros E. apply Returned_inj in E. subst bs. cbn [app].
    rewrite decode_cons. cbv zeta. unfold is_cont. rewrite !b2z_z2b. settle; f_equal; dlia. }
  destruct (Z.leb_spec 55296 c); destruct (Z.leb_spec c 57343);
    cbn [andb]; try discriminate; try lia.
  - destruct (Z.ltb_spec c 65536).
    { intros E. apply Returned_inj in E. subst bs. cbn [app].
      rewrite decode_cons. cbv zeta. unfold is_cont. rewrite !b2z_z2b. settle; f_equal; dlia. }
    destruct (Z.ltb_spec c 1114112); [|discriminate].
    intros E. apply Returned_inj in E. subst bs. cbn [app].
    rewrite decode_cons. cbv zeta. unfold is_cont. rewrite !b2z_z2b. settle; f_equal; dlia.
  - destruct (Z.ltb_spec c 65536); [|lia].
    intros E. apply Returned_inj in E. subst bs. cbn [app].
    rewrite decode_cons. cbv zeta. unfold is_cont. rewrite !b2z_z2b. settle; f_equal; dlia.
Qed.

Lemma decode_encode (s : str) : forall (bs rest : bytes),
  encode_utf8 s = Returned bs ->
  decode_utf8_ignore (bs ++ rest) = s ++ decode_utf8_ignore rest.
Proof.
  induction s as [|c s IH]; intros bs rest H; cbn [encode_utf8] in H.
  - apply Returned_inj in H. now subst bs.
  - repeat bind_inv H. apply Returned_inj in H. subst bs.
    rewrite <- app_assoc. rewrite (decode_encode_cp c a _ E).
    cbn [app]. f_equal. now apply IH.
Qed.

Lemma decode_zeros (k : nat) : decode_utf8_ignore (repeat x00 k) = repeat 0 k.
Proof.
  induction k as [|k IH]; [reflexivity|].
  cbn [repeat]. rewrite decode_cons. cbv zeta. rewrite b2z_x00. cbn [Z.ltb Z.compare].
  now rewrite IH.
Qed.

Lemma encode_app (s t : str) :
  encode_utf8 (s ++ t) =
  (a <- encode_utf8 s ;; b <- encode_utf8 t ;; Returned (a ++ b)).
Proof.
  induction s as [|c s IH]; cbn [app encode_utf8 bind].
  - destruct (encode_utf8 t); reflexivity.
  - destruct (encode_cp c) as [bc|e]; cbn [bind]; [|reflexivity].
    rewrite IH. destruct (encode_utf8 s) as [bs|e]; cbn [bind]; [|reflexivity].
    destruct (encode_utf8 t) as [bt|e]; cbn [bind]; [|reflexivity].
    now rewrite app_assoc.
Qed.

Lemma encode_zeros (k : nat) : encode_utf8 (repeat 0 k) = Returned (repeat x00 k).
Proof.
  induction k as [|k IH]; [reflexivity|].
  cbn [repeat encode_utf8]. rewrite IH. reflexivity.
Qed.

(** The code points that have a UTF-8 encoding, and its length. *)
Lemma encode_cp_1 c : 0 <= c < 128 ->
  exists bs, encode_cp c = Returned bs /\ length bs = 1%nat.
Proof. intros H. unfold encode_cp. settle. eauto. Qed.

Lemma encode_cp_2 c : 128 <= c < 2048 ->
  exists bs, encode_cp c = Returned bs /\ length bs = 2%nat.
Proof. intros H. unfold encode_cp. settle. eauto. Qed.

Lemma encode_cp_3 c : 2048 <= c < 55296 \/ 57344 <= c < 65536 ->
  exists bs, encode_cp c = Returned bs /\ length bs = 3%nat.
Proof. intros H. unfold encode_cp. settle; eauto. Qed.

Lemma encode_cp_4 c : 65536 <= c < 1114112 ->
  exists bs, encode_cp c = Returned bs /\ length bs = 4%nat.
Proof. intros H. unfold encode_cp. settle. eauto. Qed.

(** What the decoder returns can be encoded again, in no more bytes than
    were decoded. *)
Lemma encode_decode_length (n : nat) : forall b : bytes,
  (length b <= n)%nat ->
  exists bs, encode_utf8 (decode_utf8_ignore b) = Returned bs
             /\ (length bs <= length b)%nat.
Proof.
  induction n as [|n IH]; intros b Hb.
  - destruct b; [|cbn in Hb; lia]. exists []. split; [reflexivity | cbn; lia].
  - destruct b as [|b0 t]; [exists []; split; [reflexivity | cbn; lia]|].
    rewrite decode_cons. cbv zeta.
    pose proof (b2z_range b0) as R0.
    assert (Hskip : forall t' : bytes, (length t' <= length t)%nat ->
              exists bs, encode_utf8 (decode_utf8_ignore t') = Returned bs
                         /\ (length bs <= length (b0 :: t))%nat).
    { intros t' Ht'. destruct (IH t') as (bs & E & L); [cbn [length] in Hb; lia|].
      exists bs. split; [exact E | cbn [length]; lia]. }
    assert (Hemit : forall (c : Z) (k : nat) (t' : bytes),
              (exists bc, encode_cp c = Returned bc /\ length bc = S k) ->
              (S k + length t' <= length (b0 :: t))%nat ->
              exists bs, encode_utf8 (c :: decode_utf8_ignore t') = Returned bs
                         /\ (length bs <= length (b0 :: t))%nat).
    { intros c k t' (bc & Ec & Lc) Ht'.
      destruct (IH t') as (bs & E & L); [cbn [length] in *; lia|].
      exists (bc ++ bs). cbn [encode_utf8]. rewrite Ec, E. cbn [bind].
      split; [reflexivity | rewrite length_app; lia]. }
    assert (Hnil : exists bs : bytes, encode_utf8 [] = Returned bs
                              /\ (length bs <= length (b0 :: t))%nat).
    { exists []. split; [reflexivity | cbn; lia]. }
    destruct t as [|b1 [|b2 [|b3 t3]]];
      try pose proof (b2z_range b1) as R1;
      try pose proof (b2z_range b2) as R2;
      try pose proof (b2z_range b3) as R3;
      cbv beta iota; unfold is_cont; settle;
      first
        [ exact Hnil
        | apply Hskip; cbn [length]; lia
        | eapply Hemit; [apply encode_cp_1; lia | cbn [length]; lia]
        | eapply Hemit; [apply encode_cp_2; lia | cbn [length]; lia]
        | eapply Hemit; [apply encode_cp_3; lia | cbn [length]; lia]
        | eapply Hemit; [apply encode_cp_4; lia | cbn [length]; lia] ].
Qed.

(** ** Stripping trailing NUL characters *)

Lemma rstrip0_zeros (k : nat) : rstrip0 (repeat 0 k) = [].
Proof. induction k as [|k IH]; [reflexivity|]. cbn [repeat rstrip0]. now rewrite IH. Qed.

Lemma rstrip0_app_zeros (s : str) (k : nat) : rstrip0 (s ++ repeat 0 k) = rstrip0 s.
Proof.
  induction s as [|c s IH]; cbn [app rstrip0].
  - apply rstrip0_zeros.
  - now rewrite IH.
Qed.

Lemma rstrip0_prefix (s : str) : exists k, s = rstrip0 s ++ repeat 0 k.
Proof.
  induction s as [|c s (k & IH)]; [now exists 0%nat|].
  cbn [rstrip0]. destruct (rstrip0 s) as [|c' t'] eqn:E.
  - destruct (Z.eqb_spec c 0) as [->|Hc].
    + exists (S k). cbn [app repeat]. f_equal. exact IH.
    + exists k. cbn [app]. f_equal. exact IH.
  - exists k. cbn [app]. f_equal. exact IH.
Qed.

Lemma rstrip0_idem (s : str) : rstrip0 (rstrip0 s) = rstrip0 s.
Proof.
  destruct (rstrip0_prefix s) as (k & E).
  rewrite E at 2. now rewrite rstrip0_app_zeros.
Qed.

(** The result of [rstrip0] does not end with a NUL. *)
Lemma rstrip0_last (s : str) : last (rstrip0 s) 1 <> 0.
Proof.
  induction s as [|c s IH]; cbn [rstrip0]; [cbn; lia|].
  destruct (rstrip0 s) as [|c' t'] eqn:E.
  - destruct (Z.eqb_spec c 0); cbn; lia.
  - exact IH.
Qed.

Lemma rstrip0_fixed (s : str) : last s 1 <> 0 -> rstrip0 s = s.
Proof.
  induction s as [|c s IH]; intros H; [reflexivity|].
  cbn [rstrip0]. destruct s as [|c' s'].
  - cbn in *. destruct (Z.eqb_spec c 0); [contradiction | reflexivity].
  - rewrite IH by exact H. reflexivity.
Qed.

(** ** Text fields *)

(** A text that fits its field is read back, up to trailing NULs. *)
Lemma text_field_fits (w : nat) (s : str) (e : bytes) :
  encode_utf8 s = Returned e -> (length e <= w)%nat ->
  rstrip0 (decode_utf8_ignore (ljust w (firstn w e))) = rstrip0 s.
Proof.
  intros He Hw. unfold ljust. rewrite firstn_all2 by exact Hw.
  rewrite (decode_encode s e _ He), decode_zeros. apply rstrip0_app_zeros.
Qed.

(** The text read from any field is stored again unchanged. *)
Lemma text_field_stored (w : nat) (F : bytes) :
  (length F <= w)%nat ->
  exists e, encode_utf8 (rstrip0 (decode_utf8_ignore F)) = Returned e
            /\ (length e <= w)%nat
            /\ rstrip0 (decode_utf8_ignore (ljust w (firstn w e)))
               = rstrip0 (decode_utf8_ignore F).
Proof.
  intros HF.
  destruct (encode_decode_length (length F) F) as (bs & E & L); [lia|].
  destruct (rstrip0_prefix (decode_utf8_ignore F)) as (k & P).
  pose proof (rstrip0_idem (decode_utf8_ignore F)) as I.
  remember (rstrip0 (decode_utf8_ignore F)) as s eqn:Hs. clear Hs.
  rewrite P, encode_app, encode_zeros in E.
  destruct (encode_utf8 s) as [e|x] eqn:Es; cbn [bind] in E; [|discriminate].
  apply Returned_inj in E. subst bs. rewrite length_app in L.
  exists e. split; [reflexivity|]. split; [lia|].
  rewrite (text_field_fits w s e Es) by lia. exact I.
Qed.

(** ** Binary32 *)

Lemma digits2_pos_bounds (m : positive) :
  2 ^ (Zpos (digits2_pos m) - 1) <= Zpos m < 2 ^ Zpos (digits2_pos m).
Proof.
  induction m as [m IH|m IH|]; cbn [digits2_pos]; [ | | cbn; lia].
  - rewrite Pos2Z.inj_succ.
    replace (Z.succ (Zpos (digits2_pos m)) - 1) with (Z.succ (Zpos (digits2_pos m) - 1)) by lia.
    rewrite !Z.pow_succ_r by lia. lia.
  - rewrite Pos2Z.inj_succ.
    replace (Z.succ (Zpos (digits2_pos m)) - 1) with (Z.succ (Zpos (digits2_pos m) - 1)) by lia.
    rewrite !Z.pow_succ_r by lia. lia.
Qed.

Lemma digits2_pos_le (m : positive) (k : Z) :
  0 <= k -> Zpos m < 2 ^ k -> Zpos (digits2_pos m) <= k.
Proof.
  intros Hk Hm. pose proof (digits2_pos_bounds m) as (L & _).
  destruct (Z_le_gt_dec (Zpos (digits2_pos m)) k) as [|G]; [assumption|].
  assert (2 ^ k <= 2 ^ (Zpos (digits2_pos m) - 1)) by (apply Z.pow_le_mono_r; lia).
  lia.
Qed.

Lemma digits2_pos_gt (m : positive) (k : Z) :
  2 ^ k <= Zpos m -> k < Zpos (digits2_pos m).
Proof.
  intros Hm. pose proof (digits2_pos_bounds m) as (_ & U).
  destruct (Z_lt_ge_dec k (Zpos (digits2_pos m))) as [|G]; [assumption|].
  assert (2 ^ Zpos (digits2_pos m) <= 2 ^ k) by (apply Z.pow_le_mono_r; lia).
  lia.
Qed.

(** A finite single is valid when its significand has at most 24 bits and
    its exponent is the canonical one, between -149 and 104. *)
Lemma valid32_finite (s : bool) (m : positive) (e : Z) :
  valid_binary 24 128 (S754_finite s m e) = true <->
  Z.max (Zpos (digits2_pos m) + e - 24) (-149) = e /\ e <= 104.
Proof.
  cbn [valid_binary]. unfold bounded, canonical_mantissa, fexp, emin.
  rewrite andb_true_iff, Z.eqb_eq, Z.leb_le.
  change (3 - 128 - 24) with (-149). change (128 - 24) with 104. tauto.
Qed.

Lemma f32_of_bits_valid (w : Z) :
  0 <= w < 4294967296 -> valid_binary 24 128 (f32_of_bits w) = true.
Proof.
  intros Hw. unfold f32_of_bits.
  destruct (Z.eqb_spec ((w / 8388608) mod 256) 0) as [E0|E0].
  - destruct (w mod 8388608) as [|m|m] eqn:F; try reflexivity.
    apply valid32_finite.
    assert (Hd : Zpos (digits2_pos m) <= 23).
    { apply digits2_pos_le; [lia|]. change (2 ^ 23) with 8388608. dlia. }
    lia.
  - destruct (Z.eqb_spec ((w / 8388608) mod 256) 255) as [E1|E1].
    + destruct (w mod 8388608 =? 0); reflexivity.
    + destruct (w mod 8388608 + 8388608) as [|m|m] eqn:F; try reflexivity.
      apply valid32_finite.
      assert (Hd : Zpos (digits2_pos m) <= 24).
      { apply digits2_pos_le; [lia|]. change (2 ^ 24) with 16777216. dlia. }
      assert (Hd' : 23 < Zpos (digits2_pos m)).
      { apply digits2_pos_gt. change (2 ^ 23) with 8388608. dlia. }
      dlia.
Qed.

Lemma bits_of_f32_range (y : spec_float) :
  valid_binary 24 128 y = true -> 0 <= bits_of_f32 y < 4294967296.
Proof.
  destruct y as [s|s| |s m e]; cbn [bits_of_f32]; unfold sign_bit;
    try (destruct s; lia); try lia.
  intros H. apply valid32_finite in H. destruct H as (Hc & He).
  pose proof (digits2_pos_bounds m) as (L & U).
  destruct (Z.ltb_spec (Zpos m) 8388608) as [Hm|Hm].
  - destruct s; lia.
  - assert (Hd' : 23 < Zpos (digits2_pos m))
      by (apply digits2_pos_gt; change (2 ^ 23) with 8388608; lia).
    assert (Hd : Zpos (digits2_pos m) = 24) by lia.
    rewrite Hd in U. change (2 ^ 24) with 16777216 in U.
    destruct s; lia.
Qed.

(** Encoding a valid single and decoding the bits gives it back. *)
Lemma f32_of_bits_of_f32 (y : spec_float) :
  valid_binary 24 128 y = true -> f32_of_bits (bits_of_f32 y) = y.
Proof.
  destruct y as [s|s| |s m e]; try (destruct s; reflexivity); try reflexivity.
  intros H. apply valid32_finite in H. destruct H as (Hc & He).
  pose proof (digits2_pos_bounds m) as (L & U).
  cbn [bits_of_f32]. unfold f32_of_bits, sign_bit.
  destruct (Z.ltb_spec (Zpos m) 8388608) as [Hm|Hm].
  - assert (Hd : Zpos (digits2_pos m) <= 23)
      by (apply digits2_pos_le; [lia | exact Hm]).
    assert (He' : e = -149) by lia. subst e.
    replace (((if s then 2147483648 else 0) + Zpos m) / 8388608 mod 256) with 0
      by (destruct s; dlia).
    replace (((if s then 2147483648 else 0) + Zpos m) mod 8388608) with (Zpos m)
      by (destruct s; dlia).
    cbn [Z.eqb]. f_equal. destruct s; [apply Z.leb_le | apply Z.leb_gt]; lia.
  - assert (Hd' : 23 < Zpos (digits2_pos m))
      by (apply digits2_pos_gt; change (2 ^ 23) with 8388608; lia).
    assert (Hd : Zpos (digits2_pos m) = 24) by lia.
    rewrite Hd in U. change (2 ^ 24) with 16777216 in U.
    set (w := (if s then 2147483648 else 0) + (e + 150) * 8388608 + (Zpos m - 8388608)).
    assert (E1 : (w / 8388608) mod 256 = e + 150) by (unfold w; destruct s; dlia).
    assert (E2 : w mod 8388608 = Zpos m - 8388608) by (unfold w; destruct s; dlia).
    rewrite E1, E2.
    replace (e + 150 =? 0) with false by (symmetry; apply Z.eqb_neq; lia).
    replace (e + 150 =? 255) with false by (symmetry; apply Z.eqb_neq; lia).
    replace (Zpos m - 8388608 + 8388608) with (Zpos m) by lia.
    replace (e + 150 - 150) with e by lia.
    f_equal. unfold w. destruct s; [apply Z.leb_le | apply Z.leb_gt]; lia.
Qed.

(** *** Rounding *)

Lemma iter_pos_eq {A} (f : A -> A) (p : positive) (x : A) :
  iter_pos f p x = Pos.iter f x p.
Proof.
  revert x. induction p as [p IH|p IH|]; intros x; cbn [iter_pos Pos.iter].
  - rewrite !IH, !Pos.iter_swap. reflexivity.
  - now rewrite !IH.
  - reflexivity.
Qed.

Lemma digits2_pos_shift (m p : positive) :
  digits2_pos (Pos.iter xO m p) = (digits2_pos m + p)%positive.
Proof.
  induction p as [|p IH] using Pos.peano_ind.
  - cbn. lia.
  - rewrite Pos.iter_succ. cbn [digits2_pos]. rewrite IH. lia.
Qed.

(** Shifting right what was shifted left loses nothing. *)
Lemma shr_shl_exact (p m : positive) :
  iter_pos shr_1 p (Build_shr_record (Zpos (Pos.iter xO m p)) false false)
  = Build_shr_record (Zpos m) false false.
Proof.
  rewrite iter_pos_eq. induction p as [|p IH] using Pos.peano_ind.
  - reflexivity.
  - rewrite !Pos.iter_succ, <- Pos.iter_swap. exact IH.
Qed.

Section Rounding.

Variables prec emax : Z.

Lemma shl_align_lt (m : positive) (e e' : Z) :
  e' < e -> shl_align m e e' = (Pos.iter xO m (Z.to_pos (e - e')), e').
Proof.
  intros H. unfold shl_align. destruct (e' - e) as [|d|d] eqn:E; try lia.
  do 2 f_equal. lia.
Qed.

Lemma shl_align_ge (m : positive) (e e' : Z) :
  e <= e' -> shl_align m e e' = (m, e).
Proof.
  intros H. unfold shl_align. destruct (e' - e) as [|d|d] eqn:E; try lia; reflexivity.
Qed.

(** A canonical significand goes through [binary_round_aux] unchanged. *)
Lemma binary_round_aux_canonical (s : bool) (m : positive) (e : Z) :
  fexp prec emax (Zpos (digits2_pos m) + e) = e -> e <= emax - prec ->
  binary_round_aux prec emax s (Zpos m) e loc_Exact = S754_finite s m e.
Proof.
  intros Hc He. unfold binary_round_aux, shr_fexp.
  cbn [Zdigits2 shr_record_of_loc]. rewrite Hc, Z.sub_diag.
  cbn [shr shr_m loc_of_shr_record round_nearest_even Zdigits2 shr_record_of_loc].
  rewrite Hc, Z.sub_diag. cbn [shr shr_m].
  now replace (e <=? emax - prec) with true by (symmetry; apply Z.leb_le; lia).
Qed.

(** A significand with [p] trailing zeros whose canonical exponent is [p]
    higher is shifted right exactly. *)
Lemma binary_round_aux_shr (s : bool) (m p : positive) (e : Z) :
  fexp prec emax (Zpos (digits2_pos m) + (e + Zpos p)) = e + Zpos p ->
  e + Zpos p <= emax - prec ->
  binary_round_aux prec emax s (Zpos (Pos.iter xO m p)) e loc_Exact
  = S754_finite s m (e + Zpos p).
Proof.
  intros Hc He. unfold binary_round_aux, shr_fexp.
  cbn [Zdigits2 shr_record_of_loc]. rewrite digits2_pos_shift, Pos2Z.inj_add.
  replace (Zpos (digits2_pos m) + Zpos p + e)
    with (Zpos (digits2_pos m) + (e + Zpos p)) by lia.
  rewrite Hc. replace (e + Zpos p - e) with (Zpos p) by lia.
  cbn [shr]. rewrite shr_shl_exact.
  cbn [shr_m loc_of_shr_record round_nearest_even Zdigits2 shr_record_of_loc].
  rewrite Hc, Z.sub_diag. cbn [shr shr_m].
  now replace (e + Zpos p <=? emax - prec) with true by (symmetry; apply Z.leb_le; lia).
Qed.

End Rounding.

(** Widening a valid single: the significand is shifted to 53 bits. *)
Lemma f64_of_f32_finite (s : bool) (m : positive) (e : Z) :
  valid_binary 24 128 (S754_finite s m e) = true ->
  f64_of_f32 (S754_finite s m e) =
  S754_finite s (Pos.iter xO m (Z.to_pos (53 - Zpos (digits2_pos m))))
              (Zpos (digits2_pos m) + e - 53).
Proof.
  intros H. apply valid32_finite in H. destruct H as (Hc & He).
  cbn [f64_of_f32]. unfold binary_round.
  assert (Hf : fexp 53 1024 (Zpos (digits2_pos m) + e) = Zpos (digits2_pos m) + e - 53).
  { unfold fexp, emin. lia. }
  rewrite Hf, shl_align_lt by lia.
  replace (e - (Zpos (digits2_pos m) + e - 53)) with (53 - Zpos (digits2_pos m)) by lia.
  apply binary_round_aux_canonical; [|lia].
  rewrite digits2_pos_shift, Pos2Z.inj_add, Z2Pos.id by lia.
  unfold fexp, emin. lia.
Qed.

(** Rounding to single precision the double of a valid single gives the
    single back. *)
Lemma f32_of_f64_of_f32 (y : spec_float) :
  valid_binary 24 128 y = true -> f32_of_f64 (f64_of_f32 y) = y.
Proof.
  destruct y as [s|s| |s m e]; try reflexivity.
  intros H. rewrite f64_of_f32_finite by exact H.
  apply valid32_finite in H. destruct H as (Hc & He).
  cbn [f32_of_f64]. unfold binary_round.
  set (p := Z.to_pos (53 - Zpos (digits2_pos m))).
  assert (Hp : Zpos p = 53 - Zpos (digits2_pos m)) by (unfold p; lia).
  assert (Hf : fexp 24 128 (Zpos (digits2_pos (Pos.iter xO m p))
                            + (Zpos (digits2_pos m) + e - 53)) = e).
  { rewrite digits2_pos_shift, Pos2Z.inj_add. unfold fexp, emin. lia. }
  rewrite Hf, shl_align_ge by lia.
  replace e with ((Zpos (digits2_pos m) + e - 53) + Zpos p) at 2 by lia.
  apply binary_round_aux_shr; [|lia].
  unfold fexp, emin. lia.
Qed.

(** *** The [f] field *)

Lemma pack_f_widen (y : spec_float) :
  valid_binary 24 128 y = true ->
  pack_f (f64_of_f32 y) = le_bytes 4 (bits_of_f32 y).
Proof. intros H. unfold pack_f. now rewrite (f32_of_f64_of_f32 y H). Qed.

Lemma unpack_f_bits (y : spec_float) :
  valid_binary 24 128 y = true ->
  unpack_f (le_bytes 4 (bits_of_f32 y)) = f64_of_f32 y.
Proof.
  intros H. unfold unpack_f. rewrite le_value_le_bytes.
  change (256 ^ Z.of_nat 4) with 4294967296.
  rewrite Z.mod_small by (apply bits_of_f32_range, H).
  now rewrite f32_of_bits_of_f32.
Qed.

(** The float read from any four bytes is stored again unchanged. *)
Lemma float_field_stored (b : bytes) :
  length b = 4%nat -> unpack_f (pack_f (unpack_f b)) = unpack_f b.
Proof.
  intros Hb. pose proof (le_value_range b) as Hr. rewrite Hb in Hr.
  change (256 ^ Z.of_nat 4) with 4294967296 in Hr.
  pose proof (f32_of_bits_valid (le_value b) Hr) as Hv.
  unfold unpack_f at 2 3. rewrite pack_f_widen by exact Hv.
  now apply unpack_f_bits.
Qed.

(** ** Rounding gives a valid float *)

Lemma shr_1_m (mrs : shr_record) :
  0 <= shr_m mrs -> shr_m (shr_1 mrs) = shr_m mrs / 2.
Proof.
  destruct mrs as [m r s]. cbn [shr_m]. intros Hm.
  destruct m as [|[p|p|]|p]; cbn [shr_1 shr_m]; try reflexivity; try lia.
  - rewrite Pos2Z.inj_xI. dlia.
  - rewrite Pos2Z.inj_xO. dlia.
Qed.

Lemma iter_shr_1_m (p : positive) (mrs : shr_record) :
  0 <= shr_m mrs ->
  shr_m (iter_pos shr_1 p mrs) = shr_m mrs / 2 ^ Zpos p.
Proof.
  intros Hm. rewrite iter_pos_eq.
  induction p as [|p IH] using Pos.peano_ind.
  - cbn [Pos.iter]. rewrite shr_1_m by exact Hm. reflexivity.
  - rewrite Pos.iter_succ, shr_1_m, IH.
    + rewrite Pos2Z.inj_succ, Z.pow_succ_r, Z.div_div by lia.
      f_equal. lia.
    + rewrite IH. apply Z.div_pos; [exact Hm | lia].
Qed.

Lemma shr_record_of_loc_m (m : Z) (l : location) :
  shr_m (shr_record_of_loc m l) = m.
Proof. destruct l as [|[]]; reflexivity. Qed.

Lemma round_nearest_even_bounds (m : Z) (l : location) :
  m <= round_nearest_even m l <= m + 1.
Proof.
  unfold round_nearest_even. destruct l as [|[]]; try lia.
  destruct (Z.even m); lia.
Qed.

Section RoundingValid.

Variables prec emax : Z.
Hypothesis Hprec : 0 < prec.

Lemma fexp_mono (x y : Z) : x <= y -> fexp prec emax x <= fexp prec emax y.
Proof. unfold fexp. lia. Qed.

(** What [shr_fexp] leaves of the significand, and the exponent it
    returns. *)
Lemma shr_fexp_m (m e : Z) (l : location) :
  0 <= m ->
  let k := fexp prec emax (Zdigits2 m + e) - e in
  shr_m (fst (shr_fexp prec emax m e l)) = (if 0 <? k then m / 2 ^ k else m)
  /\ snd (shr_fexp prec emax m e l) = (if 0 <? k then e + k else e).
Proof.
  intros Hm k. unfold shr_fexp. fold k.
  destruct k as [|p|p]; cbn [shr fst snd Z.ltb Z.compare].
  - split; [apply shr_record_of_loc_m | reflexivity].
  - split; [|reflexivity].
    rewrite iter_shr_1_m by (rewrite shr_record_of_loc_m; exact Hm).
    now rewrite shr_record_of_loc_m.
  - split; [apply shr_record_of_loc_m | reflexivity].
Qed.

(** Dividing by [2 ^ k] removes [k] digits. *)
Lemma digits_div_pow (m q : positive) (k : Z) :
  0 <= k -> Zpos m / 2 ^ k = Zpos q ->
  Zpos (digits2_pos q) = Zpos (digits2_pos m) - k.
Proof.
  intros Hk Hq.
  pose proof (digits2_pos_bounds m) as (Lm & Um).
  pose proof (digits2_pos_bounds q) as (Lq & Uq).
  assert (P : 0 < 2 ^ k) by (apply Z.pow_pos_nonneg; lia).
  assert (M1 : Zpos q * 2 ^ k <= Zpos m < (Zpos q + 1) * 2 ^ k).
  { rewrite <- Hq. pose proof (Z.div_mod (Zpos m) (2 ^ k)).
    pose proof (Z.mod_pos_bound (Zpos m) (2 ^ k) P). nia. }
  set (dm := Zpos (digits2_pos m)) in *. set (dq := Zpos (digits2_pos q)) in *.
  assert (A : dq - 1 + k < dm).
  { apply digits2_pos_gt. rewrite Z.pow_add_r by lia. nia. }
  assert (B : dm <= dq + k).
  { apply digits2_pos_le; [lia|]. rewrite Z.pow_add_r by lia. nia. }
  lia.
Qed.

(** The second normalisation of [binary_round_aux] returns zero or a
    canonical significand. *)
Lemma shr_fexp_exact_canonical (m1 e0 : Z) :
  0 <= m1 -> e0 <= fexp prec emax (Zdigits2 m1 + e0) ->
  shr_m (fst (shr_fexp prec emax m1 e0 loc_Exact)) = 0
  \/ exists p, shr_m (fst (shr_fexp prec emax m1 e0 loc_Exact)) = Zpos p
               /\ fexp prec emax (Zpos (digits2_pos p)
                                  + snd (shr_fexp prec emax m1 e0 loc_Exact))
                  = snd (shr_fexp prec emax m1 e0 loc_Exact).
Proof.
  intros Hm Hk.
  destruct (shr_fexp_m m1 e0 loc_Exact Hm) as (E1 & E2).
  rewrite E1, E2. clear E1 E2.
  set (k := fexp prec emax (Zdigits2 m1 + e0) - e0) in *.
  destruct (Z.ltb_spec 0 k) as [Hp|Hp].
  - destruct (m1 / 2 ^ k) as [|q|q] eqn:Q; [now left | | ].
    + right. exists q. split; [reflexivity|].
      destruct m1 as [|p1|p1]; [now rewrite Z.div_0_l in Q by lia | | lia].
      rewrite (digits_div_pow p1 q k) by (lia || exact Q).
      replace (Zpos (digits2_pos p1) - k + (e0 + k))
        with (Zpos (digits2_pos p1) + e0) by lia.
      unfold k. cbn [Zdigits2]. lia.
    + assert (0 <= m1 / 2 ^ k) by (apply Z.div_pos; [lia | apply Z.pow_pos_nonneg; lia]).
      lia.
  - destruct m1 as [|p1|p1]; [now left | | lia].
    right. exists p1. split; [reflexivity|].
    unfold k in Hp. cbn [Zdigits2] in Hp, Hk. lia.
Qed.

Lemma valid_finite_iff (s : bool) (m : positive) (e : Z) :
  valid_binary prec emax (S754_finite s m e) = true <->
  fexp prec emax (Zpos (digits2_pos m) + e) = e /\ e <= emax - prec.
Proof.
  cbn [valid_binary]. unfold bounded, canonical_mantissa.
  now rewrite andb_true_iff, Z.eqb_eq, Z.leb_le.
Qed.

(** [binary_round_aux], started on an exact significand, returns a valid
    float, never a NaN. *)
Lemma binary_round_aux_valid (s : bool) (m : positive) (e : Z) :
  e <= fexp prec emax (Zpos (digits2_pos m) + e) ->
  valid_binary prec emax (binary_round_aux prec emax s (Zpos m) e loc_Exact) = true
  /\ binary_round_aux prec emax s (Zpos m) e loc_Exact <> S754_nan.
Proof.
  intros He. unfold binary_round_aux.
  destruct (shr_fexp_m (Zpos m) e loc_Exact) as (E1 & E2); [lia|].
  destruct (shr_fexp prec emax (Zpos m) e loc_Exact) as [mrs' e'] eqn:S1.
  cbn [fst snd] in E1, E2. cbn [Zdigits2] in E1, E2.
  set (d := Zpos (digits2_pos m)) in *.
  set (k := fexp prec emax (d + e) - e) in *.
  set (m1 := round_nearest_even (shr_m mrs') (loc_of_shr_record mrs')).
  pose proof (round_nearest_even_bounds (shr_m mrs') (loc_of_shr_record mrs')) as B.
  fold m1 in B.
  pose proof (digits2_pos_bounds m) as (Lm & Um). fold d in Lm, Um.
  assert (Hq : 0 <= shr_m mrs' /\ e' = fexp prec emax (d + e)
               /\ ((shr_m mrs' = 0 /\ d + e <= e')
                   \/ (0 <= d + e - e' - 1
                       /\ 2 ^ (d + e - e' - 1) <= shr_m mrs'))).
  { destruct (Z.ltb_spec 0 k) as [Hk|Hk].
    - rewrite E1, E2. split; [apply Z.div_pos; [lia | apply Z.pow_pos_nonneg; lia]|].
      split; [unfold k; lia|].
      destruct (Z_lt_ge_dec k d) as [Hkd|Hkd].
      + right. replace (d + e - (e + k) - 1) with (d - 1 - k) by lia.
        split; [lia|]. rewrite Z.pow_sub_r by lia.
        apply Z.div_le_mono; [apply Z.pow_pos_nonneg; lia | exact Lm].
      + left. split; [|lia]. apply Z.div_small. split; [lia|].
        assert (2 ^ d <= 2 ^ k) by (apply Z.pow_le_mono_r; lia). lia.
    - rewrite E1, E2. split; [lia|]. split; [unfold k in Hk; lia|].
      right. replace (d + e - e - 1) with (d - 1) by lia.
      split; [pose proof (Pos2Z.is_pos (digits2_pos m)); unfold d; lia | exact Lm]. }
  destruct Hq as (Q0 & Q1 & Q2).
  assert (H1 : 0 <= m1) by lia.
  assert (H2 : e' <= fexp prec emax (Zdigits2 m1 + e')).
  { destruct Q2 as [(Q2 & Q3)|(Q3 & Q2)].
    - (* everything was shifted out: the exponent is the least one *)
      unfold fexp in *. lia.
    - assert (P : 0 < 2 ^ (d + e - e' - 1)) by (apply Z.pow_pos_nonneg; lia).
      destruct m1 as [|p1|p1] eqn:M1; [lia | | lia].
      cbn [Zdigits2].
      assert (d + e - e' - 1 < Zpos (digits2_pos p1))
        by (apply digits2_pos_gt; lia).
      rewrite Q1 at 1. apply fexp_mono. lia. }
  destruct (shr_fexp_exact_canonical m1 e' H1 H2) as [Z0|(p & Zp & Hc)].
  - destruct (shr_fexp prec emax m1 e' loc_Exact) as [mrs'' e''].
    cbn [fst] in Z0. rewrite Z0. split; [reflexivity | discriminate].
  - destruct (shr_fexp prec emax m1 e' loc_Exact) as [mrs'' e''].
    cbn [fst snd] in Zp, Hc. rewrite Zp.
    destruct (Z.leb_spec e'' (emax - prec));
      [|split; [reflexivity | discriminate]].
    split; [|discriminate]. apply valid_finite_iff. split; assumption.
Qed.

(** Rounding returns a valid float, never a NaN, whatever the significand
    and the exponent. *)
Lemma binary_round_good (s : bool) (m : positive) (e : Z) :
  valid_binary prec emax (binary_round prec emax s m e) = true
  /\ binary_round prec emax s m e <> S754_nan.
Proof.
  unfold binary_round.
  set (e0 := fexp prec emax (Zpos (digits2_pos m) + e)).
  destruct (Z_lt_ge_dec e0 e) as [H|H].
  - rewrite shl_align_lt by exact H.
    apply binary_round_aux_valid.
    rewrite digits2_pos_shift, Pos2Z.inj_add, Z2Pos.id by lia.
    replace (Zpos (digits2_pos m) + (e - e0) + e0)
      with (Zpos (digits2_pos m) + e) by lia.
    fold e0. lia.
  - rewrite shl_align_ge by lia.
    apply binary_round_aux_valid. fold e0. lia.
Qed.

Lemma binary_round_valid (s : bool) (m : positive) (e : Z) :
  valid_binary prec emax (binary_round prec emax s m e) = true.
Proof. apply binary_round_good. Qed.

End RoundingValid.

(** *** Storing any double *)

Lemma f32_of_f64_valid (x : float) : valid_binary 24 128 (f32_of_f64 x) = true.
Proof.
  destruct x as [s|s| |s m e]; try reflexivity.
  apply binary_round_valid. lia.
Qed.

(** What is read back from the stored price: the double nearest-rounded to
    single precision. *)
Lemma unpack_pack_f (x : float) : unpack_f (pack_f x) = f64_of_f32 (f32_of_f64 x).
Proof. unfold pack_f. apply unpack_f_bits, f32_of_f64_valid. Qed.

(** Only a NaN is stored as a NaN. *)
Lemma unpack_pack_f_nan (x : float) :
  unpack_f (pack_f x) = S754_nan <-> x = S754_nan.
Proof.
  rewrite unpack_pack_f. split; [|now intros ->].
  destruct x as [s|s| |s m e]; try discriminate; [reflexivity|].
  cbn [f32_of_f64]. intros H.
  destruct (binary_round_good 24 128 ltac:(lia) s m e) as (_ & Hn).
  destruct (binary_round 24 128 s m e) as [s'|s'| |s' m' e'];
    try discriminate; [contradiction|].
  cbn [f64_of_f32] in H.
  now destruct (binary_round_good 53 1024 ltac:(lia) s' m' e') as (_ & Hn').
Qed.


(** ** Records *)

Lemma encode_cp_encodable (c : Z) :
  (0 <= c < 55296 \/ 57344 <= c < 1114112) <-> exists bs, encode_cp c = Returned bs.
Proof.
  split.
  - intros H. unfold encode_cp. settle; eauto.
  - intros (bs & H). unfold encode_cp in H.
    destruct (Z.ltb_spec c 0); [discriminate|].
    destruct (Z.ltb_spec c 128); [lia|].
    destruct (Z.ltb_spec c 2048); [lia|].
    destruct (Z.leb_spec 55296 c); destruct (Z.leb_spec c 57343);
      cbn [andb] in H; try discriminate; try lia.
    destruct (Z.ltb_spec c 65536); [lia|].
    destruct (Z.ltb_spec c 1114112); [lia|discriminate].
Qed.

Lemma encode_utf8_encodable (s : str) :
  encodable s <-> exists bs, encode_utf8 s = Returned bs.
Proof.
  unfold encodable. induction s as [|c s IH]; cbn [encode_utf8].
  - split; [eauto | constructor].
  - rewrite Forall_cons_iff, IH, encode_cp_encodable. split.
    + intros ((bc & ->) & (bs & ->)). cbn [bind]. eauto.
    + intros (b & H). repeat bind_inv H. eauto.
Qed.

Lemma pack_i_range (n : Z) :
  -2147483648 <= n <= 2147483647 <-> exists b, pack_i n = Returned b.
Proof.
  unfold pack_i. split.
  - intros H. replace ((_ <=? _) && (_ <=? _)) with true; [eauto|].
    symmetry. apply andb_true_iff. split; apply Z.leb_le; lia.
  - intros (b & H). destruct (_ && _) eqn:E; [|discriminate].
    apply andb_true_iff in E. destruct E as (E1 & E2).
    apply Z.leb_le in E1, E2. lia.
Qed.

(** A finite double beyond the range of a single is stored as an
    infinity, and read back as that infinity. *)
Lemma overflow_stored (x : float) :
  overflows x = true -> exists s, unpack_f (pack_f x) = S754_infinity s.
Proof.
  unfold overflows. destruct x as [s|s| |s m e]; try discriminate.
  destruct (f32_of_f64 (S754_finite s m e)) as [s'|s'| |s' m' e'] eqn:E;
    try discriminate.
  intros _. exists s'. unfold pack_f. rewrite E.
  now rewrite (unpack_f_bits (S754_infinity s')).
Qed.

(** The four fields of a block. *)
Lemma record_of_block (F ib fb G : bytes) :
  length F = 20%nat -> length ib = 4%nat -> length fb = 4%nat ->
  record_of (F ++ ib ++ fb ++ G) =
  mkRecord (rstrip0 (decode_utf8_ignore F)) (unpack_i ib) (unpack_f fb)
           (rstrip0 (decode_utf8_ignore (firstn 15 G))).
Proof.
  intros HF Hi Hf. unfold record_of.
  change 28%nat with (4 + (4 + 20))%nat. change 24%nat with (4 + 20)%nat.
  rewrite <- !skipn_skipn, !(skipn_exact F _ 20 HF).
  rewrite !(skipn_exact ib _ 4 Hi), (skipn_exact fb _ 4 Hf).
  now rewrite !firstn_exact by assumption.
Qed.

(** What [pack_record] returns, when it returns. *)
Lemma pack_record_inv (r : record) (b : bytes) :
  pack_record r = Returned b ->
  exists nb cb ib,
    encode_utf8 (name r) = Returned nb /\ encode_utf8 (category r) = Returned cb
    /\ pack_i (count r) = Returned ib
    /\ b = ljust 20 (firstn 20 nb) ++ ib ++ pack_f (price r)
           ++ ljust 15 (firstn 15 cb).
Proof.
  unfold pack_record. intros H. repeat bind_inv H. apply Returned_inj in H.
  eauto 10.
Qed.

Lemma record_of_packed (nb cb ib fb : bytes) :
  length ib = 4%nat -> length fb = 4%nat ->
  record_of (ljust 20 (firstn 20 nb) ++ ib ++ fb ++ ljust 15 (firstn 15 cb)) =
  mkRecord (rstrip0 (decode_utf8_ignore (ljust 20 (firstn 20 nb))))
           (unpack_i ib) (unpack_f fb)
           (rstrip0 (decode_utf8_ignore (ljust 15 (firstn 15 cb)))).
Proof.
  intros Hi Hf. rewrite record_of_block;
    [ | apply ljust_firstn_length | assumption | assumption ].
  now rewrite (firstn_all2 (ljust 15 _)) by (rewrite ljust_firstn_length; lia).
Qed.

(** The records that [pack_record] accepts. *)
Lemma pack_record_accepts (r : record) :
  (encodable (name r) /\ encodable (category r)
   /\ -2147483648 <= count r <= 2147483647)
  <-> exists b, pack_record r = Returned b.
Proof.
  split.
  - intros (Hn & Hc & Hi).
    apply encode_utf8_encodable in Hn, Hc. destruct Hn as (nb & Hn), Hc as (cb & Hc).
    apply pack_i_range in Hi. destruct Hi as (ib & Hi).
    eexists. unfold pack_record. rewrite Hn, Hc, Hi. reflexivity.
  - intros (b & Hr).
    destruct (pack_record_inv r b Hr) as (nb & cb & ib & Hn & Hc & Hi & _).
    split; [apply encode_utf8_encodable; eauto|].
    split; [apply encode_utf8_encodable; eauto|].
    apply pack_i_range; eauto.
Qed.

(** C7 (as amended).  [pack_record] returns exactly when the two text fields
    are encodable and [count] is in the range of a signed 32-bit integer,
    whatever the price; what it returns has [RECORD_SIZE] = 43 bytes, the name
    in the first 20 and the category in the last 15, each the UTF-8 encoding
    cut to the width of the field and padded with zero bytes, and the price in
    bytes 24 to 27, a finite price beyond the range of a single being stored
    as an infinity. *)
Theorem pack_record_returns (r : record) :
  (encodable (name r) /\ encodable (category r)
   /\ -2147483648 <= count r <= 2147483647)
  <->
  (exists b nb cb,
     pack_record r = Returned b /\ length b = 43%nat /\ RECORD_SIZE = 43
     /\ encode_utf8 (name r) = Returned nb
     /\ encode_utf8 (category r) = Returned cb
     /\ firstn 20 b = ljust 20 (firstn 20 nb)
     /\ skipn 28 b = ljust 15 (firstn 15 cb)
     /\ firstn 4 (skipn 24 b) = pack_f (price r)
     /\ (overflows (price r) = true ->
         exists s, unpack_f (firstn 4 (skipn 24 b)) = S754_infinity s)).
Proof.
  split.
  - intros (Hn & Hc & Hi).
    apply encode_utf8_encodable in Hn, Hc. destruct Hn as (nb & Hn), Hc as (cb & Hc).
    apply pack_i_range in Hi. destruct Hi as (ib & Hi).
    assert (Hr : pack_record r =
                 Returned (ljust 20 (firstn 20 nb) ++ ib ++ pack_f (price r)
                           ++ ljust 15 (firstn 15 cb))).
    { unfold pack_record. now rewrite Hn, Hc, Hi. }
    exists (ljust 20 (firstn 20 nb) ++ ib ++ pack_f (price r)
            ++ ljust 15 (firstn 15 cb)), nb, cb.
    split; [exact Hr|]. split; [exact (pack_record_length r _ Hr)|].
    split; [reflexivity|]. split; [exact Hn|]. split; [exact Hc|].
    pose proof (pack_i_length _ _ Hi) as Li.
    pose proof (pack_f_length (price r)) as Lf.
    assert (E24 : skipn 24
                    (ljust 20 (firstn 20 nb) ++ ib ++ pack_f (price r)
                     ++ ljust 15 (firstn 15 cb))
                  = pack_f (price r) ++ ljust 15 (firstn 15 cb)).
    { change 24%nat with (4 + 20)%nat.
      rewrite <- !skipn_skipn, (skipn_exact _ _ 20 (ljust_firstn_length 20 nb)).
      now rewrite (skipn_exact ib _ 4 Li). }
    split; [now rewrite firstn_exact by apply ljust_firstn_length|].
    split.
    { change 28%nat with (4 + 24)%nat. rewrite <- skipn_skipn, E24.
      now rewrite (skipn_exact _ _ 4 Lf). }
    rewrite E24, (firstn_exact _ _ 4 Lf).
    split; [reflexivity | apply overflow_stored].
  - intros (b & nb & cb & Hr & _).
    destruct (pack_record_inv r b Hr) as (nb' & cb' & ib & Hn & Hc & Hi & _).
    split; [apply encode_utf8_encodable; eauto|].
    split; [apply encode_utf8_encodable; eauto|].
    apply pack_i_range; eauto.
Qed.

Lemma str_eqb_refl (s : str) : str_eqb s s = true.
Proof. unfold str_eqb. destruct (list_eq_dec Z.eq_dec s s); congruence. Qed.

Lemma SFeqb_refl (x : float) : x <> S754_nan -> SFeqb x x = true.
Proof.
  unfold SFeqb. destruct x as [s|s| |s m e]; cbn [SFcompare]; try reflexivity.
  - now destruct s.
  - contradiction.
  - intros _. rewrite Z.compare_refl.
    assert (E : Pos.compare_cont Eq m m = Eq) by apply Pos.compare_cont_refl.
    rewrite E. now destruct s.
Qed.

(** A record compares equal to itself under [==] unless its price is a
    NaN. *)
Lemma record_eqb_refl (r : record) :
  price r <> S754_nan -> record_eqb r r = true.
Proof.
  intros H. unfold record_eqb.
  now rewrite !str_eqb_refl, Z.eqb_refl, SFeqb_refl.
Qed.

Lemma record_eqb_nan (a b : record) :
  price a = S754_nan -> record_eqb a b = false.
Proof.
  intros H. unfold record_eqb. rewrite H. cbn [SFeqb SFcompare].
  now rewrite andb_false_r.
Qed.

(** C3 (as amended).  A record whose name and category encode to at most
    20 and 15 bytes and do not end with a NUL character, whose count is in
    the range of a signed 32-bit integer and whose price is the value of a
    single, is packed, and unpacking the block gives back its name, its count
    and its category.  When the price is not a NaN it is given back too, and
    the record read compares equal to the original under [==]; when the price
    is a NaN the price read is a NaN, and the two records do not compare
    equal. *)
Theorem unpack_pack_record (r : record) (nb cb : bytes) :
  encode_utf8 (name r) = Returned nb -> (length nb <= 20)%nat ->
  encode_utf8 (category r) = Returned cb -> (length cb <= 15)%nat ->
  last (name r) 1 <> 0 -> last (category r) 1 <> 0 ->
  -2147483648 <= count r <= 2147483647 ->
  single (price r) ->
  exists b r',
    pack_record r = Returned b /\ unpack_record b = Returned r'
    /\ name r' = name r /\ count r' = count r /\ category r' = category r
    /\ (price r <> S754_nan ->
        price r' = price r /\ record_eqb r' r = true)
    /\ (price r = S754_nan ->
        price r' = S754_nan /\ record_eqb r' r = false).
Proof.
  intros Hn Ln Hc Lc Zn Zc Hi (y & Hy & Hp).
  apply pack_i_range in Hi. destruct Hi as (ib & Hi).
  pose proof (pack_f_widen y Hy) as Hf. rewrite <- Hp in Hf.
  pose proof (pack_i_length _ _ Hi) as Li.
  pose proof (pack_f_length (price r)) as Lf.
  assert (Hr : pack_record r =
               Returned (ljust 20 (firstn 20 nb) ++ ib ++ pack_f (price r)
                         ++ ljust 15 (firstn 15 cb))).
  { unfold pack_record. now rewrite Hn, Hc, Hi. }
  assert (Hu : unpack_record
                 (ljust 20 (firstn 20 nb) ++ ib ++ pack_f (price r)
                  ++ ljust 15 (firstn 15 cb)) = Returned r).
  { rewrite unpack_record_sized by exact (pack_record_length r _ Hr).
    f_equal. rewrite record_of_packed by assumption.
    rewrite (text_field_fits 20 (name r) nb Hn Ln), (rstrip0_fixed _ Zn).
    rewrite (text_field_fits 15 (category r) cb Hc Lc), (rstrip0_fixed _ Zc).
    rewrite (unpack_pack_i _ _ Hi), Hf, (unpack_f_bits y Hy), <- Hp.
    now destruct r. }
  exists (ljust 20 (firstn 20 nb) ++ ib ++ pack_f (price r)
          ++ ljust 15 (firstn 15 cb)), r.
  split; [exact Hr|]. split; [exact Hu|].
  split; [reflexivity|]. split; [reflexivity|]. split; [reflexivity|].
  split.
  - intros Hnan. split; [reflexivity | now apply record_eqb_refl].
  - intros Hnan. split; [exact Hnan | now apply record_eqb_nan].
Qed.

Lemma ljust_firstn_zeros (n : nat) (a : bytes) (k : nat) :
  ljust n (firstn n (a ++ repeat x00 k)) = ljust n (firstn n a).
Proof.
  unfold ljust. rewrite firstn_app.
  destruct (Nat.le_gt_cases n (length a)) as [H|H].
  - replace (n - length a)%nat with 0%nat by lia.
    now rewrite firstn_0, app_nil_r.
  - rewrite (firstn_all2 a) by lia.
    assert (E : firstn (n - length a) (repeat x00 k)
                = repeat x00 (Nat.min (n - length a) k)).
    { generalize (n - length a)%nat. intros j. revert j.
      induction k as [|k IH]; intros [|j]; cbn; try reflexivity.
      now rewrite IH. }
    rewrite E, <- app_assoc, <- repeat_app. f_equal. f_equal.
    rewrite length_app, repeat_length. lia.
Qed.

(** What is read from the block of a record that [pack_record] accepts, and
    what is read again when that record is packed in its turn. *)
Lemma stored_form (r : record) (b : bytes) :
  pack_record r = Returned b ->
  exists r1 b1,
    unpack_record b = Returned r1
    /\ last (name r1) 1 <> 0 /\ last (category r1) 1 <> 0
    /\ price r1 = unpack_f (pack_f (price r))
    /\ pack_record r1 = Returned b1 /\ unpack_record b1 = Returned r1.
Proof.
  intros Hr. pose proof (pack_record_length r b Hr) as Hb.
  destruct (pack_record_inv r b Hr) as (nb & cb & ib & Hn & Hc & Hi & ->).
  pose proof (pack_i_length _ _ Hi) as Li.
  pose proof (pack_f_length (price r)) as Lf.
  destruct (text_field_stored 20 (ljust 20 (firstn 20 nb))) as (e1 & E1 & L1 & T1);
    [rewrite ljust_firstn_length; lia|].
  destruct (text_field_stored 15 (ljust 15 (firstn 15 cb))) as (e2 & E2 & L2 & T2);
    [rewrite ljust_firstn_length; lia|].
  pose proof (float_field_stored _ Lf) as F2.
  set (r1 := mkRecord (rstrip0 (decode_utf8_ignore (ljust 20 (firstn 20 nb))))
               (unpack_i ib) (unpack_f (pack_f (price r)))
               (rstrip0 (decode_utf8_ignore (ljust 15 (firstn 15 cb))))).
  assert (Hr1 : pack_record r1
                = Returned (ljust 20 (firstn 20 e1) ++ ib
                            ++ pack_f (unpack_f (pack_f (price r)))
                            ++ ljust 15 (firstn 15 e2))).
  { unfold pack_record, r1. cbn [name count price category].
    now rewrite E1, E2, (pack_unpack_i ib Li). }
  exists r1, (ljust 20 (firstn 20 e1) ++ ib
              ++ pack_f (unpack_f (pack_f (price r)))
              ++ ljust 15 (firstn 15 e2)).
  split.
  { rewrite unpack_record_sized by exact Hb. f_equal.
    now rewrite record_of_packed by assumption. }
  split; [apply rstrip0_last|]. split; [apply rstrip0_last|].
  split; [reflexivity|]. split; [exact Hr1|].
  rewrite unpack_record_sized by exact (pack_record_length _ _ Hr1).
  f_equal. rewrite record_of_packed by (assumption || apply pack_f_length).
  unfold r1. now rewrite T1, T2, F2.
Qed.

(** C10 (as amended).  A record that differs from [r] by NUL characters
    added at the end of its name and of its category is packed exactly as
    [r] is.  [pack_record] accepts [r] exactly when its texts are encodable
    and its count is in the 32-bit range; for every other record it raises.
    When it accepts [r], the block has 43 bytes; the name and the category
    read from it do not end with a NUL character; the record read from it is
    accepted in its turn, and the record read from that second block has the
    same name, count and category.  When the price of [r] is not a NaN the
    price is the same too and the two records read compare equal under [==];
    when it is a NaN both prices read are NaN and the two records do not
    compare equal. *)
Theorem stored_record_stable (r : record) :
  (forall j k : nat,
      pack_record (mkRecord (name r ++ repeat 0 j) (count r) (price r)
                            (category r ++ repeat 0 k))
      = pack_record r)
  /\ (encodable (name r) /\ encodable (category r)
      /\ -2147483648 <= count r <= 2147483647 ->
      exists b r1 b1 r2,
        pack_record r = Returned b /\ length b = 43%nat
        /\ unpack_record b = Returned r1
        /\ last (name r1) 1 <> 0 /\ last (category r1) 1 <> 0
        /\ pack_record r1 = Returned b1 /\ unpack_record b1 = Returned r2
        /\ name r2 = name r1 /\ count r2 = count r1
        /\ category r2 = category r1
        /\ (price r <> S754_nan ->
            price r2 = price r1 /\ record_eqb r2 r1 = true)
        /\ (price r = S754_nan ->
            price r1 = S754_nan /\ price r2 = S754_nan
            /\ record_eqb r2 r1 = false))
  /\ (~ (encodable (name r) /\ encodable (category r)
         /\ -2147483648 <= count r <= 2147483647) ->
      exists e, pack_record r = Raised e).
Proof.
  split; [|split].
  - intros j k. unfold pack_record. cbn [name count price category].
    rewrite !encode_app, !encode_zeros.
    destruct (encode_utf8 (name r)) as [nb|e]; cbn [bind]; [|reflexivity].
    destruct (encode_utf8 (category r)) as [cb|e]; cbn [bind]; [|reflexivity].
    now rewrite !ljust_firstn_zeros.
  - intros H. apply pack_record_accepts in H. destruct H as (b & Hr).
    pose proof (pack_record_length r b Hr) as Hb. unfold sized in Hb.
    rewrite RS_eq in Hb.
    destruct (stored_form r b Hr) as (r1 & b1 & U1 & Z1 & Z2 & P1 & Hr1 & U2).
    exists b, r1, b1, r1.
    split; [exact Hr|]. split; [exact Hb|]. split; [exact U1|].
    split; [exact Z1|]. split; [exact Z2|]. split; [exact Hr1|].
    split; [exact U2|]. split; [reflexivity|]. split; [reflexivity|].
    split; [reflexivity|]. split.
    + intros Hn. split; [reflexivity|]. apply record_eqb_refl.
      rewrite P1. intros E. now apply (proj1 (unpack_pack_f_nan (price r))) in E.
    + intros Hn. assert (E : price r1 = S754_nan)
        by (rewrite P1; now apply (proj2 (unpack_pack_f_nan (price r)))).
      split; [exact E|]. split; [exact E|]. now apply record_eqb_nan.
  - intros H. destruct (pack_record r) as [b|e] eqn:Hr; [|eauto].
    exfalso. apply H. apply pack_record_accepts. eauto.
Qed.


(** ** Checks of the model on concrete input *)

Example range_down : py_range 4 1 (-1) = [4; 3; 2].
Proof. reflexivity. Qed.

Example range_up : py_range 2 5 1 = [2; 3; 4].
Proof. reflexivity. Qed.

Example range_empty : py_range 1 2 (-1) = [].
Proof. reflexivity. Qed.

(** 3.5, 0.1 and 89999.99 as doubles; 1e23 is a tie-free rounding down. *)
Example decimal_3_5 :
  float_of_decimal false 35 (-1) = S754_finite false 7881299347898368 (-51).
Proof. vm_compute. reflexivity. Qed.

Example decimal_0_1 :
  float_of_decimal false 1 (-1) = S754_finite false 7205759403792794 (-56).
Proof. vm_compute. reflexivity. Qed.

Example decimal_89999_99 :
  float_of_decimal false 8999999 (-2) = S754_finite false 6184752219045233 (-36).
Proof. vm_compute. reflexivity. Qed.

(** 3.5 is stored as the four bytes 00 00 60 40; 89999.99 is rounded to the
    single 0x47AFC7FF. *)
Example pack_f_3_5 :
  pack_f (float_of_decimal false 35 (-1)) = [x00; x00; x60; x40].
Proof. vm_compute. reflexivity. Qed.

Example pack_f_89999_99 :
  pack_f (float_of_decimal false 8999999 (-2)) = [xff; xc7; xaf; x47].
Proof. vm_compute. reflexivity. Qed.

Example unpack_f_89999_99 :
  unpack_f [xff; xc7; xaf; x47] <> float_of_decimal false 8999999 (-2).
Proof. vm_compute. discriminate. Qed.

Example pack_i_minus_2 : pack_i (-2) = Returned [xfe; xff; xff; xff].
Proof. reflexivity. Qed.

(** The euro sign, a sequence cut by an ASCII byte, an emoji, an encoded
    surrogate and a lead byte at the end of the input. *)
Example decode_ignore_sample :
  decode_utf8_ignore
    [xe2; x82; xac; xe2; x82; x41; xf0; x9f; x98; x80; xed; xa0; x80; xc3]
  = [8364; 65; 128512].
Proof. vm_compute. reflexivity. Qed.

Example strip_sample : strip [32; 9; 62; 53; 32; 10] = [62; 53].
Proof. reflexivity. Qed.

Example int_of_str_sample : int_of_str [32; 45; 49; 95; 48; 32] = Some (-10).
Proof. reflexivity. Qed.

Example int_of_str_exponent : int_of_str [49; 101; 53] = None.
Proof. reflexivity. Qed.

(** The three records of [generate_record], written and read back: the
    price of the third is the single nearest to 89999.99. *)
Example init_then_print :
  exists c,
    init_db_binary None = Some (Returned ([Initialized 3], Some c))
    /\ length c = 129%nat
    /\ print_db_from_file (Some c)
       = Some (Returned
                 [DbHeader;
                  Row 1 (mkRecord [1103; 1073; 1083; 1086; 1082; 1086] 10
                           (float_of_decimal false 35 (-1))
                           [1092; 1088; 1091; 1082; 1090]);
                  Row 2 (mkRecord [1082; 1085; 1080; 1075; 1072] 2
                           (float_of_decimal false 7990 (-1))
                           [1090; 1086; 1074; 1072; 1088]);
                  Row 3 (mkRecord [1085; 1086; 1091; 1090; 1073; 1091; 1082] 1
                           (unpack_f [xff; xc7; xaf; x47])
                           [1090; 1077; 1093; 1085; 1080; 1082; 1072])]).
Proof.
  eexists. split; [vm_compute; reflexivity|].
  split; vm_compute; reflexivity.
Qed.

(** * The end-to-end scenario and concrete instances *)

Lemma two_record_db_init :
  init_db_with two_records 3 None
  = Some (Returned ([Initialized 2], Some two_record_db)).
Proof. vm_compute. reflexivity. Qed.

Lemma two_record_db_blocks :
  two_record_db = concat [block_of apple; block_of book].
Proof. vm_compute. reflexivity. Qed.

(** C8 (as amended).  On the store that initialisation writes for the two
    records [apple] and [book]: the search for [count] equal to ["2"] prints
    row 2 only; the condition [">5"] (no [.], so [count]) prints row 1 only;
    the condition [">5.0"] (a [.], so [price]) prints row 2 only, the price
    3.5 of row 1 not being greater than 5.0. *)
Theorem two_record_scenario :
  init_db_with two_records 3 None
  = Some (Returned ([Initialized 2], Some two_record_db))
  /\ print_db_from_file (Some two_record_db)
     = Some (Returned [DbHeader; Row 1 apple; Row 2 book])
  /\ one_field_search int_of_str float_of_str (Some two_record_db) (AInt 2) [50]
     = Some (Returned [Row 2 book])
  /\ digit_search int_of_str float_of_str (Some two_record_db) [62; 53]
     = Some (Returned [Row 1 apple])
  /\ digit_search int_of_str float_of_str (Some two_record_db) [62; 53; 46; 48]
     = Some (Returned [Row 2 book]).
Proof. repeat split; vm_compute; reflexivity. Qed.

(** The third query of the scenario does not print both rows. *)
Lemma scenario_price_query_one_row :
  digit_search int_of_str float_of_str (Some two_record_db) [62; 53; 46; 48]
  <> Some (Returned [Row 1 apple; Row 2 book]).
Proof. vm_compute. discriminate. Qed.

(** Inserting a record whose name is too long stores the truncated name,
    and a scan does not print the record that was given; inserting a record
    that [pack_record] refuses raises. *)
Lemma insert_scan_stored_form :
  exists c' : bytes,
    insert_record_at (Some []) 1 long_name_record
    = Returned ([Appended], Some c')
    /\ length c' = 43%nat
    /\ print_db_from_file (Some c')
       = Some (Returned [DbHeader;
                         Row 1 (mkRecord (repeat 97 20) 1 (S754_zero false) [])])
    /\ print_db_from_file (Some c')
       <> Some (Returned [DbHeader; Row 1 long_name_record])
    /\ insert_record_at (Some []) 1 big_count_record = Raised StructError.
Proof.
  exists (block_of long_name_record).
  repeat split; try (vm_compute; reflexivity).
  vm_compute. discriminate.
Qed.

(** A name that fits its field and ends with a NUL character is not read
    back; a record whose price is a NaN is read back with a NaN, and does
    not compare equal to itself. *)
Lemma nul_name_not_read_back :
  encode_utf8 (name nul_name_record) = Returned [x61; x00]
  /\ encode_utf8 (category nul_name_record) = Returned []
  /\ -2147483648 <= count nul_name_record <= 2147483647
  /\ single (price nul_name_record)
  /\ (exists b, pack_record nul_name_record = Returned b
                /\ unpack_record b
                   = Returned (mkRecord [97] 1 (S754_zero false) [])
                /\ unpack_record b <> Returned nul_name_record)
  /\ single S754_nan
  /\ exists b r', pack_record (mkRecord [97] 1 S754_nan []) = Returned b
                  /\ unpack_record b = Returned r'
                  /\ record_eqb r' (mkRecord [97] 1 S754_nan []) = false.
Proof.
  split; [reflexivity|]. split; [reflexivity|]. split; [cbn; lia|].
  split; [exists (S754_zero false); split; reflexivity|].
  split.
  { exists (block_of nul_name_record).
    repeat split; try (vm_compute; reflexivity).
    vm_compute. discriminate. }
  split; [exists S754_nan; split; reflexivity|].
  do 2 eexists. split; [vm_compute; reflexivity|].
  split; vm_compute; reflexivity.
Qed.

(** On a file of one byte, position 0 is refused as a position, not for the
    size of the file. *)
Lemma truncated_file_position_first :
  length [x01] = (0 * RS + 1)%nat
  /\ insert_record_at (Some [x01]) 0 apple = Returned ([BadPosition], Some [x01])
  /\ insert_record_at (Some [x01]) 0 apple <> Returned ([InsertBadSize], Some [x01])
  /\ delete_record (Some [x01]) 0 = ([BadPosition], Some [x01])
  /\ delete_record (Some [x01]) 0 <> ([DeleteBadSize], Some [x01]).
Proof. repeat split; try reflexivity; vm_compute; discriminate. Qed.

(** On the empty store, deletion at position 0 is refused as a position,
    and appending a record that [pack_record] refuses raises. *)
Lemma empty_store_boundaries :
  delete_record (Some []) 0 = ([BadPosition], Some [])
  /\ delete_record (Some []) 0 <> ([EmptyDb], Some [])
  /\ insert_record_at (Some []) (0 + 1) big_count_record = Raised StructError.
Proof. repeat split; try reflexivity; vm_compute; discriminate. Qed.

(** [pack_record] raises on a count of [2 ^ 31] and on a lone surrogate; a
    price of [1e39] is stored as the single infinity, bytes 00 00 80 7f. *)
Lemma pack_record_raises :
  pack_record big_count_record = Raised StructError
  /\ pack_record (mkRecord [55296] 0 (S754_zero false) []) = Raised UnicodeEncodeError
  /\ pack_record (mkRecord [] 0 (float_of_decimal false 1 39) [])
     = Returned (repeat x00 24 ++ [x00; x00; x80; x7f] ++ repeat x00 15)
  /\ unpack_record (repeat x00 24 ++ [x00; x00; x80; x7f] ++ repeat x00 15)
     = Returned (mkRecord [] 0 (S754_infinity false) []).
Proof. repeat split; vm_compute; reflexivity. Qed.

(** A condition that starts with a space: its first character is not an
    operator, and the search is made all the same; a condition made of an
    operator alone is refused for its missing number. *)
Lemma leading_space_condition :
  ~ is_operator 32
  /\ digit_search int_of_str float_of_str (Some two_record_db) [32; 62; 53]
     = Some (Returned [Row 1 apple])
  /\ digit_search int_of_str float_of_str (Some two_record_db) [32; 62; 53]
     <> Some (Returned [BadOperator])
  /\ digit_search int_of_str float_of_str (Some two_record_db) [62]
     = Some (Returned [NoNumber]).
Proof.
  split; [intros [H|[H|H]]; discriminate|].
  repeat split; try (vm_compute; reflexivity).
  vm_compute. discriminate.
Qed.

(** A record whose price is a NaN: what is read from its block does not
    compare equal to what is read when that record is packed again; and a
    record with a count of [2 ^ 31] has no block. *)
Lemma stored_form_nan :
  (exists b r1 b1 r2,
      pack_record (mkRecord [97] 1 S754_nan []) = Returned b
      /\ unpack_record b = Returned r1
      /\ pack_record r1 = Returned b1
      /\ unpack_record b1 = Returned r2
      /\ record_eqb r2 r1 = false)
  /\ pack_record big_count_record = Raised StructError.
Proof.
  split; [|vm_compute; reflexivity].
  do 4 eexists. split; [vm_compute; reflexivity|].
  split; [vm_compute; reflexivity|]. split; [vm_compute; reflexivity|].
  split; vm_compute; reflexivity.
Qed.

(** On a file of one byte, a query that is refused is reported as such, not
    the size of the file; likewise on the empty file. *)
Lemma refused_query_first :
  getsize [x01] mod RECORD_SIZE <> 0
  /\ two_fields_search int_of_str float_of_str (Some [x01]) (AInt 1) [] (AInt 1) []
     = Some (Returned [FieldsMustDiffer])
  /\ digit_search int_of_str float_of_str (Some [x01]) [33; 53]
     = Some (Returned [BadOperator])
  /\ two_fields_search int_of_str float_of_str (Some []) (AInt 1) [] (AInt 1) []
     = Some (Returned [FieldsMustDiffer])
  /\ digit_search int_of_str float_of_str (Some []) [33; 53]
     = Some (Returned [BadOperator]).
Proof. repeat split; try reflexivity. vm_compute. discriminate. Qed.

(** ** Instances *)

(** Insertion of [apple] at position 2 of the two-record store. *)
Lemma insert_then_scan_witness :
  length two_record_db = (2 * RS)%nat
  /\ 1 <= 2 <= Z.of_nat 2 + 1
  /\ pack_record apple = Returned (block_of apple)
  /\ exists (c' : bytes) (rs rs' : list record) (r' : record),
       insert_record_at (Some two_record_db) 2 apple =
         Returned ([if 2 =? Z.of_nat 2 + 1 then Appended else Inserted 2],
                   Some c')
       /\ length c' = (length two_record_db + RS)%nat
       /\ unpack_record (block_of apple) = Returned r'
       /\ print_db_from_file (Some two_record_db)
          = Some (Returned (DbHeader :: rows_from 1 rs))
       /\ print_db_from_file (Some c')
          = Some (Returned (DbHeader :: rows_from 1 rs'))
       /\ length rs = 2%nat /\ length rs' = 3%nat
       /\ rs' = firstn (Z.to_nat (2 - 1)) rs ++ r' :: skipn (Z.to_nat (2 - 1)) rs
       /\ nth_error rs' (Z.to_nat (2 - 1)) = Some r'
       /\ (forall i, (i < Z.to_nat (2 - 1))%nat ->
                     nth_error rs' i = nth_error rs i)
       /\ (forall i, (Z.to_nat (2 - 1) <= i)%nat ->
                     nth_error rs' (S i) = nth_error rs i).
Proof.
  assert (H1 : length two_record_db = (2 * RS)%nat) by (vm_compute; reflexivity).
  assert (H2 : 1 <= 2 <= Z.of_nat 2 + 1) by (cbn; lia).
  assert (H3 : pack_record apple = Returned (block_of apple))
    by (vm_compute; reflexivity).
  split; [exact H1|]. split; [exact H2|]. split; [exact H3|].
  exact (insert_then_scan two_record_db 2 2 apple (block_of apple) H1 H2 H3).
Defined.

(** Deletion at position 1 of the two-record store. *)
Lemma delete_then_scan_witness :
  length two_record_db = (2 * RS)%nat
  /\ (1 <= 2)%nat
  /\ 1 <= 1 <= Z.of_nat 2
  /\ exists (c' : bytes) (rs rs' : list record),
       delete_record (Some two_record_db) 1 = ([Deleted 1], Some c')
       /\ length c' = ((2 - 1) * RS)%nat
       /\ (length c' + RS)%nat = length two_record_db
       /\ print_db_from_file (Some two_record_db)
          = Some (Returned (DbHeader :: rows_from 1 rs))
       /\ print_db_from_file (Some c')
          = Some (Returned (DbHeader :: rows_from 1 rs'))
       /\ length rs = 2%nat /\ length rs' = (2 - 1)%nat
       /\ rs' = firstn (Z.to_nat (1 - 1)) rs ++ skipn (Z.to_nat 1) rs
       /\ (forall i, (i < Z.to_nat (1 - 1))%nat ->
                     nth_error rs' i = nth_error rs i)
       /\ (forall i, (Z.to_nat (1 - 1) <= i)%nat ->
                     nth_error rs' i = nth_error rs (S i)).
Proof.
  assert (H1 : length two_record_db = (2 * RS)%nat) by (vm_compute; reflexivity).
  assert (H2 : (1 <= 2)%nat) by lia.
  assert (H3 : 1 <= 1 <= Z.of_nat 2) by (cbn; lia).
  split; [exact H1|]. split; [exact H2|]. split; [exact H3|].
  exact (delete_then_scan two_record_db 2 1 H1 H2 H3).
Defined.

(** A file of one record followed by two stray bytes. *)
Lemma truncated_file_witness :
  length (block_of apple ++ [x01; x02]) = (1 * RS + 2)%nat
  /\ (0 < 2 < RS)%nat
  /\ (exists rs : list record,
         length rs = 1%nat
         /\ print_db_from_file (Some (block_of apple ++ [x01; x02])) =
            Some (Returned (DbHeader
                            :: SizeWarning (getsize (block_of apple ++ [x01; x02]))
                            :: rows_from 1 rs
                            ++ [CorruptRecord (Z.of_nat 1 + 1) (Z.of_nat 2)])))
  /\ (forall pos r, 1 <= pos ->
        insert_record_at (Some (block_of apple ++ [x01; x02])) pos r
        = Returned ([InsertBadSize], Some (block_of apple ++ [x01; x02])))
  /\ (forall pos, 1 <= pos ->
        delete_record (Some (block_of apple ++ [x01; x02])) pos
        = ([DeleteBadSize], Some (block_of apple ++ [x01; x02])))
  /\ (forall pos r, pos < 1 ->
        insert_record_at (Some (block_of apple ++ [x01; x02])) pos r
        = Returned ([BadPosition], Some (block_of apple ++ [x01; x02])))
  /\ (forall pos, pos < 1 ->
        delete_record (Some (block_of apple ++ [x01; x02])) pos
        = ([BadPosition], Some (block_of apple ++ [x01; x02]))).
Proof.
  assert (H1 : length (block_of apple ++ [x01; x02]) = (1 * RS + 2)%nat)
    by (vm_compute; reflexivity).
  assert (H2 : (0 < 2 < RS)%nat) by (vm_compute; lia).
  split; [exact H1|]. split; [exact H2|].
  exact (truncated_file (block_of apple ++ [x01; x02]) 1 2 H1 H2).
Defined.

(** The boundary positions of the empty store. *)
Lemma boundary_positions_witness :
  length (@nil byte) = (0 * RS)%nat
  /\ (forall r blk, pack_record r = Returned blk ->
        insert_record_at (Some []) (Z.of_nat 0 + 1) r =
        Returned ([Appended], Some ([] ++ blk)))
  /\ (forall r, insert_record_at (Some []) 0 r = Returned ([BadPosition], Some []))
  /\ (forall r, insert_record_at (Some []) (Z.of_nat 0 + 2) r =
                Returned ([BadPositionRange (Z.of_nat 0 + 1)], Some []))
  /\ (0%nat = 0%nat -> forall pos, 1 <= pos ->
        delete_record (Some []) pos = ([EmptyDb], Some []))
  /\ (0%nat = 0%nat -> forall pos, pos < 1 ->
        delete_record (Some []) pos = ([BadPosition], Some [])).
Proof.
  assert (H1 : length (@nil byte) = (0 * RS)%nat) by reflexivity.
  split; [exact H1|].
  exact (boundary_positions [] 0 H1).
Defined.

(** The conditions [">5.0"], a float for [price], and [">5"], an integer
    for [count], with the executable parsers. *)
Lemma comparison_dispatch_witness :
  strip [62; 53; 46; 48] = 62 :: [53; 46; 48]
  /\ strip [62; 53] = 62 :: [53]
  /\ is_operator 62
  /\ strip [53; 46; 48] <> [] /\ strip [53] <> []
  /\ In 46 (strip [53; 46; 48]) /\ ~ In 46 (strip [53])
  /\ float_of_str (strip [53; 46; 48]) = Some (float_of_decimal false 50 (-1))
  /\ int_of_str (strip [53]) = Some 5
  /\ Forall (sized RS) [block_of apple; block_of book]
  /\ [block_of apple; block_of book] <> []
  /\ digit_search int_of_str float_of_str
       (Some (concat [block_of apple; block_of book])) [62; 53; 46; 48]
     = Some (Returned
               (search_output
                  (fun r => float_cmp 62 (price r) (float_of_decimal false 50 (-1)))
                  (map record_of [block_of apple; block_of book])))
  /\ digit_search int_of_str float_of_str
       (Some (concat [block_of apple; block_of book])) [62; 53]
     = Some (Returned
               (search_output (fun r => int_cmp 62 (count r) 5)
                  (map record_of [block_of apple; block_of book]))).
Proof.
  assert (H1 : strip [62; 53; 46; 48] = 62 :: [53; 46; 48]) by reflexivity.
  assert (H1' : strip [62; 53] = 62 :: [53]) by reflexivity.
  assert (H2 : is_operator 62) by (left; reflexivity).
  assert (H3 : strip [53; 46; 48] <> []) by (vm_compute; discriminate).
  assert (H3' : strip [53] <> []) by (vm_compute; discriminate).
  assert (H4 : In 46 (strip [53; 46; 48])) by (vm_compute; tauto).
  assert (H4' : ~ In 46 (strip [53]))
    by (vm_compute; intros [H|[]]; discriminate).
  assert (H5 : float_of_str (strip [53; 46; 48])
               = Some (float_of_decimal false 50 (-1)))
    by (vm_compute; reflexivity).
  assert (H5' : int_of_str (strip [53]) = Some 5) by reflexivity.
  assert (H6 : Forall (sized RS) [block_of apple; block_of book])
    by (repeat constructor; vm_compute; reflexivity).
  assert (H7 : [block_of apple; block_of book] <> []) by discriminate.
  repeat (split; [assumption|]).
  split.
  - exact (proj1 (proj2 (proj2 (proj2
             (proj2 (comparison_dispatch int_of_str float_of_str
                       [62; 53; 46; 48]) 62 [53; 46; 48] H1)) H2 H3))
             (float_of_decimal false 50 (-1)) H4 H5
             [block_of apple; block_of book] H6 H7).
  - exact (proj1 (proj2 (proj2 (proj2 (proj2
             (proj2 (comparison_dispatch int_of_str float_of_str
                       [62; 53]) 62 [53] H1')) H2 H3')))
             5 H4' H5'
             [block_of apple; block_of book] H6 H7).
Defined.

(** The searches with the executable parsers, on a file of one byte and on
    the empty file: accepted queries, and the fields 9 and 8 and the condition
    ["!5"], which are refused. *)
Lemma search_size_checks_witness :
  getsize [x01] mod RECORD_SIZE <> 0
  /\ accepted_fields int_of_str (AInt 1) (AStr [50])
  /\ accepted_condition int_of_str float_of_str [62; 53]
  /\ ~ accepted_fields int_of_str (AInt 9) (AInt 8)
  /\ ~ accepted_condition int_of_str float_of_str [33; 53]
  /\ one_field_search int_of_str float_of_str (Some [x01]) (AInt 9) []
     = Some (Returned [SearchBadSize])
  /\ two_fields_search int_of_str float_of_str (Some [x01]) (AInt 1) []
       (AStr [50]) [] = Some (Returned [SearchBadSize])
  /\ digit_search int_of_str float_of_str (Some [x01]) [62; 53]
     = Some (Returned [SearchBadSize])
  /\ one_field_search int_of_str float_of_str (Some []) (AInt 9) []
     = Some (Returned [EmptyDb])
  /\ two_fields_search int_of_str float_of_str (Some []) (AInt 1) []
       (AStr [50]) [] = Some (Returned [EmptyDb])
  /\ digit_search int_of_str float_of_str (Some []) [62; 53]
     = Some (Returned [EmptyDb])
  /\ (exists msg,
        In msg [FieldsNotNumbers; FieldsMustDiffer; BadFieldNumber]
        /\ two_fields_search int_of_str float_of_str (Some [x01]) (AInt 9) []
             (AInt 8) [] = Some (Returned [msg]))
  /\ (exists msg,
        In msg [EmptyCondition; BadOperator; NoNumber; BadNumber]
        /\ digit_search int_of_str float_of_str (Some [x01]) [33; 53]
           = Some (Returned [msg])).
Proof.
  assert (H1 : getsize [x01] mod RECORD_SIZE <> 0) by (vm_compute; discriminate).
  assert (H2 : accepted_fields int_of_str (AInt 1) (AStr [50])).
  { exists 1, 2. repeat split; try reflexivity. discriminate. }
  assert (H3 : accepted_condition int_of_str float_of_str [62; 53]).
  { exists 62, [53], (TInt 5). repeat split; try reflexivity.
    - left. reflexivity.
    - vm_compute. discriminate. }
  assert (H4 : ~ accepted_fields int_of_str (AInt 9) (AInt 8)).
  { intros (n1 & n2 & E1 & _ & _ & V1 & _). cbn in E1.
    injection E1 as <-. discriminate V1. }
  assert (H5 : ~ accepted_condition int_of_str float_of_str [33; 53]).
  { intros (op & rest & t & Hs & Hop & _). cbn in Hs. injection Hs as <- _.
    destruct Hop as [H|[H|H]]; discriminate H. }
  destruct (search_size_checks int_of_str float_of_str [x01])
    as (A & _ & C1 & C2).
  destruct (A H1) as (A1 & A2 & A3).
  destruct (proj1 (proj2 (search_size_checks int_of_str float_of_str [])) eq_refl)
    as (B1 & B2 & B3).
  repeat (split; [assumption|]).
  split; [apply A1|]. split; [apply A2, H2|]. split; [apply A3, H3|].
  split; [apply B1|]. split; [apply B2, H2|]. split; [apply B3, H3|].
  split; [apply C1, H4 | apply C2, H5].
Defined.

(** Packing [apple]. *)
Lemma pack_record_returns_witness :
  (encodable (name apple) /\ encodable (category apple)
   /\ -2147483648 <= count apple <= 2147483647)
  /\ exists b nb cb,
       pack_record apple = Returned b /\ length b = 43%nat /\ RECORD_SIZE = 43
       /\ encode_utf8 (name apple) = Returned nb
       /\ encode_utf8 (category apple) = Returned cb
       /\ firstn 20 b = ljust 20 (firstn 20 nb)
       /\ skipn 28 b = ljust 15 (firstn 15 cb)
       /\ firstn 4 (skipn 24 b) = pack_f (price apple)
       /\ (overflows (price apple) = true ->
           exists s, unpack_f (firstn 4 (skipn 24 b)) = S754_infinity s).
Proof.
  assert (H : encodable (name apple) /\ encodable (category apple)
              /\ -2147483648 <= count apple <= 2147483647).
  { split; [repeat constructor; lia|]. split; [repeat constructor; lia|].
    cbn; lia. }
  split; [exact H|].
  exact (proj1 (pack_record_returns apple) H).
Defined.

(** Packing and unpacking [apple], whose price 3.5 is a single. *)
Lemma unpack_pack_record_witness :
  encode_utf8 (name apple) = Returned [x61; x70; x70; x6c; x65]
  /\ (length [x61; x70; x70; x6c; x65] <= 20)%nat
  /\ encode_utf8 (category apple) = Returned [x66; x72; x75; x69; x74]
  /\ (length [x66; x72; x75; x69; x74] <= 15)%nat
  /\ last (name apple) 1 <> 0 /\ last (category apple) 1 <> 0
  /\ -2147483648 <= count apple <= 2147483647
  /\ single (price apple)
  /\ exists b r',
       pack_record apple = Returned b /\ unpack_record b = Returned r'
       /\ name r' = name apple /\ count r' = count apple
       /\ category r' = category apple
       /\ (price apple <> S754_nan ->
           price r' = price apple /\ record_eqb r' apple = true)
       /\ (price apple = S754_nan ->
           price r' = S754_nan /\ record_eqb r' apple = false).
Proof.
  assert (H1 : encode_utf8 (name apple) = Returned [x61; x70; x70; x6c; x65])
    by reflexivity.
  assert (H2 : (length [x61; x70; x70; x6c; x65] <= 20)%nat) by (cbn; lia).
  assert (H3 : encode_utf8 (category apple) = Returned [x66; x72; x75; x69; x74])
    by reflexivity.
  assert (H4 : (length [x66; x72; x75; x69; x74] <= 15)%nat) by (cbn; lia).
  assert (H5 : last (name apple) 1 <> 0) by (cbn; lia).
  assert (H6 : last (category apple) 1 <> 0) by (cbn; lia).
  assert (H7 : -2147483648 <= count apple <= 2147483647) by (cbn; lia).
  assert (H8 : single (price apple)).
  { exists (S754_finite false 14680064 (-22)). split; vm_compute; reflexivity. }
  repeat (split; [assumption|]).
  exact (unpack_pack_record apple _ _ H1 H2 H3 H4 H5 H6 H7 H8).
Defined.

(** Packing the record with the over-long name, and what is read back. *)
Lemma stored_record_stable_witness :
  (encodable (name long_name_record) /\ encodable (category long_name_record)
   /\ -2147483648 <= count long_name_record <= 2147483647)
  /\ exists b r1 b1 r2,
       pack_record long_name_record = Returned b /\ length b = 43%nat
       /\ unpack_record b = Returned r1
       /\ last (name r1) 1 <> 0 /\ last (category r1) 1 <> 0
       /\ pack_record r1 = Returned b1 /\ unpack_record b1 = Returned r2
       /\ name r2 = name r1 /\ count r2 = count r1
       /\ category r2 = category r1
       /\ (price long_name_record <> S754_nan ->
           price r2 = price r1 /\ record_eqb r2 r1 = true)
       /\ (price long_name_record = S754_nan ->
           price r1 = S754_nan /\ price r2 = S754_nan
           /\ record_eqb r2 r1 = false).
Proof.
  assert (H : encodable (name long_name_record)
              /\ encodable (category long_name_record)
              /\ -2147483648 <= count long_name_record <= 2147483647).
  { split; [repeat constructor; lia|]. split; [constructor | cbn; lia]. }
  split; [exact H|].
  exact (proj1 (proj2 (stored_record_stable long_name_record)) H).
Defined.

(** * Further properties *)

(** ** Truncated text *)

(** A code point cut in the middle is dropped by the decoder. *)
Lemma decode_cut_cp (c : Z) (bc : bytes) (w : nat) :
  encode_cp c = Returned bc -> (w < length bc)%nat ->
  decode_utf8_ignore (firstn w bc) = [].
Proof.
  unfold encode_cp.
  destruct (Z.ltb_spec c 0); [discriminate|].
  destruct (Z.ltb_spec c 128).
  { intros E Hw. apply Returned_inj in E. subst bc.
    destruct w as [|w]; [reflexivity | cbn in Hw; lia]. }
  destruct (Z.ltb_spec c 2048).
  { intros E Hw. apply Returned_inj in E. subst bc.
    destruct w as [|[|w]]; [reflexivity | | cbn in Hw; lia].
    cbn [firstn]. rewrite decode_cons. cbv zeta. rewrite !b2z_z2b. settle; reflexivity. }
  destruct (Z.leb_spec 55296 c); destruct (Z.leb_spec c 57343);
    cbn [andb]; try discriminate; try lia.
  - destruct (Z.ltb_spec c 65536).
    { intros E Hw. apply Returned_inj in E. subst bc.
      destruct w as [|[|[|w]]]; [reflexivity | | | cbn in Hw; lia];
        cbn [firstn]; rewrite decode_cons; cbv zeta; unfold is_cont;
        rewrite !b2z_z2b; settle; reflexivity. }
    destruct (Z.ltb_spec c 1114112); [|discriminate].
    intros E Hw. apply Returned_inj in E. subst bc.
    destruct w as [|[|[|[|w]]]]; [reflexivity | | | | cbn in Hw; lia];
      cbn [firstn]; rewrite decode_cons; cbv zeta; unfold is_cont;
      rewrite !b2z_z2b; settle; reflexivity.
  - destruct (Z.ltb_spec c 65536); [|lia].
    intros E Hw. apply Returned_inj in E. subst bc.
    destruct w as [|[|[|w]]]; [reflexivity | | | cbn in Hw; lia];
      cbn [firstn]; rewrite decode_cons; cbv zeta; unfold is_cont;
      rewrite !b2z_z2b; settle; reflexivity.
Qed.

(** Decoding the first [w] bytes of an encoded text gives the longest
    prefix of the text that fits in [w] bytes. *)
Lemma decode_firstn_encode (s : str) : forall (w : nat) (e : bytes),
  encode_utf8 s = Returned e ->
  decode_utf8_ignore (firstn w e) = fit_prefix w s.
Proof.
  induction s as [|c s IH]; intros w e H; cbn [encode_utf8] in H.
  - apply Returned_inj in H. subst e. now rewrite firstn_nil.
  - repeat bind_inv H. apply Returned_inj in H. subst e.
    cbn [fit_prefix]. rewrite E. rewrite firstn_app.
    destruct (Nat.leb_spec (length a) w) as [L|L].
    + rewrite (firstn_all2 a) by exact L.
      rewrite (decode_encode_cp c a _ E). f_equal. now apply IH.
    + replace (w - length a)%nat with 0%nat by lia.
      rewrite firstn_0, app_nil_r. now apply (decode_cut_cp c).
Qed.

Lemma fit_prefix_all (w : nat) (s : str) (e : bytes) :
  encode_utf8 s = Returned e -> (length e <= w)%nat -> fit_prefix w s = s.
Proof.
  intros He Hw. rewrite <- (decode_firstn_encode s w e He).
  rewrite firstn_all2 by exact Hw.
  rewrite <- (app_nil_r e), (decode_encode s e [] He). apply app_nil_r.
Qed.

(** What is read from a text field: the longest prefix that fits, without
    its trailing NULs. *)
Lemma text_field_read (w : nat) (s : str) (e : bytes) :
  encode_utf8 s = Returned e ->
  rstrip0 (decode_utf8_ignore (ljust w (firstn w e))) = rstrip0 (fit_prefix w s).
Proof.
  intros He. destruct (Nat.le_gt_cases (length e) w) as [L|L].
  - rewrite (text_field_fits w s e He L). now rewrite (fit_prefix_all w s e He L).
  - unfold ljust. rewrite length_firstn.
    replace (w - Nat.min w (length e))%nat with 0%nat by lia.
    cbn [repeat]. rewrite app_nil_r. now rewrite (decode_firstn_encode s w e He).
Qed.

(** What [unpack_record] reads from the block of [r]: each text field cut
    to the longest prefix that fits its width, without trailing NULs; the
    count itself; the price rounded to single precision. *)
Theorem unpack_pack_lossy (r : record) (b : bytes) :
  pack_record r = Returned b ->
  unpack_record b =
  Returned (mkRecord (rstrip0 (fit_prefix 20 (name r)))
                     (count r)
                     (f64_of_f32 (f32_of_f64 (price r)))
                     (rstrip0 (fit_prefix 15 (category r)))).
Proof.
  intros Hr. pose proof (pack_record_length r b Hr) as Hb.
  destruct (pack_record_inv r b Hr) as (nb & cb & ib & Hn & Hc & Hi & ->).
  pose proof (pack_i_length _ _ Hi) as Li.
  pose proof (pack_f_length (price r)) as Lf.
  rewrite unpack_record_sized by exact Hb. f_equal.
  rewrite record_of_packed by assumption.
  rewrite (text_field_read 20 _ _ Hn), (text_field_read 15 _ _ Hc).
  now rewrite (unpack_pack_i _ _ Hi), unpack_pack_f.
Qed.

(** The four fields of any block of [RECORD_SIZE] bytes. *)
Lemma block_fields (b : bytes) :
  length b = 43%nat ->
  exists F ib fb G,
    b = F ++ ib ++ fb ++ G /\ length F = 20%nat /\ length ib = 4%nat
    /\ length fb = 4%nat /\ length G = 15%nat.
Proof.
  intros Hb.
  exists (firstn 20 b), (firstn 4 (skipn 20 b)), (firstn 4 (skipn 24 b)), (skipn 28 b).
  repeat split.
  - change 28%nat with (4 + 24)%nat. change 24%nat with (4 + 20)%nat.
    rewrite <- !skipn_skipn. now rewrite !firstn_skipn.
  - rewrite length_firstn. lia.
  - rewrite length_firstn, length_skipn. lia.
  - rewrite length_firstn, length_skipn. lia.
  - rewrite length_skipn. lia.
Qed.

Lemma unpack_i_range (b : bytes) :
  length b = 4%nat -> -2147483648 <= unpack_i b <= 2147483647.
Proof.
  intros Hb. pose proof (le_value_range b) as Hr. rewrite Hb in Hr.
  change (256 ^ Z.of_nat 4) with 4294967296 in Hr. unfold unpack_i.
  destruct (Z.ltb_spec (le_value b) 2147483648); lia.
Qed.

Lemma unpack_f_single (b : bytes) : length b = 4%nat -> single (unpack_f b).
Proof.
  intros Hb. pose proof (le_value_range b) as Hr. rewrite Hb in Hr.
  change (256 ^ Z.of_nat 4) with 4294967296 in Hr.
  exists (f32_of_bits (le_value b)). split; [now apply f32_of_bits_valid | reflexivity].
Qed.

(** Every record read from a block fits the format: its texts encode
    within the field widths and do not end with a NUL, its count is a signed
    32-bit integer, its price the value of a single. *)
Theorem unpacked_record_fits (b : bytes) :
  length b = 43%nat ->
  exists r nb cb,
    unpack_record b = Returned r
    /\ encode_utf8 (name r) = Returned nb /\ (length nb <= 20)%nat
    /\ encode_utf8 (category r) = Returned cb /\ (length cb <= 15)%nat
    /\ last (name r) 1 <> 0 /\ last (category r) 1 <> 0
    /\ -2147483648 <= count r <= 2147483647
    /\ single (price r).
Proof.
  intros Hb. destruct (block_fields b Hb) as (F & ib & fb & G & -> & LF & Li & Lf & LG).
  destruct (text_field_stored 20 F) as (e1 & E1 & L1 & _); [lia|].
  destruct (text_field_stored 15 G) as (e2 & E2 & L2 & _); [lia|].
  eexists. exists e1, e2.
  rewrite unpack_record_sized by exact Hb.
  rewrite record_of_block by assumption.
  rewrite (firstn_all2 G) by lia. cbn [name count price category].
  split; [reflexivity|]. split; [exact E1|]. split; [exact L1|].
  split; [exact E2|]. split; [exact L2|].
  split; [apply rstrip0_last|]. split; [apply rstrip0_last|].
  split; [now apply unpack_i_range | now apply unpack_f_single].
Qed.

Lemma repack_block (b : bytes) :
  length b = 43%nat ->
  exists b',
    pack_record (record_of b) = Returned b' /\ record_of b' = record_of b.
Proof.
  intros Hb. destruct (block_fields b Hb) as (F & ib & fb & G & -> & LF & Li & Lf & LG).
  destruct (text_field_stored 20 F) as (e1 & E1 & L1 & T1); [lia|].
  destruct (text_field_stored 15 G) as (e2 & E2 & L2 & T2); [lia|].
  pose proof (float_field_stored fb Lf) as F2.
  exists (ljust 20 (firstn 20 e1) ++ ib ++ pack_f (unpack_f fb)
          ++ ljust 15 (firstn 15 e2)).
  rewrite record_of_block by assumption. rewrite (firstn_all2 G) by lia.
  split.
  - unfold pack_record. cbn [name count price category].
    now rewrite E1, E2, (pack_unpack_i ib Li).
  - rewrite record_of_packed by (assumption || apply pack_f_length).
    now rewrite T1, T2, F2.
Qed.

(** A record read from a block can be written back, and is read again
    unchanged. *)
Theorem unpack_then_pack (b : bytes) :
  length b = 43%nat ->
  exists r b',
    unpack_record b = Returned r
    /\ pack_record r = Returned b'
    /\ unpack_record b' = Returned r.
Proof.
  intros Hb. destruct (repack_block b Hb) as (b' & Hp & Hr).
  exists (record_of b), b'.
  split; [apply unpack_record_sized; now rewrite <- RS_eq in Hb|].
  split; [exact Hp|].
  rewrite unpack_record_sized by exact (pack_record_length _ _ Hp).
  now rewrite Hr.
Qed.

(** ** Insertion and deletion on the bytes of the file *)

Lemma concat_splice (l : list bytes) (p : nat) :
  Forall (sized RS) l ->
  concat (firstn p l) = firstn (p * RS) (concat l)
  /\ concat (skipn p l) = skipn (p * RS) (concat l).
Proof.
  intros Hl. split.
  - symmetry. now apply firstn_concat_sized.
  - symmetry. now apply skipn_concat_sized.
Qed.

(** Insertion splices the block of the record into the file at the offset
    of the position; the bytes before and after are those of the old file. *)
Theorem insert_splices (c : bytes) (n : nat) (pos : Z) (r : record) (blk : bytes) :
  length c = (n * RS)%nat ->
  1 <= pos <= Z.of_nat n + 1 ->
  pack_record r = Returned blk ->
  exists ls,
    insert_record_at (Some c) pos r =
    Returned (ls, Some (firstn (Z.to_nat ((pos - 1) * RECORD_SIZE)) c
                        ++ blk
                        ++ skipn (Z.to_nat ((pos - 1) * RECORD_SIZE)) c)).
Proof.
  intros Hc Hp Hr.
  destruct (consistent_chunks c n Hc) as (l & -> & Hl & Hn).
  rewrite <- Hn in Hp. rewrite (insert_chunks l pos r blk Hl Hp Hr).
  eexists. do 3 f_equal.
  rewrite offset_nat by lia.
  destruct (concat_splice l (Z.to_nat (pos - 1)) Hl) as (<- & <-).
  rewrite concat_app. cbn [concat]. reflexivity.
Qed.

(** Deletion cuts the [RECORD_SIZE] bytes of the position out of the file;
    the bytes before and after are those of the old file. *)
Theorem delete_cuts (c : bytes) (n : nat) (pos : Z) :
  length c = (n * RS)%nat ->
  1 <= pos <= Z.of_nat n ->
  delete_record (Some c) pos =
  ([Deleted pos],
   Some (firstn (Z.to_nat ((pos - 1) * RECORD_SIZE)) c
         ++ skipn (Z.to_nat (pos * RECORD_SIZE)) c)).
Proof.
  intros Hc Hp.
  destruct (consistent_chunks c n Hc) as (l & -> & Hl & Hn).
  rewrite <- Hn in Hp. rewrite (delete_chunks l pos Hl Hp).
  do 2 f_equal. rewrite !offset_nat by lia.
  destruct (concat_splice l (Z.to_nat (pos - 1)) Hl) as (<- & _).
  destruct (concat_splice l (Z.to_nat pos) Hl) as (_ & <-).
  now rewrite concat_app.
Qed.

(** Deleting at the position where a record was just inserted gives back
    the file as it was, byte for byte. *)
Theorem insert_then_delete (c : bytes) (n : nat) (pos : Z) (r : record)
    (blk : bytes) :
  length c = (n * RS)%nat ->
  1 <= pos <= Z.of_nat n + 1 ->
  pack_record r = Returned blk ->
  exists ls c',
    insert_record_at (Some c) pos r = Returned (ls, Some c')
    /\ delete_record (Some c') pos = ([Deleted pos], Some c).
Proof.
  intros Hc Hp Hr.
  destruct (consistent_chunks c n Hc) as (l & -> & Hl & Hn).
  rewrite <- Hn in Hp. pose proof (pack_record_length r blk Hr) as Hb.
  set (p := Z.to_nat (pos - 1)).
  set (l' := firstn p l ++ blk :: skipn p l).
  assert (Hl' : Forall (sized RS) l').
  { apply Forall_app. split; [now apply Forall_firstn_skipn|].
    constructor; [assumption | now apply Forall_firstn_skipn]. }
  assert (Hf : length (firstn p l) = p) by (rewrite length_firstn; lia).
  assert (Hlen : length l' = S (length l)).
  { unfold l'. rewrite length_app. cbn [length]. rewrite Hf, length_skipn. lia. }
  eexists. exists (concat l'). split.
  - now apply insert_chunks.
  - rewrite (delete_chunks l' pos Hl') by lia.
    do 3 f_equal. fold p. replace (Z.to_nat pos) with (S p) by lia.
    unfold l'. rewrite firstn_app, Hf, Nat.sub_diag, firstn_0, app_nil_r.
    rewrite firstn_firstn, Nat.min_id.
    rewrite skipn_app, Hf. replace (S p - p)%nat with 1%nat by lia.
    rewrite (skipn_all2 (firstn p l)) by lia. cbn [skipn app].
    apply firstn_skipn.
Qed.

(** ** Searches as filters of the scan *)

Lemma matching_rows_filter (ok : record -> bool) (idx : Z) (rs : list record) :
  matching_rows ok idx rs = filter (row_passes ok) (rows_from idx rs).
Proof.
  revert idx. induction rs as [|r rs IH]; intros idx; [reflexivity|].
  unfold rows_from in *. cbn [matching_rows app filter row_passes].
  rewrite IH. now destruct (ok r).
Qed.

Lemma matching_rows_none (ok : record -> bool) (idx : Z) (rs : list record) :
  existsb ok rs = false -> matching_rows ok idx rs = [].
Proof.
  revert idx. induction rs as [|r rs IH]; intros idx; [reflexivity|].
  cbn [existsb matching_rows]. intros H. apply orb_false_iff in H as (-> & H).
  now rewrite IH.
Qed.

Lemma matching_rows_some (ok : record -> bool) (idx : Z) (rs : list record) :
  existsb ok rs = true -> matching_rows ok idx rs <> [].
Proof.
  revert idx. induction rs as [|r rs IH]; intros idx; [discriminate|].
  cbn [existsb matching_rows]. destruct (ok r); [discriminate|].
  cbn [orb app]. apply IH.
Qed.

Lemma search_output_filter (ok : record -> bool) (rs : list record) :
  search_output ok rs = found_or_none (filter (row_passes ok) (rows_from 1 rs)).
Proof.
  unfold search_output. rewrite <- matching_rows_filter.
  destruct (existsb ok rs) eqn:E.
  - rewrite app_nil_r. pose proof (matching_rows_some ok 1 rs E).
    now destruct (matching_rows ok 1 rs).
  - now rewrite matching_rows_none.
Qed.

Lemma scan_and_search (c : bytes) (n : nat) :
  length c = (n * RS)%nat -> (0 < n)%nat ->
  exists rows,
    print_db_from_file (Some c) = Some (Returned (DbHeader :: rows))
    /\ negb (getsize c mod RECORD_SIZE =? 0) = false
    /\ (getsize c / RECORD_SIZE =? 0) = false
    /\ forall ok, search_file ok c =
                  Some (Returned (found_or_none (filter (row_passes ok) rows))).
Proof.
  intros Hc Hn.
  destruct (consistent_chunks c n Hc) as (l & -> & Hl & Hlen).
  exists (rows_from 1 (map record_of l)).
  destruct (consistent_nonempty l Hl) as (E1 & E2).
  { intros ->. cbn in Hlen. lia. }
  split; [now apply print_db_consistent|]. split; [assumption|]. split; [assumption|].
  intros ok. rewrite search_file_chunks by assumption.
  now rewrite search_output_filter.
Qed.

Lemma filter_ext' {A} (f g : A -> bool) (l : list A) :
  (forall x, f x = g x) -> filter f l = filter g l.
Proof. intros H. induction l; cbn; [reflexivity | now rewrite H, IHl]. Qed.

Lemma row_passes_ext (f g : record -> bool) (l : line) :
  (forall r, f r = g r) -> row_passes f l = row_passes g l.
Proof. intros H. destruct l; cbn; auto. Qed.

Lemma search_file_ext (f g : record -> bool) (c : bytes) :
  (forall r, f r = g r) -> search_file f c = search_file g c.
Proof.
  intros H. unfold search_file, f_open.
  destruct (inconsistent_chunks c (length c / RS) (length c mod RS))
    as (l & tail & -> & Hl & _ & Ht).
  - rewrite RS_eq. pose proof (Nat.div_mod_eq (length c) 43). lia.
  - apply Nat.mod_upper_bound. now rewrite RS_eq.
  - assert (Ht' : (length tail < RS)%nat).
    { rewrite Ht. apply Nat.mod_upper_bound. now rewrite RS_eq. }
    rewrite !read_loop_chunks by assumption.
    rewrite (matching_rows_ext f g _ _ H), (existsb_ext f g _ H). reflexivity.
Qed.

Section SearchRows.

Variable py_int : str -> option Z.
Variable py_float : str -> option float.

(** On a consistent, non-empty store, a search on one field with a field
    number in 1..4 prints the rows of the scan whose record passes the test
    of the field, in the order and with the positions of the scan, or the
    no-match line when there is none. *)
Theorem one_field_search_rows (c : bytes) (n : nat) (f : arg) (k : Z) (v : str) :
  length c = (n * RS)%nat -> (0 < n)%nat ->
  int_of_arg py_int f = Some k -> 1 <= k <= 4 ->
  exists rows,
    print_db_from_file (Some c) = Some (Returned (DbHeader :: rows))
    /\ one_field_search py_int py_float (Some c) f v =
       Some (Returned
               (found_or_none
                  (filter (row_passes (field_ok py_int py_float k v)) rows))).
Proof.
  intros Hc Hn Hf Hk.
  destruct (scan_and_search c n Hc Hn) as (rows & Hscan & E1 & E2 & Hs).
  exists rows. split; [assumption|].
  unfold one_field_search. rewrite E1, E2, Hf.
  replace (valid_field k) with true; [apply Hs|].
  unfold valid_field.
  assert (k = 1 \/ k = 2 \/ k = 3 \/ k = 4) as [->|[->|[->| ->]]] by lia; reflexivity.
Qed.

(** A value that is not a number matches no record when the field is
    [count] or [price]: on a consistent, non-empty store the search prints
    the no-match line alone. *)
Theorem unparsable_value_no_match (c : bytes) (n : nat) (f : arg) (k : Z) (v : str) :
  length c = (n * RS)%nat -> (0 < n)%nat ->
  int_of_arg py_int f = Some k ->
  (k = 2 /\ py_int v = None) \/ (k = 3 /\ py_float v = None) ->
  one_field_search py_int py_float (Some c) f v = Some (Returned [NoMatches]).
Proof.
  intros Hc Hn Hf Hk.
  destruct (scan_and_search c n Hc Hn) as (rows & Hscan & E1 & E2 & Hs).
  unfold one_field_search. rewrite E1, E2, Hf.
  assert (Hok : forall r, field_ok py_int py_float k v r = false).
  { intros r. unfold field_ok. destruct Hk as [(-> & ->)|(-> & ->)]; reflexivity. }
  replace (valid_field k) with true by (destruct Hk as [(-> & _)|(-> & _)]; reflexivity).
  cbn [negb]. rewrite Hs. do 2 f_equal.
  replace (filter _ rows) with (@nil line); [reflexivity|].
  symmetry. clear -Hok. induction rows as [|l rows IH]; [reflexivity|].
  cbn [filter]. destruct l; cbn [row_passes]; try assumption. now rewrite Hok.
Qed.

(** The two pairs of a search on two fields can be exchanged: whatever the
    file and the arguments, the output is the same. *)
Theorem two_fields_search_swap (d : disk) (f1 : arg) (v1 : str) (f2 : arg)
    (v2 : str) :
  two_fields_search py_int py_float d f1 v1 f2 v2 =
  two_fields_search py_int py_float d f2 v2 f1 v1.
Proof.
  unfold two_fields_search. destruct d as [c|]; [|reflexivity].
  destruct (int_of_arg py_int f1) as [n1|], (int_of_arg py_int f2) as [n2|];
    try reflexivity.
  rewrite (Z.eqb_sym n2 n1), (orb_comm (negb (valid_field n2))).
  destruct (n1 =? n2); [reflexivity|].
  destruct (_ || _); [reflexivity|].
  destruct (negb _); [reflexivity|]. destruct (_ =? 0); [reflexivity|].
  apply search_file_ext. intros r. apply andb_comm.
Qed.

(** On a consistent, non-empty store, a search on two accepted fields
    prints the rows that the search on the first field prints and that also
    pass the test of the second field, or the no-match line. *)
Theorem two_fields_search_rows (c : bytes) (n : nat) (f1 f2 : arg) (k1 k2 : Z)
    (v1 v2 : str) :
  length c = (n * RS)%nat -> (0 < n)%nat ->
  int_of_arg py_int f1 = Some k1 -> int_of_arg py_int f2 = Some k2 ->
  1 <= k1 <= 4 -> 1 <= k2 <= 4 -> k1 <> k2 ->
  exists rows,
    print_db_from_file (Some c) = Some (Returned (DbHeader :: rows))
    /\ two_fields_search py_int py_float (Some c) f1 v1 f2 v2 =
       Some (Returned
               (found_or_none
                  (filter (row_passes (field_ok py_int py_float k2 v2))
                     (filter (row_passes (field_ok py_int py_float k1 v1))
                        rows)))).
Proof.
  intros Hc Hn Hf1 Hf2 Hk1 Hk2 Hne.
  destruct (scan_and_search c n Hc Hn) as (rows & Hscan & E1 & E2 & Hs).
  exists rows. split; [assumption|].
  unfold two_fields_search. rewrite Hf1, Hf2, E1, E2.
  replace (k1 =? k2) with false by (symmetry; now apply Z.eqb_neq).
  assert (V : forall k, 1 <= k <= 4 -> valid_field k = true).
  { intros k H. unfold valid_field.
    assert (k = 1 \/ k = 2 \/ k = 3 \/ k = 4) as [->|[->|[->| ->]]] by lia;
      reflexivity. }
  rewrite !V by assumption. cbn [negb orb]. rewrite Hs. do 3 f_equal.
  clear. induction rows as [|l rows IH]; [reflexivity|].
  cbn [filter]. destruct l; cbn [row_passes]; try assumption.
  destruct (field_ok py_int py_float k1 v1 r); cbn [andb filter row_passes];
    [destruct (field_ok py_int py_float k2 v2 r); now rewrite IH | assumption].
Qed.

(** A condition [=literal] is a search on one field: on [count] when the
    literal has no point and is an integer, on [price] when it has a point
    and is a float.  The two searches then print the same lines, whatever
    the file. *)
Theorem digit_search_equal (c : bytes) (condition rest : str) :
  strip condition = EQ :: rest ->
  strip rest <> [] ->
  (has_dot (strip rest) = false -> py_int (strip rest) <> None ->
   digit_search py_int py_float (Some c) condition =
   one_field_search py_int py_float (Some c) (AInt 2) (strip rest))
  /\ (has_dot (strip rest) = true -> py_float (strip rest) <> None ->
   digit_search py_int py_float (Some c) condition =
   one_field_search py_int py_float (Some c) (AInt 3) (strip rest)).
Proof.
  intros Hs Hne. unfold digit_search, one_field_search. rewrite Hs.
  change (negb ((EQ =? GT) || (EQ =? LT) || (EQ =? EQ))) with false. cbv iota.
  unfold parse_target. cbn [int_of_arg].
  change (negb (valid_field 2)) with false. change (negb (valid_field 3)) with false.
  cbv iota. destruct (strip rest) as [|a num] eqn:En; [contradiction|].
  split; intros Hdot Hp; rewrite Hdot.
  - destruct (py_int (a :: num)) as [m|] eqn:Ep; [|contradiction]. cbn [option_map].
    destruct (negb _); [reflexivity|]. destruct (_ =? 0); [reflexivity|].
    apply search_file_ext. intros r. unfold field_ok. cbn. rewrite Ep.
    now destruct (count r =? m).
  - destruct (py_float (a :: num)) as [x|] eqn:Ep; [|contradiction]. cbn [option_map].
    destruct (negb _); [reflexivity|]. destruct (_ =? 0); [reflexivity|].
    apply search_file_ext. intros r. unfold field_ok. cbn. rewrite Ep.
    now destruct (SFeqb (price r) x).
Qed.

End SearchRows.

(** ** Initialisation over any generator *)

Lemma f_write_at_end (pre b : bytes) :
  f_write b (mkHandle pre (length pre)) = mkHandle (pre ++ b) (length (pre ++ b)).
Proof.
  unfold f_write. cbn [content cursor].
  rewrite firstn_all, Nat.sub_diag, skipn_all2 by lia.
  cbn [repeat app]. now rewrite app_nil_r, length_app.
Qed.

Lemma init_loop_writes (generate : Z -> option record) (rs : list record) :
  forall (bs : list bytes) (i cnt : Z) (pre : bytes) (fuel : nat),
    packed rs bs ->
    (forall j, (j < length rs)%nat -> generate (i + Z.of_nat j) = nth_error rs j) ->
    generate (i + Z.of_nat (length rs)) = None ->
    (length rs < fuel)%nat ->
    init_loop generate fuel i cnt (mkHandle pre (length pre)) =
    Some (Returned (mkHandle (pre ++ concat bs) (length (pre ++ concat bs)),
                    cnt + Z.of_nat (length rs))).
Proof.
  induction rs as [|r rs IH]; intros bs i cnt pre fuel Hp Hg Hend Hfuel.
  - inversion Hp; subst. destruct fuel; [cbn in Hfuel; lia|].
    cbn [init_loop length concat]. cbn [length] in Hend. rewrite Z.add_0_r in Hend.
    rewrite Hend, app_nil_r, Z.add_0_r. reflexivity.
  - inversion Hp as [|r0 b rs0 bs0 Hr Hrest]; subst.
    destruct fuel; [cbn in Hfuel; lia|]. cbn [init_loop].
    pose proof (Hg 0%nat ltac:(cbn; lia)) as H0. rewrite Z.add_0_r in H0.
    cbn [nth_error] in H0. rewrite H0, Hr, f_write_at_end.
    rewrite (IH bs0 (i + 1) (cnt + 1) (pre ++ b) fuel Hrest).
    + cbn [concat length]. rewrite <- app_assoc. do 3 f_equal. lia.
    + intros j Hj. specialize (Hg (S j) ltac:(cbn; lia)). cbn [nth_error] in Hg.
      rewrite <- Hg. f_equal. lia.
    + rewrite <- Hend. f_equal. cbn [length]. lia.
    + cbn [length] in Hfuel. lia.
Qed.

Lemma packed_sized (rs : list record) (bs : list bytes) :
  packed rs bs -> Forall (sized RS) bs /\ length bs = length rs.
Proof.
  induction 1 as [|r b rs bs Hr _ (IH1 & IH2)]; [split; [constructor | reflexivity]|].
  split; [constructor; [now apply (pack_record_length r) | assumption]|].
  cbn. now rewrite IH2.
Qed.

(** Initialisation over a generator that yields the records [rs], each
    accepted by [pack_record], and then [None]: whatever the file was, it now
    holds the blocks of [rs] one after the other, the message counts
    [length rs] records, and a scan prints one row per record, the record
    read back from its block. *)
Theorem init_db_writes (generate : Z -> option record) (rs : list record)
    (bs : list bytes) (fuel : nat) (d : disk) :
  (forall j, (j < length rs)%nat -> generate (Z.of_nat j) = nth_error rs j) ->
  generate (Z.of_nat (length rs)) = None ->
  packed rs bs ->
  (length rs < fuel)%nat ->
  init_db_with generate fuel d =
    Some (Returned ([Initialized (Z.of_nat (length rs))], Some (concat bs)))
  /\ length (concat bs) = (length rs * RS)%nat
  /\ exists rs',
       Forall2 (fun b r' => unpack_record b = Returned r') bs rs'
       /\ print_db_from_file (Some (concat bs)) =
          Some (Returned (DbHeader :: rows_from 1 rs')).
Proof.
  intros Hg Hend Hp Hfuel. destruct (packed_sized rs bs Hp) as (Hs & Hl).
  split; [|split].
  - unfold init_db_with, f_open.
    change (mkHandle [] 0) with (mkHandle [] (length (@nil byte))).
    rewrite (init_loop_writes generate rs bs 0 0 [] fuel Hp); try assumption.
    reflexivity.
  - rewrite concat_sized_length with (w := RS) by assumption. now rewrite Hl.
  - exists (map record_of bs). split; [|now apply print_db_consistent].
    clear -Hs. induction Hs as [|b bs Hb _ IH]; cbn [map]; constructor;
      [now apply unpack_record_sized | assumption].
Qed.


(** ** Compositions *)

Lemma matching_rows_in (ok : record -> bool) (rs : list record) :
  forall (idx : Z) (i : nat) (r : record),
    nth_error rs i = Some r -> ok r = true ->
    In (Row (idx + Z.of_nat i) r) (matching_rows ok idx rs).
Proof.
  induction rs as [|x rs IH]; intros idx i r Hn Hok; [now destruct i|].
  cbn [matching_rows]. apply in_or_app. destruct i as [|i].
  - injection Hn as ->. rewrite Hok. left. rewrite Z.add_0_r. now left.
  - right. replace (idx + Z.of_nat (S i)) with (idx + 1 + Z.of_nat i) by lia.
    now apply IH.
Qed.

Section Compositions.

Variable py_int : str -> option Z.
Variable py_float : str -> option float.

(** A record inserted at [pos] is found there by a search on its stored
    name: the search prints the row [pos] with the stored form of the
    record. *)
Theorem insert_then_find (c : bytes) (n : nat) (pos : Z) (r : record)
    (blk : bytes) :
  length c = (n * RS)%nat ->
  1 <= pos <= Z.of_nat n + 1 ->
  pack_record r = Returned blk ->
  exists ls c' r' out,
    insert_record_at (Some c) pos r = Returned (ls, Some c')
    /\ unpack_record blk = Returned r'
    /\ one_field_search py_int py_float (Some c') (AInt 1) (name r') =
       Some (Returned out)
    /\ In (Row pos r') out.
Proof.
  intros Hc Hp Hr.
  destruct (consistent_chunks c n Hc) as (l & -> & Hl & Hn).
  pose proof (pack_record_length r blk Hr) as Hb.
  set (p := Z.to_nat (pos - 1)).
  set (l' := firstn p l ++ blk :: skipn p l).
  assert (Hl' : Forall (sized RS) l').
  { apply Forall_app. split; [now apply Forall_firstn_skipn|].
    constructor; [assumption | now apply Forall_firstn_skipn]. }
  assert (Hf : length (firstn p l) = p) by (rewrite length_firstn; lia).
  assert (Hne : l' <> []) by (unfold l'; now destruct (firstn p l)).
  destruct (consistent_nonempty l' Hl' Hne) as (E1 & E2).
  eexists. exists (concat l'), (record_of blk). eexists.
  split; [apply insert_chunks; [assumption | lia | assumption]|].
  split; [now apply unpack_record_sized|].
  split.
  - unfold one_field_search. rewrite E1, E2. cbn [int_of_arg].
    change (negb (valid_field 1)) with false. cbv iota.
    now apply search_file_chunks.
  - unfold search_output. apply in_or_app. left.
    replace pos with (1 + Z.of_nat p) by lia.
    apply matching_rows_in.
    + unfold l'. rewrite map_app, nth_error_app2 by (rewrite length_map; lia).
      rewrite length_map, Hf, Nat.sub_diag. reflexivity.
    + unfold field_ok. cbn. apply str_eqb_refl.
Qed.

End Compositions.

(** Deleting the record at [pos] and inserting at [pos] the record that
    the scan showed there gives a file with the same scan. *)
Theorem delete_then_insert_back (c : bytes) (n : nat) (pos : Z) :
  length c = (n * RS)%nat ->
  1 <= pos <= Z.of_nat n ->
  exists rows r c1 ls c2,
    print_db_from_file (Some c) = Some (Returned (DbHeader :: rows))
    /\ In (Row pos r) rows
    /\ delete_record (Some c) pos = ([Deleted pos], Some c1)
    /\ insert_record_at (Some c1) pos r = Returned (ls, Some c2)
    /\ print_db_from_file (Some c2) = Some (Returned (DbHeader :: rows)).
Proof.
  intros Hc Hp.
  destruct (consistent_chunks c n Hc) as (l & -> & Hl & Hn).
  set (p := Z.to_nat (pos - 1)).
  destruct (nth_error l p) as [b|] eqn:Eb;
    [|apply nth_error_None in Eb; lia].
  assert (Hb : sized RS b).
  { rewrite Forall_forall in Hl. apply Hl. eapply nth_error_In, Eb. }
  destruct (repack_block b) as (b' & Hpk & Hrec);
    [now rewrite <- RS_eq|].
  pose proof (pack_record_length _ _ Hpk) as Hb'.
  set (l1 := firstn p l ++ skipn (S p) l).
  assert (Hf : length (firstn p l) = p) by (rewrite length_firstn; lia).
  assert (Hl1 : Forall (sized RS) l1).
  { apply Forall_app. split; now apply Forall_firstn_skipn. }
  assert (L1 : length l1 = (length l - 1)%nat).
  { unfold l1. rewrite length_app, Hf, length_skipn. lia. }
  set (l2 := firstn p l1 ++ b' :: skipn p l1).
  assert (Hl2 : Forall (sized RS) l2).
  { apply Forall_app. split; [now apply Forall_firstn_skipn|].
    constructor; [assumption | now apply Forall_firstn_skipn]. }
  assert (Esplit : l = firstn p l ++ b :: skipn (S p) l).
  { rewrite <- (firstn_skipn p l) at 1. f_equal.
    rewrite <- (firstn_skipn p l) in Eb.
    rewrite nth_error_app2, Hf, Nat.sub_diag in Eb by lia.
    destruct (skipn p l) as [|x t] eqn:Es; [discriminate|].
    injection Eb as ->. f_equal.
    change (S p) with (1 + p)%nat. rewrite <- skipn_skipn, Es. reflexivity. }
  exists (rows_from 1 (map record_of l)), (record_of b), (concat l1).
  eexists. exists (concat l2).
  split; [now apply print_db_consistent|].
  split.
  { replace pos with (1 + Z.of_nat p) by lia. unfold rows_from.
    apply matching_rows_in; [|reflexivity].
    now rewrite nth_error_map, Eb. }
  split.
  { rewrite delete_chunks by (assumption || lia).
    replace (Z.to_nat pos) with (S p) by lia. reflexivity. }
  split.
  { apply insert_chunks; [assumption | lia | assumption]. }
  rewrite print_db_consistent by assumption. do 4 f_equal.
  unfold l2, l1.
  rewrite firstn_app, Hf, Nat.sub_diag, firstn_0, app_nil_r.
  rewrite firstn_firstn, Nat.min_id.
  rewrite skipn_app, Hf, Nat.sub_diag, (skipn_all2 (firstn p l)) by lia.
  cbn [skipn app]. rewrite map_app. cbn [map]. rewrite Hrec.
  rewrite Esplit at 3. rewrite map_app. reflexivity.
Qed.

(** ** What is checked before the file is touched *)

(** Insertion changes the file only at a position in [1, n+1] of a file
    whose size is a multiple of [RECORD_SIZE]: otherwise it prints one
    message and leaves the file as it was, even for a record that
    [pack_record] refuses.  At a valid position a refused record raises,
    and nothing is printed or written. *)
Theorem insert_checks_first (c : bytes) (pos : Z) (r : record) :
  let n := getsize c / RECORD_SIZE in
  (pos < 1 \/ getsize c mod RECORD_SIZE <> 0 \/ n + 1 < pos ->
     exists msg, insert_record_at (Some c) pos r = Returned ([msg], Some c)
                 /\ msg <> Appended /\ msg <> Inserted pos)
  /\ (1 <= pos <= n + 1 -> getsize c mod RECORD_SIZE = 0 ->
      forall e, pack_record r = Raised e ->
                insert_record_at (Some c) pos r = Raised e).
Proof.
  intros n. unfold insert_record_at. fold n. split.
  - intros H. destruct (Z.ltb_spec pos 1).
    { exists BadPosition. repeat split; discriminate. }
    destruct (Z.eqb_spec (getsize c mod RECORD_SIZE) 0) as [E|E]; cbn [negb].
    + destruct H as [H|[H|H]]; [lia | contradiction |].
      replace (pos >? n + 1) with true by (symmetry; rewrite Z.gtb_ltb; apply Z.ltb_lt; lia).
      exists (BadPositionRange (n + 1)). repeat split; discriminate.
    + exists InsertBadSize. repeat split; discriminate.
  - intros Hp Hm e He.
    replace (pos <? 1) with false by (symmetry; apply Z.ltb_ge; lia).
    rewrite Hm. cbn [Z.eqb negb].
    replace (pos >? n + 1) with false by (symmetry; rewrite Z.gtb_ltb; apply Z.ltb_ge; lia).
    now rewrite He.
Qed.

(** Deletion changes the file exactly when the size is a multiple of
    [RECORD_SIZE] and the position is in [1, n]; otherwise the file is left
    as it was.  It never raises and never lengthens the file. *)
Theorem delete_changes_iff (c : bytes) (pos : Z) :
  let n := getsize c / RECORD_SIZE in
  exists ls c',
    delete_record (Some c) pos = (ls, Some c')
    /\ (ls = [Deleted pos] <->
        getsize c mod RECORD_SIZE = 0 /\ 1 <= pos <= n)
    /\ (ls <> [Deleted pos] -> c' = c)
    /\ (ls = [Deleted pos] -> getsize c' = getsize c - RECORD_SIZE).
Proof.
  intros n. unfold delete_record. fold n.
  assert (Hkeep : forall msg, msg <> Deleted pos ->
            ~ (getsize c mod RECORD_SIZE = 0 /\ 1 <= pos <= n) ->
            exists ls c',
              ([msg], Some c) = (ls, Some c')
              /\ (ls = [Deleted pos] <->
                  getsize c mod RECORD_SIZE = 0 /\ 1 <= pos <= n)
              /\ (ls <> [Deleted pos] -> c' = c)
              /\ (ls = [Deleted pos] -> getsize c' = getsize c - RECORD_SIZE)).
  { intros msg Hmsg Hno. exists [msg], c. split; [reflexivity|].
    split; [split; [intros [= ?]; contradiction | intros ?; contradiction]|].
    split; [reflexivity | intros [= ?]; contradiction]. }
  destruct (Z.ltb_spec pos 1); [apply Hkeep; [discriminate | lia]|].
  destruct (Z.eqb_spec (getsize c mod RECORD_SIZE) 0) as [E|E]; cbn [negb];
    [|apply Hkeep; [discriminate | tauto]].
  destruct (Z.eqb_spec n 0) as [E0|E0]; [apply Hkeep; [discriminate | lia]|].
  destruct (Z.gtb_spec pos n); [apply Hkeep; [discriminate | lia]|].
  clear Hkeep.
  eexists. eexists. split; [reflexivity|].
  split; [split; [intros _; split; [assumption | lia] | reflexivity]|].
  split; [intros Hc; now contradiction Hc|].
  intros _.
  assert (Hc : length c = (Z.to_nat n * RS)%nat).
  { unfold n, getsize in *. rewrite RS_eq. rewrite RECORD_SIZE_eq in *.
    Z.to_euclidean_division_equations. lia. }
  destruct (consistent_chunks c (Z.to_nat n) Hc) as (l & -> & Hl & Hn).
  pose proof (delete_chunks l pos Hl ltac:(lia)) as Hd.
  unfold delete_record in Hd.
  replace (pos <? 1) with false in Hd by (symmetry; apply Z.ltb_ge; lia).
  rewrite E in Hd. cbn [Z.eqb negb] in Hd. fold n in Hd.
  replace (n =? 0) with false in Hd by (symmetry; apply Z.eqb_neq; lia).
  replace (pos >? n) with false in Hd by (symmetry; rewrite Z.gtb_ltb; apply Z.ltb_ge; lia).
  match goal with
  | |- getsize ?t = _ =>
      replace t with (concat (firstn (Z.to_nat (pos - 1)) l
                              ++ skipn (Z.to_nat pos) l)) by congruence
  end.
  unfold getsize.
  rewrite !concat_sized_length with (w := RS); try assumption.
  2:{ apply Forall_app. split; now apply Forall_firstn_skipn. }
  rewrite length_app, length_firstn, length_skipn, RS_eq, RECORD_SIZE_eq. lia.
Qed.

(** ** Instances of the further properties *)

(** The name of 21 letters is read back as its first 20. *)
Lemma unpack_pack_lossy_witness :
  pack_record long_name_record = Returned (block_of long_name_record)
  /\ unpack_record (block_of long_name_record) =
     Returned (mkRecord (rstrip0 (fit_prefix 20 (name long_name_record)))
                        (count long_name_record)
                        (f64_of_f32 (f32_of_f64 (price long_name_record)))
                        (rstrip0 (fit_prefix 15 (category long_name_record)))).
Proof.
  assert (H : pack_record long_name_record = Returned (block_of long_name_record))
    by (vm_compute; reflexivity).
  split; [exact H|].
  exact (unpack_pack_lossy long_name_record (block_of long_name_record) H).
Defined.

Lemma unpacked_record_fits_witness :
  length (block_of apple) = 43%nat
  /\ exists r nb cb,
       unpack_record (block_of apple) = Returned r
       /\ encode_utf8 (name r) = Returned nb /\ (length nb <= 20)%nat
       /\ encode_utf8 (category r) = Returned cb /\ (length cb <= 15)%nat
       /\ last (name r) 1 <> 0 /\ last (category r) 1 <> 0
       /\ -2147483648 <= count r <= 2147483647
       /\ single (price r).
Proof.
  assert (H : length (block_of apple) = 43%nat) by (vm_compute; reflexivity).
  split; [exact H|]. exact (unpacked_record_fits (block_of apple) H).
Defined.

(** A block of 43 bytes [xff], none of which starts a character. *)
Lemma unpack_then_pack_witness :
  length (repeat xff 43) = 43%nat
  /\ exists r b',
       unpack_record (repeat xff 43) = Returned r
       /\ pack_record r = Returned b'
       /\ unpack_record b' = Returned r.
Proof.
  assert (H : length (repeat xff 43) = 43%nat) by reflexivity.
  split; [exact H|]. exact (unpack_then_pack (repeat xff 43) H).
Defined.

Lemma insert_splices_witness :
  length two_record_db = (2 * RS)%nat
  /\ 1 <= 2 <= Z.of_nat 2 + 1
  /\ pack_record huge_price_record = Returned (block_of huge_price_record)
  /\ exists ls,
       insert_record_at (Some two_record_db) 2 huge_price_record =
       Returned (ls, Some (firstn (Z.to_nat ((2 - 1) * RECORD_SIZE)) two_record_db
                           ++ block_of huge_price_record
                           ++ skipn (Z.to_nat ((2 - 1) * RECORD_SIZE)) two_record_db)).
Proof.
  assert (H1 : length two_record_db = (2 * RS)%nat) by (vm_compute; reflexivity).
  assert (H2 : 1 <= 2 <= Z.of_nat 2 + 1) by (cbn; lia).
  assert (H3 : pack_record huge_price_record = Returned (block_of huge_price_record))
    by (vm_compute; reflexivity).
  split; [exact H1|]. split; [exact H2|]. split; [exact H3|].
  exact (insert_splices two_record_db 2 2 huge_price_record (block_of huge_price_record) H1 H2 H3).
Defined.

Lemma delete_cuts_witness :
  length two_record_db = (2 * RS)%nat
  /\ 1 <= 1 <= Z.of_nat 2
  /\ delete_record (Some two_record_db) 1 =
     ([Deleted 1],
      Some (firstn (Z.to_nat ((1 - 1) * RECORD_SIZE)) two_record_db
            ++ skipn (Z.to_nat (1 * RECORD_SIZE)) two_record_db)).
Proof.
  assert (H1 : length two_record_db = (2 * RS)%nat) by (vm_compute; reflexivity).
  assert (H2 : 1 <= 1 <= Z.of_nat 2) by (cbn; lia).
  split; [exact H1|]. split; [exact H2|].
  exact (delete_cuts two_record_db 2 1 H1 H2).
Defined.

Lemma insert_then_delete_witness :
  length two_record_db = (2 * RS)%nat
  /\ 1 <= 3 <= Z.of_nat 2 + 1
  /\ pack_record huge_price_record = Returned (block_of huge_price_record)
  /\ exists ls c',
       insert_record_at (Some two_record_db) 3 huge_price_record = Returned (ls, Some c')
       /\ delete_record (Some c') 3 = ([Deleted 3], Some two_record_db).
Proof.
  assert (H1 : length two_record_db = (2 * RS)%nat) by (vm_compute; reflexivity).
  assert (H2 : 1 <= 3 <= Z.of_nat 2 + 1) by (cbn; lia).
  assert (H3 : pack_record huge_price_record = Returned (block_of huge_price_record))
    by (vm_compute; reflexivity).
  split; [exact H1|]. split; [exact H2|]. split; [exact H3|].
  exact (insert_then_delete two_record_db 2 3 huge_price_record (block_of huge_price_record) H1 H2 H3).
Defined.

(** The search for [count] equal to ["2"], the field number typed as
    ["2"]. *)
Lemma one_field_search_rows_witness :
  length two_record_db = (2 * RS)%nat
  /\ (0 < 2)%nat
  /\ int_of_arg int_of_str (AStr [50]) = Some 2
  /\ 1 <= 2 <= 4
  /\ exists rows,
       print_db_from_file (Some two_record_db) = Some (Returned (DbHeader :: rows))
       /\ one_field_search int_of_str float_of_str (Some two_record_db)
            (AStr [50]) [50] =
          Some (Returned
                  (found_or_none
                     (filter (row_passes (field_ok int_of_str float_of_str 2 [50]))
                        rows))).
Proof.
  assert (H1 : length two_record_db = (2 * RS)%nat) by (vm_compute; reflexivity).
  assert (H2 : (0 < 2)%nat) by lia.
  assert (H3 : int_of_arg int_of_str (AStr [50]) = Some 2) by reflexivity.
  assert (H4 : 1 <= 2 <= 4) by lia.
  split; [exact H1|]. split; [exact H2|]. split; [exact H3|]. split; [exact H4|].
  exact (one_field_search_rows int_of_str float_of_str two_record_db 2
           (AStr [50]) 2 [50] H1 H2 H3 H4).
Defined.

(** The search for [count] equal to ["x"]. *)
Lemma unparsable_value_no_match_witness :
  length two_record_db = (2 * RS)%nat
  /\ (0 < 2)%nat
  /\ int_of_arg int_of_str (AInt 2) = Some 2
  /\ ((2 = 2 /\ int_of_str [120] = None) \/ (2 = 3 /\ float_of_str [120] = None))
  /\ one_field_search int_of_str float_of_str (Some two_record_db) (AInt 2) [120]
     = Some (Returned [NoMatches]).
Proof.
  assert (H1 : length two_record_db = (2 * RS)%nat) by (vm_compute; reflexivity).
  assert (H2 : (0 < 2)%nat) by lia.
  assert (H3 : int_of_arg int_of_str (AInt 2) = Some 2) by reflexivity.
  assert (H4 : (2 = 2 /\ int_of_str [120] = None)
               \/ (2 = 3 /\ float_of_str [120] = None))
    by (left; split; reflexivity).
  split; [exact H1|]. split; [exact H2|]. split; [exact H3|]. split; [exact H4|].
  exact (unparsable_value_no_match int_of_str float_of_str two_record_db 2
           (AInt 2) 2 [120] H1 H2 H3 H4).
Defined.

(** The search for the name ["book"] and [count] equal to ["2"]. *)
Lemma two_fields_search_rows_witness :
  length two_record_db = (2 * RS)%nat
  /\ (0 < 2)%nat
  /\ int_of_arg int_of_str (AInt 1) = Some 1
  /\ int_of_arg int_of_str (AStr [50]) = Some 2
  /\ 1 <= 1 <= 4 /\ 1 <= 2 <= 4 /\ 1 <> 2
  /\ exists rows,
       print_db_from_file (Some two_record_db) = Some (Returned (DbHeader :: rows))
       /\ two_fields_search int_of_str float_of_str (Some two_record_db)
            (AInt 1) (name book) (AStr [50]) [50] =
          Some (Returned
                  (found_or_none
                     (filter (row_passes (field_ok int_of_str float_of_str 2 [50]))
                        (filter (row_passes (field_ok int_of_str float_of_str 1
                                               (name book)))
                           rows)))).
Proof.
  assert (H1 : length two_record_db = (2 * RS)%nat) by (vm_compute; reflexivity).
  assert (H2 : (0 < 2)%nat) by lia.
  assert (H3 : int_of_arg int_of_str (AInt 1) = Some 1) by reflexivity.
  assert (H4 : int_of_arg int_of_str (AStr [50]) = Some 2) by reflexivity.
  assert (H5 : 1 <= 1 <= 4) by lia.
  assert (H6 : 1 <= 2 <= 4) by lia.
  assert (H7 : 1 <> 2) by lia.
  split; [exact H1|]. split; [exact H2|]. split; [exact H3|]. split; [exact H4|].
  split; [exact H5|]. split; [exact H6|]. split; [exact H7|].
  exact (two_fields_search_rows int_of_str float_of_str two_record_db 2
           (AInt 1) (AStr [50]) 1 2 (name book) [50] H1 H2 H3 H4 H5 H6 H7).
Defined.

(** The conditions ["=2"] and ["= 3.5"]. *)
Lemma digit_search_equal_witness :
  strip [61; 50] = EQ :: [50]
  /\ strip [50] <> []
  /\ has_dot (strip [50]) = false
  /\ int_of_str (strip [50]) <> None
  /\ digit_search int_of_str float_of_str (Some two_record_db) [61; 50] =
     one_field_search int_of_str float_of_str (Some two_record_db) (AInt 2)
       (strip [50]).
Proof.
  assert (H1 : strip [61; 50] = EQ :: [50]) by reflexivity.
  assert (H2 : strip [50] <> []) by (vm_compute; discriminate).
  assert (H3 : has_dot (strip [50]) = false) by reflexivity.
  assert (H4 : int_of_str (strip [50]) <> None) by (vm_compute; discriminate).
  split; [exact H1|]. split; [exact H2|]. split; [exact H3|]. split; [exact H4|].
  exact (proj1 (digit_search_equal int_of_str float_of_str two_record_db
                  [61; 50] [50] H1 H2) H3 H4).
Defined.

(** The generator of the program: its three records and their blocks. *)
Lemma init_db_writes_witness :
  let rs := [mkRecord [1103; 1073; 1083; 1086; 1082; 1086] 10
               (float_of_decimal false 35 (-1)) [1092; 1088; 1091; 1082; 1090];
             mkRecord [1082; 1085; 1080; 1075; 1072] 2
               (float_of_decimal false 7990 (-1)) [1090; 1086; 1074; 1072; 1088];
             mkRecord [1085; 1086; 1091; 1090; 1073; 1091; 1082] 1
               (float_of_decimal false 8999999 (-2))
               [1090; 1077; 1093; 1085; 1080; 1082; 1072]] in
  (forall j, (j < length rs)%nat -> generate_record (Z.of_nat j) = nth_error rs j)
  /\ generate_record (Z.of_nat (length rs)) = None
  /\ packed rs (map block_of rs)
  /\ (length rs < 4)%nat
  /\ init_db_binary (Some [x01]) =
     Some (Returned ([Initialized 3], Some (concat (map block_of rs))))
  /\ length (concat (map block_of rs)) = (3 * RS)%nat.
Proof.
  intros rs.
  assert (H1 : forall j, (j < length rs)%nat ->
                         generate_record (Z.of_nat j) = nth_error rs j).
  { intros j Hj. destruct j as [|[|[|j]]]; [reflexivity .. | cbn in Hj; lia]. }
  assert (H2 : generate_record (Z.of_nat (length rs)) = None) by reflexivity.
  assert (H3 : packed rs (map block_of rs))
    by (repeat constructor; vm_compute; reflexivity).
  assert (H4 : (length rs < 4)%nat) by (cbn; lia).
  split; [exact H1|]. split; [exact H2|]. split; [exact H3|]. split; [exact H4|].
  pose proof (init_db_writes generate_record rs (map block_of rs) 4 (Some [x01])
                H1 H2 H3 H4) as (E & L & _).
  split; [exact E | exact L].
Defined.


Lemma insert_then_find_witness :
  length two_record_db = (2 * RS)%nat
  /\ 1 <= 1 <= Z.of_nat 2 + 1
  /\ pack_record huge_price_record = Returned (block_of huge_price_record)
  /\ exists ls c' r' out,
       insert_record_at (Some two_record_db) 1 huge_price_record
       = Returned (ls, Some c')
       /\ unpack_record (block_of huge_price_record) = Returned r'
       /\ one_field_search int_of_str float_of_str (Some c') (AInt 1) (name r') =
          Some (Returned out)
       /\ In (Row 1 r') out.
Proof.
  assert (H1 : length two_record_db = (2 * RS)%nat) by (vm_compute; reflexivity).
  assert (H2 : 1 <= 1 <= Z.of_nat 2 + 1) by (cbn; lia).
  assert (H3 : pack_record huge_price_record = Returned (block_of huge_price_record))
    by (vm_compute; reflexivity).
  split; [exact H1|]. split; [exact H2|]. split; [exact H3|].
  exact (insert_then_find int_of_str float_of_str two_record_db 2 1
           huge_price_record (block_of huge_price_record) H1 H2 H3).
Defined.

Lemma delete_then_insert_back_witness :
  length two_record_db = (2 * RS)%nat
  /\ 1 <= 2 <= Z.of_nat 2
  /\ exists rows r c1 ls c2,
       print_db_from_file (Some two_record_db) = Some (Returned (DbHeader :: rows))
       /\ In (Row 2 r) rows
       /\ delete_record (Some two_record_db) 2 = ([Deleted 2], Some c1)
       /\ insert_record_at (Some c1) 2 r = Returned (ls, Some c2)
       /\ print_db_from_file (Some c2) = Some (Returned (DbHeader :: rows)).
Proof.
  assert (H1 : length two_record_db = (2 * RS)%nat) by (vm_compute; reflexivity).
  assert (H2 : 1 <= 2 <= Z.of_nat 2) by (cbn; lia).
  split; [exact H1|]. split; [exact H2|].
  exact (delete_then_insert_back two_record_db 2 2 H1 H2).
Defined.

(** A file of one byte refuses every record; the empty file raises on
    the record whose count is [2 ^ 31]. *)
Lemma insert_checks_first_witness :
  (1 < 1 \/ getsize [x01] mod RECORD_SIZE <> 0
   \/ getsize [x01] / RECORD_SIZE + 1 < 1)
  /\ (exists msg,
        insert_record_at (Some [x01]) 1 big_count_record =
        Returned ([msg], Some [x01])
        /\ msg <> Appended /\ msg <> Inserted 1)
  /\ 1 <= 1 <= getsize [] / RECORD_SIZE + 1
  /\ getsize [] mod RECORD_SIZE = 0
  /\ pack_record big_count_record = Raised StructError
  /\ insert_record_at (Some []) 1 big_count_record = Raised StructError.
Proof.
  assert (H1 : 1 < 1 \/ getsize [x01] mod RECORD_SIZE <> 0
               \/ getsize [x01] / RECORD_SIZE + 1 < 1)
    by (right; left; vm_compute; discriminate).
  assert (H2 : 1 <= 1 <= getsize [] / RECORD_SIZE + 1) by (vm_compute; split; discriminate).
  assert (H3 : getsize [] mod RECORD_SIZE = 0) by reflexivity.
  assert (H4 : pack_record big_count_record = Raised StructError)
    by (vm_compute; reflexivity).
  split; [exact H1|].
  split; [exact (proj1 (insert_checks_first [x01] 1 big_count_record) H1)|].
  split; [exact H2|]. split; [exact H3|]. split; [exact H4|].
  exact (proj2 (insert_checks_first [] 1 big_count_record) H2 H3 StructError H4).
Defined.

(** ** Which exception [pack_record] raises *)

Lemma encode_cp_raises (c : Z) (e : exn) :
  encode_cp c = Raised e -> e = UnicodeEncodeError.
Proof. unfold encode_cp. repeat destruct (_ : bool); congruence. Qed.

Lemma encode_utf8_raises (s : str) (e : exn) :
  encode_utf8 s = Raised e -> e = UnicodeEncodeError.
Proof.
  induction s as [|c s IH]; cbn [encode_utf8]; [discriminate|].
  destruct (encode_cp c) eqn:Ec; cbn [bind].
  - destruct (encode_utf8 s); cbn [bind]; [discriminate|]. intros [= <-]. now apply IH.
  - intros [= <-]. now apply (encode_cp_raises c).
Qed.

Lemma encode_utf8_cases (s : str) :
  (encodable s /\ exists b, encode_utf8 s = Returned b)
  \/ (~ encodable s /\ encode_utf8 s = Raised UnicodeEncodeError).
Proof.
  destruct (encode_utf8 s) as [b|e] eqn:E.
  - left. split; [apply encode_utf8_encodable|]; eauto.
  - right. rewrite (encode_utf8_raises s e E). split; [|reflexivity].
    intros H. apply encode_utf8_encodable in H as (b & Hb). congruence.
Qed.

Lemma pack_i_cases (n : Z) :
  (-2147483648 <= n <= 2147483647 /\ exists b, pack_i n = Returned b)
  \/ (~ -2147483648 <= n <= 2147483647 /\ pack_i n = Raised StructError).
Proof.
  unfold pack_i. destruct (_ && _) eqn:E.
  - left. apply andb_true_iff in E as (E1 & E2).
    apply Z.leb_le in E1, E2. split; [lia | eauto].
  - right. split; [|reflexivity]. intros H. apply andb_false_iff in E as [E|E];
      apply Z.leb_gt in E; lia.
Qed.

(** [pack_record] raises [UnicodeEncodeError] exactly when one of the two
    texts has a lone surrogate, whatever the numbers, and [struct.error]
    exactly when the texts are encodable and the count is out of the 32-bit
    range.  The price plays no part: no price makes [pack_record] raise. *)
Theorem pack_record_exception (r : record) (e : exn) :
  pack_record r = Raised e <->
  match e with
  | UnicodeEncodeError => ~ (encodable (name r) /\ encodable (category r))
  | StructError =>
      encodable (name r) /\ encodable (category r)
      /\ ~ -2147483648 <= count r <= 2147483647
  end.
Proof.
  unfold pack_record.
  destruct (encode_utf8_cases (name r)) as [(Hn & nb & En)|(Hn & En)];
    rewrite En; cbn [bind].
  2:{ destruct e; split; try discriminate; try tauto. }
  destruct (encode_utf8_cases (category r)) as [(Hc & cb & Ec)|(Hc & Ec)];
    rewrite Ec; cbn [bind].
  2:{ destruct e; split; try discriminate; try tauto. }
  destruct (pack_i_cases (count r)) as [(Hi & ib & Ei)|(Hi & Ei)];
    rewrite Ei; cbn [bind].
  2:{ destruct e; split; try discriminate; try tauto. }
  destruct e; split; try discriminate; tauto.
Qed.

(** A lone surrogate in the name is reported before a count of [2 ^ 31]. *)
Lemma pack_record_exception_witness :
  ~ (encodable (name (mkRecord [55296] 2147483648 (S754_zero false) []))
     /\ encodable (category (mkRecord [55296] 2147483648 (S754_zero false) [])))
  /\ pack_record (mkRecord [55296] 2147483648 (S754_zero false) [])
     = Raised UnicodeEncodeError.
Proof.
  assert (H : ~ (encodable (name (mkRecord [55296] 2147483648 (S754_zero false) []))
     /\ encodable (category (mkRecord [55296] 2147483648 (S754_zero false) [])))).
  { intros (H & _). inversion H as [|c s Hc _]; subst. lia. }
  split; [exact H|].
  exact (proj2 (pack_record_exception
                  (mkRecord [55296] 2147483648 (S754_zero false) [])
                  UnicodeEncodeError) H).
Defined.

(** ** The session *)

Lemma search_file_returns (ok : record -> bool) (c : bytes) :
  exists ls, search_file ok c = Some (Returned ls).
Proof.
  unfold search_file, f_open.
  destruct (inconsistent_chunks c (length c / RS) (length c mod RS))
    as (l & tail & -> & Hl & _ & Ht).
  - rewrite RS_eq. pose proof (Nat.div_mod_eq (length c) 43). lia.
  - apply Nat.mod_upper_bound. now rewrite RS_eq.
  - rewrite read_loop_chunks; [eauto | assumption |].
    rewrite Ht. apply Nat.mod_upper_bound. now rewrite RS_eq.
Qed.

Lemma init_db_binary_returns (d : disk) :
  exists c, init_db_binary d = Some (Returned ([Initialized 3], Some c)).
Proof. eexists. vm_compute. reflexivity. Qed.

Lemma insert_raises (c : bytes) (pos : Z) (r : record) (e : exn) :
  1 <= pos <= getsize c / RECORD_SIZE + 1 ->
  getsize c mod RECORD_SIZE = 0 ->
  pack_record r = Raised e ->
  insert_record_at (Some c) pos r = Raised e.
Proof.
  intros Hp Hm He. unfold insert_record_at.
  replace (pos <? 1) with false by (symmetry; apply Z.ltb_ge; lia).
  rewrite Hm. cbn [Z.eqb negb].
  replace (pos >? getsize c / RECORD_SIZE + 1) with false
    by (symmetry; rewrite Z.gtb_ltb; apply Z.ltb_ge; lia).
  now rewrite He.
Qed.

Section SessionProperties.

Variable py_int : str -> option Z.
Variable py_float : str -> option float.
Variable choose_file : io (option str).

Lemma one_field_search_returns (d : disk) (f : arg) (v : str) :
  exists ls, one_field_search py_int py_float d f v = Some (Returned ls).
Proof.
  unfold one_field_search. destruct d as [c|]; [|eauto].
  destruct (negb _); [eauto|]. destruct (_ =? 0); [eauto|].
  destruct (int_of_arg py_int f); [|eauto]. destruct (negb _); [eauto|].
  apply search_file_returns.
Qed.

Lemma two_fields_search_returns (d : disk) (f1 : arg) (v1 : str) (f2 : arg)
    (v2 : str) :
  exists ls, two_fields_search py_int py_float d f1 v1 f2 v2 = Some (Returned ls).
Proof.
  unfold two_fields_search. destruct d as [c|]; [|eauto].
  destruct (int_of_arg py_int f1); [|eauto].
  destruct (int_of_arg py_int f2); [|eauto].
  destruct (_ =? _); [eauto|]. destruct (_ || _); [eauto|].
  destruct (negb _); [eauto|]. destruct (_ =? 0); [eauto|].
  apply search_file_returns.
Qed.

Lemma digit_search_returns (d : disk) (condition : str) :
  exists ls, digit_search py_int py_float d condition = Some (Returned ls).
Proof.
  unfold digit_search. destruct d as [c|]; [|eauto].
  destruct (strip condition) as [|op rest]; [eauto|].
  destruct (negb _); [eauto|].
  destruct (strip rest) as [|a num]; [eauto|].
  destruct (parse_target _ _ _); [|eauto].
  destruct (negb _); [eauto|]. destruct (_ =? 0); [eauto|].
  apply search_file_returns.
Qed.

Lemma menu_eof (w : world) :
  stdin w = [] ->
  menu py_int w = Some (Failed EOFError, say [Ask AskMenu] (say menu_text w)).
Proof.
  intros H. unfold menu, io_bind, try_except_ValueError, input.
  cbn [say stdin]. now rewrite H.
Qed.

Lemma menu_line (w : world) (l : str) (t : list str) :
  stdin w = l :: t ->
  menu py_int w =
  Some (Done (match py_int l with Some n => n | None => -1 end),
        mkWorld t ((stdout w ++ menu_text) ++ [Ask AskMenu]) (files w)).
Proof.
  intros H. unfold menu, io_bind, try_except_ValueError, input, to_int.
  cbn [say stdin stdout files]. rewrite H.
  destruct (py_int l); reflexivity.
Qed.

(** Without a chosen file every choice from 2 to 8 only prints a line. *)
Lemma serve_without_file (choice : Z) (db_file : option str) (w : world) :
  chosen db_file = None ->
  exists u, serve py_int py_float choice db_file w = Some (Done tt, say [u] w).
Proof.
  intros H. unfold serve. rewrite H.
  repeat (destruct (choice =? _); [eexists; reflexivity|]).
  eexists; reflexivity.
Qed.

Lemma serve_no_file_reply (choice : Z) (db_file : option str) (w : world) :
  chosen db_file = None ->
  serve py_int py_float choice db_file w
  = Some (Done tt, say [no_file_reply choice] w).
Proof.
  intros H. unfold serve, no_file_reply. rewrite H.
  destruct (Z.eqb_spec choice 2) as [->|E2]; [reflexivity|].
  destruct (Z.eqb_spec choice 3) as [->|E3]; [reflexivity|].
  destruct (Z.eqb_spec choice 4) as [->|E4]; [reflexivity|].
  destruct (Z.eqb_spec choice 5) as [->|E5]; [reflexivity|].
  destruct (Z.eqb_spec choice 6) as [->|E6]; [reflexivity|].
  destruct (Z.eqb_spec choice 7) as [->|E7]; [reflexivity|].
  destruct (Z.eqb_spec choice 8) as [->|E8]; [reflexivity|].
  replace ((2 <=? choice) && (choice <=? 7)) with false; [reflexivity|].
  symmetry. apply andb_false_iff.
  destruct (Z.leb_spec 2 choice); [right; apply Z.leb_gt; lia | now left].
Qed.

(** As long as no file is chosen, a session changes no file.  When no
    line of the input is the choice 1, every line is read as a choice of the
    menu: for each line up to the first choice 9 the session prints the menu,
    the prompt and one reply (the choose-a-file line for the choices 2 to 8,
    the bad-item line for anything else), and nothing besides.  It returns
    after the farewell when a line is the choice 9, the lines after that one
    left unread; otherwise it prints the menu and the prompt once more and
    ends with [EOFError]. *)
Theorem session_without_file (fuel : nat) (db_file : option str) (w : world) :
  chosen db_file = None ->
  Forall (fun l => py_int l <> Some 1) (stdin w) ->
  (length (stdin w) < fuel)%nat ->
  exists r w',
    main_loop py_int py_float choose_file fuel db_file w = Some (r, w')
    /\ files w' = files w
    /\ stdout w' = stdout w ++ fst (idle_transcript py_int (stdin w))
    /\ stdin w' = snd (idle_transcript py_int (stdin w))
    /\ (r = Done tt <-> Exists (fun l => py_int l = Some 9) (stdin w))
    /\ (r = Done tt \/ (r = Failed EOFError /\ stdin w' = [])).
Proof.
  intros Hdb. revert w. induction fuel as [|k IH]; intros w Hall Hfuel; [lia|].
  cbn [main_loop]. unfold io_bind at 1.
  destruct (stdin w) as [|l t] eqn:Ein.
  - rewrite menu_eof by assumption. do 2 eexists. split; [reflexivity|].
    cbn [files stdout stdin say idle_transcript fst snd].
    split; [reflexivity|]. split; [now rewrite <- app_assoc|].
    split; [exact Ein|]. split.
    + split; [discriminate | intros H; inversion H].
    + right. split; [reflexivity | exact Ein].
  - rewrite (menu_line w l t Ein). inversion Hall as [|? ? Hl Ht]; subst.
    cbn [idle_transcript].
    set (choice := match py_int l with Some n => n | None => -1 end).
    assert (Hc : (choice =? 1) = false).
    { apply Z.eqb_neq. unfold choice. destruct (py_int l) as [n|]; [|lia].
      intros ->. now apply Hl. }
    assert (H9 : choice = 9 <-> py_int l = Some 9).
    { unfold choice. destruct (py_int l) as [n|]; split; intros H;
        congruence || discriminate || lia. }
    rewrite Hc. destruct (Z.eqb_spec choice 9) as [E9|E9].
    + do 2 eexists. split; [reflexivity|].
      cbn [files stdout stdin say print fst snd].
      split; [reflexivity|]. split; [now rewrite <- !app_assoc|].
      split; [reflexivity|].
      split; [|now left]. split; [intros _; left; now apply H9 | reflexivity].
    + unfold io_bind. rewrite (serve_no_file_reply choice db_file _ Hdb).
      match goal with
      | |- context [main_loop _ _ _ k db_file ?w0] =>
          destruct (IH w0) as (r & w' & E & F & O & I & D & R);
            [exact Ht | cbn [length] in Hfuel; cbn [say stdin]; lia |]
      end.
      cbn [say stdin stdout files] in F, O, I, D.
      exists r, w'. split; [exact E|]. split; [exact F|].
      destruct (idle_transcript py_int t) as [out rest].
      cbn [fst snd] in *.
      split; [rewrite O, <- !app_assoc; reflexivity|].
      split; [exact I|]. split; [|exact R].
      rewrite D. split; [intros H; now right|].
      intros H. inversion H as [? ? H0|? ? H0]; subst; [|exact H0].
      apply H9 in H0. contradiction.
Qed.

Lemma print_db_returns_any (d : disk) :
  exists ls, print_db_from_file d = Some (Returned ls).
Proof. destruct d as [c|]; [apply print_db_returns | eexists; reflexivity]. Qed.

Lemma upd_other (fs : str -> disk) (p q : str) (d : disk) :
  p <> q -> upd fs p d q = fs q.
Proof.
  intros H. unfold upd, str_eqb.
  destruct (list_eq_dec Z.eq_dec q p); [congruence | reflexivity].
Qed.

Ltac io_simpl :=
  unfold io_bind, try_except_ValueError, input, io_ret, io_fail, reading,
    writing, print, say;
  cbn [stdin stdout files].

Ltac io_case :=
  match goal with
  | |- context [match ?l with [] => _ | _ :: _ => _ end] => is_var l; destruct l
  | |- context [match py_int ?s with Some _ => _ | None => _ end] =>
      destruct (py_int s)
  | |- context [match py_float ?s with Some _ => _ | None => _ end] =>
      destruct (py_float s)
  end.

(** What serving one choice can do: it returns, reads input without
    putting any back, and touches no file but the chosen one; the scan and the
    searches touch none. *)
Lemma serve_effect (choice : Z) (db_file : option str) (w : world) :
  exists r w',
    serve py_int py_float choice db_file w = Some (r, w')
    /\ (length (stdin w') <= length (stdin w))%nat
    /\ (forall q, chosen db_file <> Some q -> files w' q = files w q)
    /\ (choice <> 2 -> choice <> 4 -> choice <> 5 -> files w' = files w).
Proof.
  destruct (chosen db_file) as [p|] eqn:Hdb.
  2:{ destruct (serve_without_file choice db_file w Hdb) as (u & ->).
      do 2 eexists. split; [reflexivity|]. cbn. repeat split; auto. }
  destruct w as [inp out fs]. unfold serve. rewrite Hdb.
  assert (Hupd : forall d q, Some p <> Some q -> upd fs p d q = fs q).
  { intros d q H. apply upd_other. congruence. }
  destruct (Z.eqb_spec choice 2) as [E2|E2].
  { io_simpl. destruct (init_db_binary_returns (fs p)) as (c & ->).
    do 2 eexists. split; [reflexivity|]. cbn [stdin files].
    split; [lia|]. split; [intros; now apply Hupd | contradiction]. }
  destruct (Z.eqb_spec choice 3) as [E3|E3].
  { io_simpl. destruct (print_db_returns_any (fs p)) as (ls & ->).
    do 2 eexists. split; [reflexivity|]. cbn [stdin files]. auto. }
  destruct (Z.eqb_spec choice 4) as [E4|E4].
  { unfold io_bind, try_except_ValueError, input, to_int, to_float, io_ret,
      io_fail, writing, print, say. cbn [stdin stdout files].
    repeat (io_case; cbn [stdin stdout files is_ValueError length]);
      try (do 2 eexists; split; [reflexivity|]; cbn [stdin files length];
           split; [lia|]; split; [reflexivity | contradiction]).
    destruct (insert_record_at _ _ _) as [[ls d]|[]]; cbn [is_ValueError];
      do 2 eexists; (split; [reflexivity|]); cbn [stdin files length];
      (split; [lia|]); (split; [|contradiction]);
      first [intros; now apply Hupd | reflexivity]. }
  destruct (Z.eqb_spec choice 5) as [E5|E5].
  { unfold io_bind, try_except_ValueError, input, to_int, to_float, io_ret,
      io_fail, writing, print, say. cbn [stdin stdout files].
    repeat (io_case; cbn [stdin stdout files is_ValueError length]);
      try (do 2 eexists; split; [reflexivity|]; cbn [stdin files length];
           split; [lia|]; split; [reflexivity | contradiction]).
    destruct (delete_record _ _) as [ls d].
    do 2 eexists. split; [reflexivity|]. cbn [stdin files length].
    split; [lia|]. split; [intros; now apply Hupd | contradiction]. }
  destruct (Z.eqb_spec choice 6) as [E6|E6].
  { unfold io_bind, input, reading, say. cbn [stdin stdout files].
    repeat (io_case; cbn [stdin stdout files length]);
      try (do 2 eexists; split; [reflexivity|]; cbn [stdin files length];
           split; [lia|]; split; reflexivity).
    match goal with
    | |- context [one_field_search _ _ ?d ?f ?v] =>
        destruct (one_field_search_returns d f v) as (ls & ->)
    end.
    do 2 eexists. split; [reflexivity|]. cbn [stdin files length].
    split; [lia|]. split; reflexivity. }
  destruct (Z.eqb_spec choice 7) as [E7|E7].
  { unfold io_bind, input, reading, say. cbn [stdin stdout files].
    repeat (io_case; cbn [stdin stdout files length]);
      try (do 2 eexists; split; [reflexivity|]; cbn [stdin files length];
           split; [lia|]; split; reflexivity).
    match goal with
    | |- context [two_fields_search _ _ ?d ?f1 ?v1 ?f2 ?v2] =>
        destruct (two_fields_search_returns d f1 v1 f2 v2) as (ls & ->)
    end.
    do 2 eexists. split; [reflexivity|]. cbn [stdin files length].
    split; [lia|]. split; reflexivity. }
  destruct (Z.eqb_spec choice 8) as [E8|E8].
  { unfold io_bind, input, reading, print, say. cbn [stdin stdout files].
    repeat (io_case; cbn [stdin stdout files length]);
      try (do 2 eexists; split; [reflexivity|]; cbn [stdin files length];
           split; [lia|]; split; reflexivity).
    match goal with
    | |- context [digit_search _ _ ?d ?c] =>
        destruct (digit_search_returns d c) as (ls & ->)
    end.
    do 2 eexists. split; [reflexivity|]. cbn [stdin files length].
    split; [lia|]. split; reflexivity. }
  do 2 eexists. split; [reflexivity|]. cbn [stdin files say]. auto.
Qed.

(** Serving one choice of the menu touches no file but the chosen one, and
    only initialisation, insertion and deletion (choices 2, 4 and 5) touch
    that one: the scan and the three searches leave every file as it is. *)
Theorem serve_touches_chosen_file (choice : Z) (db_file : option str)
    (w : world) :
  exists r w',
    serve py_int py_float choice db_file w = Some (r, w')
    /\ (forall q, chosen db_file <> Some q -> files w' q = files w q)
    /\ (choice <> 2 -> choice <> 4 -> choice <> 5 -> files w' = files w).
Proof.
  destruct (serve_effect choice db_file w) as (r & w' & E & _ & F & R).
  exists r, w'. auto.
Qed.

Lemma main_loop_ends (fuel : nat) (db_file : option str) (w : world) :
  (forall w0, exists r w1,
      choose_file w0 = Some (r, w1)
      /\ (length (stdin w1) <= length (stdin w0))%nat) ->
  (length (stdin w) < fuel)%nat ->
  exists r w',
    main_loop py_int py_float choose_file fuel db_file w = Some (r, w')
    /\ (r = Done tt -> exists out, stdout w' = out ++ [Bye]).
Proof.
  intros Hch. revert db_file w.
  induction fuel as [|k IH]; intros db_file w Hfuel; [lia|].
  cbn [main_loop]. unfold io_bind at 1.
  destruct (stdin w) as [|l t] eqn:Ein.
  - rewrite menu_eof by assumption. do 2 eexists. split; [reflexivity|].
    discriminate.
  - rewrite (menu_line w l t Ein). cbn [length] in Hfuel.
    set (choice := match py_int l with Some n => n | None => -1 end).
    set (w0 := mkWorld t ((stdout w ++ menu_text) ++ [Ask AskMenu]) (files w)).
    destruct (choice =? 1).
    + unfold io_bind. destruct (Hch w0) as (r & w1 & -> & Hlen).
      destruct r as [db|f].
      * apply IH. cbn [stdin w0] in Hlen. lia.
      * do 2 eexists. split; [reflexivity | discriminate].
    + destruct (choice =? 9).
      * do 2 eexists. split; [reflexivity|]. intros _. eexists. reflexivity.
      * unfold io_bind.
        destruct (serve_effect choice db_file w0) as (r & w1 & -> & Hlen & _).
        destruct r as [[]|f].
        -- apply IH. cbn [stdin w0] in Hlen. lia.
        -- do 2 eexists. split; [reflexivity | discriminate].
Qed.

(** Every session on a finite input ends, provided [choose_file] returns
    and puts no input back: each turn of the loop reads at least the line of
    the menu, so [main] returns or an exception escapes (at the latest
    [EOFError] when the input is used up).  It returns only through the
    choice 9, the last line printed being the farewell. *)
Theorem main_ends (fuel : nat) (db_file : option str) (w : world) :
  (forall w0, exists r w1,
      choose_file w0 = Some (r, w1)
      /\ (length (stdin w1) <= length (stdin w0))%nat) ->
  (length (stdin w) < fuel)%nat ->
  exists r w',
    main_loop py_int py_float choose_file fuel db_file w = Some (r, w')
    /\ (r = Done tt -> exists out, stdout w' = out ++ [Bye]).
Proof. apply main_loop_ends. Qed.

(** The insertion dialogue with a record that [pack_record] refuses, at a
    valid position of a consistent file: [struct.error] escapes from [main],
    which ends there, the six lines read and no file changed;
    [UnicodeEncodeError] is caught as a [ValueError], the input-error line is
    printed and the session goes on. *)
Theorem insert_failure_in_session (k : nat) (p : str) (w : world)
    (l0 l1 nm l3 l4 cat : str) (rest : list str) (c : bytes)
    (pos cnt : Z) (x : float) (e : exn) :
  p <> [] ->
  stdin w = l0 :: l1 :: nm :: l3 :: l4 :: cat :: rest ->
  py_int l0 = Some 4 -> py_int l1 = Some pos -> py_int l3 = Some cnt ->
  py_float l4 = Some x ->
  files w p = Some c ->
  getsize c mod RECORD_SIZE = 0 ->
  1 <= pos <= getsize c / RECORD_SIZE + 1 ->
  pack_record (mkRecord nm cnt x cat) = Raised e ->
  let w1 := mkWorld rest
              (stdout w ++ menu_text
               ++ map Ask [AskMenu; AskInsertPos; AskName; AskCount; AskPrice;
                           AskCategory])
              (files w) in
  main_loop py_int py_float choose_file (S k) (Some p) w =
  match e with
  | UnicodeEncodeError =>
      main_loop py_int py_float choose_file k (Some p) (say [InputError] w1)
  | StructError => Some (Failed (Exn StructError), w1)
  end.
Proof.
  intros Hp Hin H0 H1 H3 H4 Hf Hm Hpos He w1.
  assert (Hins : insert_record_at (Some c) pos (mkRecord nm cnt x cat) = Raised e)
    by now apply insert_raises.
  cbn [main_loop]. unfold io_bind at 1.
  rewrite (menu_line w l0 _ Hin), H0.
  change (4 =? 1) with false. change (4 =? 9) with false. cbv iota.
  unfold serve. change (4 =? 2) with false. change (4 =? 3) with false.
  change (4 =? 4) with true. cbv iota.
  assert (Hc : chosen (Some p) = Some p) by (destruct p; [contradiction | reflexivity]).
  rewrite Hc.
  unfold io_bind, try_except_ValueError, input, to_int, to_float, io_ret,
    io_fail, writing, print, say. cbn [stdin stdout files].
  rewrite H1. cbn [stdin stdout files]. rewrite H3. cbn [stdin stdout files].
  rewrite H4. cbn [stdin stdout files]. rewrite Hf, Hins.
  unfold w1, say. cbn [map stdin stdout files].
  rewrite <- !app_assoc. cbn [app].
  destruct e; reflexivity.
Qed.

End SessionProperties.

(** ** Instances of the session properties *)

(** The lines ["2"], ["x"], ["8"], ["9"] and ["3"] typed before any file
    is chosen: three replies, the farewell, and the last line left unread. *)
Lemma session_without_file_witness :
  let w := mkWorld [[50]; [120]; [56]; [57]; [51]] [] (fun _ => None) in
  chosen None = None
  /\ Forall (fun l => int_of_str l <> Some 1) (stdin w)
  /\ (length (stdin w) < 6)%nat
  /\ fst (idle_transcript int_of_str (stdin w))
     = menu_text ++ [Ask AskMenu; ChooseFileFirst]
       ++ menu_text ++ [Ask AskMenu; BadMenuItem]
       ++ menu_text ++ [Ask AskMenu; ChooseDbFileFirst]
       ++ menu_text ++ [Ask AskMenu; Bye]
  /\ exists r w',
       main_loop int_of_str float_of_str (io_ret None) 6 None w = Some (r, w')
       /\ files w' = files w
       /\ stdout w' = stdout w ++ fst (idle_transcript int_of_str (stdin w))
       /\ stdin w' = snd (idle_transcript int_of_str (stdin w))
       /\ (r = Done tt <-> Exists (fun l => int_of_str l = Some 9) (stdin w))
       /\ (r = Done tt \/ (r = Failed EOFError /\ stdin w' = [])).
Proof.
  intros w.
  assert (H1 : chosen None = None) by reflexivity.
  assert (H2 : Forall (fun l => int_of_str l <> Some 1) (stdin w))
    by (repeat constructor; vm_compute; discriminate).
  assert (H3 : (length (stdin w) < 6)%nat) by (cbn; lia).
  split; [exact H1|]. split; [exact H2|]. split; [exact H3|].
  split; [vm_compute; reflexivity|].
  exact (session_without_file int_of_str float_of_str (io_ret None) 6 None w
           H1 H2 H3).
Defined.

(** A [choose_file] that is cancelled at once, and the lines ["1"] and
    ["3"]. *)
Lemma main_ends_witness :
  let w := mkWorld [[49]; [51]] [] (fun _ => None) in
  (forall w0, exists r w1,
      io_ret (@None str) w0 = Some (r, w1)
      /\ (length (stdin w1) <= length (stdin w0))%nat)
  /\ (length (stdin w) < 3)%nat
  /\ exists r w',
       main_loop int_of_str float_of_str (io_ret None) 3 None w = Some (r, w')
       /\ (r = Done tt -> exists out, stdout w' = out ++ [Bye]).
Proof.
  intros w.
  assert (H1 : forall w0, exists r w1,
             io_ret (@None str) w0 = Some (r, w1)
             /\ (length (stdin w1) <= length (stdin w0))%nat).
  { intros w0. exists (Done None), w0. split; [reflexivity | lia]. }
  assert (H2 : (length (stdin w) < 3)%nat) by (cbn; lia).
  split; [exact H1|]. split; [exact H2|].
  exact (main_ends int_of_str float_of_str (io_ret None) 3 None w H1 H2).
Defined.

(** The count [2147483648] typed in the insertion dialogue, on the empty
    file ["d"]. *)
Lemma insert_failure_in_session_witness :
  let w := mkWorld [[52]; [49]; [97]; [50; 49; 52; 55; 52; 56; 51; 54; 52; 56];
                    [49; 46; 53]; [98]] [] (fun _ => Some []) in
  [100] <> []
  /\ int_of_str [52] = Some 4 /\ int_of_str [49] = Some 1
  /\ int_of_str [50; 49; 52; 55; 52; 56; 51; 54; 52; 56] = Some 2147483648
  /\ float_of_str [49; 46; 53] = Some (float_of_decimal false 15 (-1))
  /\ getsize [] mod RECORD_SIZE = 0
  /\ 1 <= 1 <= getsize [] / RECORD_SIZE + 1
  /\ pack_record (mkRecord [97] 2147483648 (float_of_decimal false 15 (-1)) [98])
     = Raised StructError
  /\ main_loop int_of_str float_of_str (io_ret None) 1 (Some [100]) w =
     Some (Failed (Exn StructError),
           mkWorld []
             (stdout w ++ menu_text
              ++ map Ask [AskMenu; AskInsertPos; AskName; AskCount; AskPrice;
                          AskCategory])
             (files w)).
Proof.
  intros w.
  assert (H0 : [100] <> []) by discriminate.
  assert (H1 : int_of_str [52] = Some 4) by reflexivity.
  assert (H2 : int_of_str [49] = Some 1) by reflexivity.
  assert (H3 : int_of_str [50; 49; 52; 55; 52; 56; 51; 54; 52; 56]
               = Some 2147483648) by reflexivity.
  assert (H4 : float_of_str [49; 46; 53] = Some (float_of_decimal false 15 (-1)))
    by (vm_compute; reflexivity).
  assert (H5 : getsize [] mod RECORD_SIZE = 0) by reflexivity.
  assert (H6 : 1 <= 1 <= getsize [] / RECORD_SIZE + 1)
    by (vm_compute; split; discriminate).
  assert (H7 : pack_record (mkRecord [97] 2147483648
                              (float_of_decimal false 15 (-1)) [98])
               = Raised StructError) by (vm_compute; reflexivity).
  repeat (split; [assumption|]).
  exact (insert_failure_in_session int_of_str float_of_str (io_ret None) 0 [100] w
           [52] [49] [97] [50; 49; 52; 55; 52; 56; 51; 54; 52; 56] [49; 46; 53] [98]
           [] [] 1 2147483648 (float_of_decimal false 15 (-1)) StructError
           H0 eq_refl H1 H2 H3 H4 eq_refl H5 H6 H7).
Defined.

(** ** The chooser *)

Lemma init_db_binary_eq (d : disk) :
  init_db_binary d = Some (Returned ([Initialized 3], Some initial_db)).
Proof. vm_compute. reflexivity. Qed.

Section ChooserProperties.

Variable py_int : str -> option Z.
Variable py_lower : str -> str.
Variable list_files : (str -> disk) -> list str.
Variable join_folder : str -> str.
Variable abspath : str -> str.
Variable isdir : str -> bool.

Lemma init_at_effect (p : str) (w : world) :
  init_at isdir p w = Some (Failed OSError, w)
  \/ init_at isdir p w =
     Some (Done tt, mkWorld (stdin w) (stdout w ++ [Op (Initialized 3)])
                            (upd (files w) p (Some initial_db))).
Proof.
  unfold init_at. destruct (isdir p); [now left|]. right.
  unfold writing. now rewrite init_db_binary_eq.
Qed.

Lemma choose_any_file_loop_effect (fuel : nat) :
  forall w, (length (stdin w) < fuel)%nat ->
  exists r w',
    choose_any_file_loop py_lower abspath isdir fuel w = Some (r, w')
    /\ (length (stdin w') <= length (stdin w))%nat
    /\ chooser_effect r w w'.
Proof.
  induction fuel as [|k IH]; intros w Hfuel; [lia|].
  destruct w as [inp out fs]. cbn [choose_any_file_loop stdin] in *.
  unfold io_bind at 1. unfold input. cbn [stdin stdout files].
  destruct inp as [|l t].
  { do 2 eexists. split; [reflexivity|]. split; [cbn; lia | reflexivity]. }
  destruct (strip l) as [|a path].
  { do 2 eexists. split; [reflexivity|]. split; [cbn; lia | reflexivity]. }
  cbv zeta. cbn [length] in Hfuel.
  destruct (isdir (abspath (a :: path))) eqn:Hdir.
  { unfold io_bind, chooser_says, say. cbn [stdin stdout files].
    match goal with
    | |- context [choose_any_file_loop _ _ _ k ?w0] =>
        destruct (IH w0) as (r & w' & E & L & F); [cbn [stdin]; lia|]
    end.
    exists r, w'. split; [exact E|]. split; [cbn [stdin length] in *; lia | exact F]. }
  unfold io_bind at 1. unfold path_exists. cbn [files]. rewrite Hdir. cbn [orb].
  destruct (is_some (fs (abspath (a :: path)))).
  { unfold io_bind at 1. unfold chooser_says, say. cbn [stdin stdout files].
    unfold io_bind.
    match goal with
    | |- context [init_at isdir ?p ?w0] =>
        destruct (init_at_effect p w0) as [-> | ->]
    end; do 2 eexists; (split; [reflexivity|]); cbn [stdin length];
      (split; [lia | reflexivity]). }
  unfold io_bind at 1. unfold input. cbn [stdin stdout files].
  destruct t as [|ans t].
  { do 2 eexists. split; [reflexivity|]. split; [cbn; lia | reflexivity]. }
  destruct (str_eqb _ _).
  { unfold io_bind.
    match goal with
    | |- context [init_at isdir ?p ?w0] =>
        destruct (init_at_effect p w0) as [-> | ->]
    end; do 2 eexists; (split; [reflexivity|]); cbn [stdin length];
      (split; [lia | reflexivity]). }
  unfold io_bind, chooser_says, say. cbn [stdin stdout files].
  match goal with
  | |- context [choose_any_file_loop _ _ _ k ?w0] =>
      destruct (IH w0) as (r & w' & E & L & F); [cbn [stdin length] in *; lia|]
  end.
  exists r, w'. split; [exact E|]. split; [cbn [stdin length] in *; lia | exact F].
Qed.

Lemma choose_file_effect (w : world) :
  exists r w',
    choose_file py_int py_lower list_files join_folder abspath isdir w
    = Some (r, w')
    /\ (length (stdin w') <= length (stdin w))%nat
    /\ chooser_effect r w w'.
Proof.
  destruct w as [inp out fs]. unfold choose_file.
  unfold io_bind at 1. unfold chooser_says at 1. unfold say. cbn [stdin stdout files].
  unfold io_bind at 1. unfold try_except_ValueError, io_bind, input, to_int,
    io_ret, io_fail. cbn [stdin stdout files].
  destruct inp as [|l t].
  { do 2 eexists. split; [reflexivity|]. split; [cbn; lia | reflexivity]. }
  destruct (py_int l) as [mode|]; cbn [is_ValueError].
  2:{ do 2 eexists. split; [reflexivity|]. split; [cbn; lia | reflexivity]. }
  destruct (mode =? 1).
  { cbn [files]. set (fl := list_files fs).
    set (shown := FilesTitle :: _).
    unfold io_bind, chooser_says, input, to_int, io_ret, io_fail, say.
    cbn [stdin stdout files]. destruct t as [|l2 t].
    { do 2 eexists. split; [reflexivity|]. split; [cbn; lia | reflexivity]. }
    destruct (py_int l2) as [choice|].
    2:{ do 2 eexists. split; [reflexivity|]. split; [cbn; lia | reflexivity]. }
    cbn [stdin stdout files].
    destruct (_ && _).
    { match goal with
      | |- context [init_at isdir ?p ?w0] =>
          destruct (init_at_effect p w0) as [-> | ->]
      end; do 2 eexists; (split; [reflexivity|]); cbn [stdin length];
        (split; [lia | reflexivity]). }
    destruct (choice =? _).
    2:{ do 2 eexists. split; [reflexivity|]. split; [cbn; lia | reflexivity]. }
    cbn [stdin stdout files]. destruct t as [|filename t].
    { do 2 eexists. split; [reflexivity|]. split; [cbn; lia | reflexivity]. }
    unfold path_exists. cbn [files stdin stdout].
    destruct (isdir (join_folder filename) || _); cbn [stdin stdout files];
      match goal with
      | |- context [init_at isdir ?p ?w0] =>
          destruct (init_at_effect p w0) as [-> | ->]
      end; do 2 eexists; (split; [reflexivity|]); cbn [stdin length];
        (split; [lia | reflexivity]). }
  destruct (mode =? 2).
  2:{ unfold io_bind, chooser_says, io_ret, say. cbn [stdin stdout files].
      do 2 eexists. split; [reflexivity|]. split; [cbn; lia | reflexivity]. }
  unfold choose_any_file.
  match goal with
  | |- context [choose_any_file_loop _ _ _ ?f ?w0] =>
      destruct (choose_any_file_loop_effect f w0) as (r & w' & E & L & F);
        [cbn [stdin]; lia|]
  end.
  exists r, w'. split; [exact E|]. split; [cbn [stdin length] in *; lia | exact F].
Qed.

(** The chooser always returns or fails, whatever is typed, and puts no
    input back.  When it returns a name, the file of that name is what
    [init_db_binary] writes, whatever it held before: choosing an existing
    store erases it.  No other file is changed, and none at all when the
    chooser returns [None] or fails. *)
Theorem choose_file_initialises (w : world) :
  exists r w',
    choose_file py_int py_lower list_files join_folder abspath isdir w
    = Some (r, w')
    /\ (length (stdin w') <= length (stdin w))%nat
    /\ match r with
       | Done (Some p) =>
           (exists c,
              files w' p = Some c
              /\ init_db_binary (files w p) =
                 Some (Returned ([Initialized 3], Some c))
              /\ length c = (3 * RS)%nat)
           /\ (forall q, q <> p -> files w' q = files w q)
       | _ => files w' = files w
       end.
Proof.
  destruct (choose_file_effect w) as (r & w' & E & L & F).
  exists r, w'. split; [exact E|]. split; [exact L|].
  destruct r as [[p|]|f]; cbn [chooser_effect] in F; try exact F.
  rewrite F. split.
  - exists initial_db. split; [|split].
    + unfold upd. now rewrite str_eqb_refl.
    + apply init_db_binary_eq.
    + vm_compute. reflexivity.
  - intros q Hq. apply upd_other. congruence.
Qed.

(** The program ends on every finite input: [main] returns, through the
    choice 9, or an exception escapes. *)
Theorem program_ends (py_float : str -> option float) (fuel : nat) (w : world) :
  (length (stdin w) < fuel)%nat ->
  exists r w',
    program py_int py_float py_lower list_files join_folder abspath isdir fuel w
    = Some (r, w')
    /\ (r = Done tt -> exists out, stdout w' = out ++ [Bye]).
Proof.
  intros Hfuel. unfold program, main. apply main_loop_ends; [|exact Hfuel].
  intros w0. destruct (choose_file_effect w0) as (r & w1 & E & L & _). eauto.
Qed.

End ChooserProperties.

(** ** Instances of the chooser properties *)

(** An empty directory, paths taken as they are, and the lines ["1"],
    ["2"], ["d"], ["y"], ["3"], ["9"]: the file ["d"] is created by path,
    scanned, and the program is left. *)
Lemma program_ends_witness :
  let w := mkWorld [[49]; [50]; [100]; [121]; [51]; [57]] [] (fun _ => None) in
  (length (stdin w) < 7)%nat
  /\ exists r w',
       program int_of_str float_of_str (map lower) (fun _ => []) (fun f => f)
         (fun f => f) (fun _ => false) 7 w = Some (r, w')
       /\ (r = Done tt -> exists out, stdout w' = out ++ [Bye]).
Proof.
  intros w.
  assert (H : (length (stdin w) < 7)%nat) by (cbn; lia).
  split; [exact H|].
  exact (program_ends int_of_str (map lower) (fun _ => []) (fun f => f)
           (fun f => f) (fun _ => false) float_of_str 7 w H).
Defined.

(** ** The size of the file stays a multiple of the record size *)

Lemma consistent_length (c : bytes) :
  getsize c mod RECORD_SIZE = 0 ->
  length c = (Z.to_nat (getsize c / RECORD_SIZE) * RS)%nat.
Proof.
  unfold getsize. rewrite RECORD_SIZE_eq, RS_eq. intros H.
  Z.to_euclidean_division_equations. lia.
Qed.

Lemma concat_consistent (l : list bytes) :
  Forall (sized RS) l -> getsize (concat l) mod RECORD_SIZE = 0.
Proof.
  intros Hl. unfold getsize.
  rewrite concat_sized_length with (w := RS) by assumption.
  rewrite RS_eq, RECORD_SIZE_eq, Nat2Z.inj_mul. apply Z.mod_mul. lia.
Qed.

Lemma insert_keeps_consistent (d : disk) (pos : Z) (r : record)
    (ls : list line) (d' : disk) :
  consistent d -> insert_record_at d pos r = Returned (ls, d') -> consistent d'.
Proof.
  destruct d as [c|]; cbn [consistent]; [|intros _ [= _ <-]; exact I].
  intros Hm. pose proof (consistent_length c Hm) as Hc.
  destruct (consistent_chunks c _ Hc) as (l & -> & Hl & Hn).
  destruct (Z.ltb_spec pos 1) as [Hlt|Hge].
  { unfold insert_record_at.
    replace (pos <? 1) with true by (symmetry; apply Z.ltb_lt; lia).
    intros [= _ <-]. exact Hm. }
  destruct (Z.ltb_spec (Z.of_nat (length l) + 1) pos) as [Hbig|Hok].
  { unfold insert_record_at.
    replace (pos <? 1) with false by (symmetry; apply Z.ltb_ge; lia).
    rewrite Hm. cbn [Z.eqb negb].
    replace (pos >? _) with true.
    - intros [= _ <-]. exact Hm.
    - symmetry. rewrite Z.gtb_ltb. apply Z.ltb_lt.
      rewrite Hn, Z2Nat.id in Hbig; [exact Hbig|].
      apply Z.div_pos; [unfold getsize; lia | now rewrite RECORD_SIZE_eq]. }
  destruct (pack_record r) as [blk|e] eqn:Hr.
  - rewrite (insert_chunks l pos r blk Hl) by (assumption || lia).
    intros [= _ <-]. cbn [consistent]. apply concat_consistent.
    apply Forall_app. split; [now apply Forall_firstn_skipn|].
    constructor; [now apply (pack_record_length r) | now apply Forall_firstn_skipn].
  - rewrite insert_raises with (e := e); [discriminate | | exact Hm | exact Hr].
    rewrite Hn, Z2Nat.id in Hok; [lia|].
    apply Z.div_pos; [unfold getsize; lia | now rewrite RECORD_SIZE_eq].
Qed.

Lemma delete_keeps_consistent (d : disk) (pos : Z) (ls : list line) (d' : disk) :
  consistent d -> delete_record d pos = (ls, d') -> consistent d'.
Proof.
  destruct d as [c|]; cbn [consistent]; [|intros _ [= _ <-]; exact I].
  intros Hm. pose proof (consistent_length c Hm) as Hc.
  destruct (consistent_chunks c _ Hc) as (l & -> & Hl & Hn).
  assert (Hdiv : getsize (concat l) / RECORD_SIZE = Z.of_nat (length l)).
  { rewrite Hn, Z2Nat.id; [reflexivity|].
    apply Z.div_pos; [unfold getsize; lia | now rewrite RECORD_SIZE_eq]. }
  destruct (Z.ltb_spec pos 1) as [Hlt|Hge].
  { unfold delete_record.
    replace (pos <? 1) with true by (symmetry; apply Z.ltb_lt; lia).
    intros [= _ <-]. exact Hm. }
  destruct (Z.ltb_spec (Z.of_nat (length l)) pos) as [Hbig|Hok].
  { unfold delete_record.
    replace (pos <? 1) with false by (symmetry; apply Z.ltb_ge; lia).
    rewrite Hm. cbn [Z.eqb negb]. rewrite Hdiv.
    destruct (_ =? 0); [intros [= _ <-]; exact Hm|].
    replace (pos >? _) with true
      by (symmetry; rewrite Z.gtb_ltb; apply Z.ltb_lt; lia).
    intros [= _ <-]. exact Hm. }
  rewrite (delete_chunks l pos Hl) by lia.
  intros [= _ <-]. cbn [consistent]. apply concat_consistent.
  apply Forall_app. split; now apply Forall_firstn_skipn.
Qed.

(** Insertion and deletion keep the size of a file a multiple of
    [RECORD_SIZE], whatever the position and the record, and they never
    create a file that is absent. *)
Theorem store_stays_consistent (d : disk) :
  consistent d ->
  (forall pos r ls d',
      insert_record_at d pos r = Returned (ls, d') ->
      consistent d' /\ (d = None -> d' = None))
  /\ (forall pos ls d',
      delete_record d pos = (ls, d') ->
      consistent d' /\ (d = None -> d' = None)).
Proof.
  intros Hd. split.
  - intros pos r ls d' H. split; [now apply (insert_keeps_consistent d pos r ls)|].
    intros ->. now injection H as _ <-.
  - intros pos ls d' H. split; [now apply (delete_keeps_consistent d pos ls)|].
    intros ->. now injection H as _ <-.
Qed.

(** Deleting the first record [n] times empties a consistent file of [n]
    records, each deletion printing its message; on the file that is left a
    further deletion prints the empty-store message. *)
Theorem delete_first_empties (c : bytes) (n : nat) :
  length c = (n * RS)%nat ->
  delete_first n (Some c) = (repeat (Deleted 1) n, Some [])
  /\ delete_record (Some []) 1 = ([EmptyDb], Some []).
Proof.
  intros Hc. split; [|reflexivity].
  revert c Hc. induction n as [|n IH]; intros c Hc.
  - destruct c; [reflexivity | discriminate].
  - cbn [delete_first repeat].
    destruct (consistent_chunks c (S n) Hc) as (l & -> & Hl & Hn).
    rewrite (delete_chunks l 1 Hl) by lia.
    change (Z.to_nat (1 - 1)) with 0%nat. change (Z.to_nat 1) with 1%nat.
    cbn [firstn app].
    rewrite IH; [reflexivity|].
    rewrite concat_sized_length with (w := RS)
      by (now apply Forall_firstn_skipn).
    rewrite length_skipn, Hn. f_equal. lia.
Qed.

(** ** The files of a session stay consistent *)

Section SessionInvariant.

Variable py_int : str -> option Z.
Variable py_float : str -> option float.

Ltac io_case' :=
  match goal with
  | |- context [match ?l with [] => _ | _ :: _ => _ end] => is_var l; destruct l
  | |- context [match py_int ?s with Some _ => _ | None => _ end] =>
      destruct (py_int s)
  | |- context [match py_float ?s with Some _ => _ | None => _ end] =>
      destruct (py_float s)
  end.

Lemma serve_writes (choice : Z) (db_file : option str) (w : world) :
  exists r w',
    serve py_int py_float choice db_file w = Some (r, w')
    /\ (files w' = files w
        \/ exists p d, files w' = upd (files w) p d
                       /\ written choice (files w p) d).
Proof.
  destruct (chosen db_file) as [p|] eqn:Hdb.
  2:{ destruct (serve_without_file py_int py_float choice db_file w Hdb) as (u & ->).
      do 2 eexists. split; [reflexivity|]. now left. }
  destruct w as [inp out fs]. unfold serve. rewrite Hdb.
  destruct (Z.eqb_spec choice 2) as [E2|E2].
  { unfold writing. cbn [stdin stdout files].
    destruct (init_db_binary_returns (fs p)) as (c & Hc). rewrite Hc.
    do 2 eexists. split; [reflexivity|]. right. cbn [files].
    exists p, (Some c). split; [reflexivity|]. left. eauto. }
  destruct (Z.eqb_spec choice 3) as [E3|E3].
  { unfold reading. cbn [stdin stdout files].
    destruct (print_db_returns_any (fs p)) as (ls & ->).
    do 2 eexists. split; [reflexivity|]. now left. }
  destruct (Z.eqb_spec choice 4) as [E4|E4].
  { unfold io_bind, try_except_ValueError, input, to_int, to_float, io_ret,
      io_fail, writing, print, say. cbn [stdin stdout files].
    repeat (io_case'; cbn [stdin stdout files is_ValueError]);
      try (do 2 eexists; split; [reflexivity|]; now left).
    destruct (insert_record_at _ _ _) as [[ls d]|[]] eqn:Hi; cbn [is_ValueError];
      do 2 eexists; (split; [reflexivity|]); cbn [files]; try (now left).
    right. exists p, d. split; [reflexivity|]. right. left. eauto 6. }
  destruct (Z.eqb_spec choice 5) as [E5|E5].
  { unfold io_bind, try_except_ValueError, input, to_int, to_float, io_ret,
      io_fail, writing, print, say. cbn [stdin stdout files].
    repeat (io_case'; cbn [stdin stdout files is_ValueError]);
      try (do 2 eexists; split; [reflexivity|]; now left).
    destruct (delete_record _ _) as [ls d] eqn:Hd.
    do 2 eexists. split; [reflexivity|]. right. cbn [files].
    exists p, d. split; [reflexivity|]. right. right. eauto. }
  destruct (serve_effect py_int py_float choice db_file
              (mkWorld inp out fs)) as (r & w' & E & _ & _ & R).
  unfold serve in E. rewrite Hdb in E.
  destruct (Z.eqb_spec choice 2); [contradiction|].
  destruct (Z.eqb_spec choice 3); [contradiction|].
  destruct (Z.eqb_spec choice 4); [contradiction|].
  destruct (Z.eqb_spec choice 5); [contradiction|].
  exists r, w'. split; [exact E|]. left. now apply R.
Qed.

Lemma upd_consistent (fs : str -> disk) (p : str) (d : disk) :
  (forall q, consistent (fs q)) -> consistent d ->
  forall q, consistent (upd fs p d q).
Proof. intros Hfs Hd q. unfold upd. now destruct (str_eqb q p). Qed.

Lemma written_consistent (choice : Z) (d0 d : disk) :
  consistent d0 -> written choice d0 d -> consistent d.
Proof.
  intros H0 [(_ & ls & H)|[(_ & pos & r & ls & H)|(_ & pos & ls & H)]].
  - rewrite init_db_binary_eq in H. injection H as _ <-. reflexivity.
  - now apply (insert_keeps_consistent d0 pos r ls).
  - now apply (delete_keeps_consistent d0 pos ls).
Qed.

Section WithChooser.

Variable choose_file : io (option str).
Hypothesis choose_file_keeps : forall w r w',
  choose_file w = Some (r, w') ->
  (forall q, consistent (files w q)) -> forall q, consistent (files w' q).

Lemma main_loop_keeps (fuel : nat) :
  forall db_file w r w',
    main_loop py_int py_float choose_file fuel db_file w = Some (r, w') ->
    (forall q, consistent (files w q)) -> forall q, consistent (files w' q).
Proof.
  induction fuel as [|k IH]; intros db_file w r w' H Hinv; [discriminate|].
  cbn [main_loop] in H. unfold io_bind at 1 in H.
  destruct (stdin w) as [|l t] eqn:Ein.
  - rewrite menu_eof in H by assumption. injection H as _ <-. exact Hinv.
  - rewrite (menu_line py_int w l t Ein) in H.
    set (w0 := mkWorld t ((stdout w ++ menu_text) ++ [Ask AskMenu]) (files w)) in H.
    destruct (_ =? 1).
    + unfold io_bind in H. destruct (choose_file w0) as [[[db|f] w1]|] eqn:Ech;
        [ | injection H as _ <- | discriminate].
      * apply (IH _ _ _ _ H). now apply (choose_file_keeps w0 _ _ Ech).
      * now apply (choose_file_keeps w0 _ _ Ech).
    + destruct (_ =? 9).
      * injection H as _ <-. exact Hinv.
      * unfold io_bind in H.
        destruct (serve_writes
                    match py_int l with Some n => n | None => -1 end
                    db_file w0) as (r1 & w1 & E & Hw).
        rewrite E in H.
        assert (Hinv1 : forall q, consistent (files w1 q)).
        { destruct Hw as [-> | (p & d & -> & Hd)]; [exact Hinv|].
          apply upd_consistent; [exact Hinv|].
          eapply written_consistent; [|exact Hd]. apply Hinv. }
        destruct r1 as [[]|f]; [now apply (IH _ _ _ _ H)|].
        injection H as _ <-. exact Hinv1.
Qed.

End WithChooser.

(** Consistency is an invariant of the program: when every file is
    absent or has a size that is a multiple of [RECORD_SIZE] before a
    session, the same holds after it, however the session ends. *)
Theorem program_keeps_consistent (py_lower : str -> str)
    (list_files : (str -> disk) -> list str) (join_folder abspath : str -> str)
    (isdir : str -> bool) (fuel : nat) (w w' : world) (r : outcome unit) :
  (forall q, consistent (files w q)) ->
  program py_int py_float py_lower list_files join_folder abspath isdir fuel w
  = Some (r, w') ->
  forall q, consistent (files w' q).
Proof.
  intros Hinv H. unfold program, main in H.
  refine (main_loop_keeps _ _ fuel None w r w' H Hinv).
  intros w0 r0 w1 E Hq.
  destruct (choose_file_effect py_int py_lower list_files join_folder abspath
              isdir w0) as (r1 & w2 & E1 & _ & F).
  rewrite E in E1. injection E1 as <- <-.
  destruct r0 as [[p|]|f]; cbn [chooser_effect] in F; rewrite F; try exact Hq.
  apply upd_consistent; [exact Hq | reflexivity].
Qed.

End SessionInvariant.

(** ** A price that is not a number *)

Lemma SFeqb_nan (x : float) : SFeqb x S754_nan = false.
Proof. now destruct x. Qed.

(** A search on [price] for a value that [float] reads as a NaN matches no
    record, not even one whose stored price is a NaN: on a consistent,
    non-empty file it prints the no-match line alone. *)
Theorem nan_never_found (py_int : str -> option Z)
    (py_float : str -> option float) (c : bytes) (n : nat) (f : arg) (v : str) :
  length c = (n * RS)%nat -> (0 < n)%nat ->
  int_of_arg py_int f = Some 3 ->
  py_float v = Some S754_nan ->
  one_field_search py_int py_float (Some c) f v = Some (Returned [NoMatches]).
Proof.
  intros Hc Hn Hf Hv.
  destruct (scan_and_search c n Hc Hn) as (rows & _ & E1 & E2 & Hs).
  unfold one_field_search. rewrite E1, E2, Hf.
  change (negb (valid_field 3)) with false. cbv iota. rewrite Hs. do 2 f_equal.
  replace (filter _ rows) with (@nil line); [reflexivity|].
  assert (Hok : forall r, field_ok py_int py_float 3 v r = false).
  { intros r. unfold field_ok. cbn. now rewrite Hv, SFeqb_nan. }
  symmetry. clear -Hok. induction rows as [|l rows IH]; [reflexivity|].
  cbn [filter]. destruct l; cbn [row_passes]; try assumption. now rewrite Hok.
Qed.

(** ** Instances *)

(** A file of one record whose price is a NaN, searched for ["nan"]. *)
Lemma nan_never_found_witness :
  let c := block_of (mkRecord [97] 1 S754_nan []) in
  length c = (1 * RS)%nat
  /\ (0 < 1)%nat
  /\ int_of_arg int_of_str (AStr [51]) = Some 3
  /\ float_of_str [110; 97; 110] = Some S754_nan
  /\ one_field_search int_of_str float_of_str (Some c) (AStr [51]) [110; 97; 110]
     = Some (Returned [NoMatches]).
Proof.
  intros c.
  assert (H1 : length c = (1 * RS)%nat) by (vm_compute; reflexivity).
  assert (H2 : (0 < 1)%nat) by lia.
  assert (H3 : int_of_arg int_of_str (AStr [51]) = Some 3) by reflexivity.
  assert (H4 : float_of_str [110; 97; 110] = Some S754_nan) by reflexivity.
  split; [exact H1|]. split; [exact H2|]. split; [exact H3|]. split; [exact H4|].
  exact (nan_never_found int_of_str float_of_str c 1 (AStr [51]) [110; 97; 110]
           H1 H2 H3 H4).
Defined.

Lemma store_stays_consistent_witness :
  consistent (Some two_record_db)
  /\ (forall pos r ls d',
         insert_record_at (Some two_record_db) pos r = Returned (ls, d') ->
         consistent d' /\ (Some two_record_db = None -> d' = None))
  /\ (forall pos ls d',
         delete_record (Some two_record_db) pos = (ls, d') ->
         consistent d' /\ (Some two_record_db = None -> d' = None)).
Proof.
  assert (H : consistent (Some two_record_db)) by (vm_compute; reflexivity).
  split; [exact H|]. exact (store_stays_consistent (Some two_record_db) H).
Defined.

Lemma delete_first_empties_witness :
  length two_record_db = (2 * RS)%nat
  /\ delete_first 2 (Some two_record_db) = (repeat (Deleted 1) 2, Some [])
  /\ delete_record (Some []) 1 = ([EmptyDb], Some []).
Proof.
  assert (H : length two_record_db = (2 * RS)%nat) by (vm_compute; reflexivity).
  split; [exact H|]. exact (delete_first_empties two_record_db 2 H).
Defined.

(** The file ["d"] created by path, a record appended to it, and the
    program left: the lines ["1"], ["2"], ["d"], ["y"], ["4"], ["4"], ["a"],
    ["1"], ["1.5"], ["b"], ["9"]. *)
Lemma program_keeps_consistent_witness :
  let w := mkWorld [[49]; [50]; [100]; [121]; [52]; [52]; [97]; [49];
                    [49; 46; 53]; [98]; [57]] [] (fun _ => None) in
  let run := program int_of_str float_of_str (map lower) (fun _ => [])
               (fun f => f) (fun f => f) (fun _ => false) 12 w in
  let end_ := match run with Some x => x | None => (Done tt, w) end in
  (forall q, consistent (files w q))
  /\ run = Some (fst end_, snd end_)
  /\ fst end_ = Done tt
  /\ option_map (@length byte) (files (snd end_) [100]) = Some (4 * RS)%nat
  /\ forall q, consistent (files (snd end_) q).
Proof.
  intros w run end_.
  assert (H1 : forall q, consistent (files w q)) by (intros q; exact I).
  assert (H2 : run = Some (fst end_, snd end_)) by (vm_compute; reflexivity).
  split; [exact H1|]. split; [exact H2|].
  split; [vm_compute; reflexivity|]. split; [vm_compute; reflexivity|].
  exact (program_keeps_consistent int_of_str float_of_str (map lower)
           (fun _ => []) (fun f => f) (fun f => f) (fun _ => false) 12 w
           (snd end_) (fst end_) H1 H2).
Defined.

(** ** The insertion dialogue *)

Lemma insert_spliced (c : bytes) (pos : Z) (r : record) (blk : bytes) :
  getsize c mod RECORD_SIZE = 0 ->
  1 <= pos <= getsize c / RECORD_SIZE + 1 ->
  pack_record r = Returned blk ->
  insert_record_at (Some c) pos r =
  Returned ([if pos =? getsize c / RECORD_SIZE + 1 then Appended
             else Inserted pos],
            Some (firstn (Z.to_nat ((pos - 1) * RECORD_SIZE)) c
                  ++ blk
                  ++ skipn (Z.to_nat ((pos - 1) * RECORD_SIZE)) c)).
Proof.
  intros Hm Hp Hr. pose proof (consistent_length c Hm) as Hc.
  destruct (consistent_chunks c _ Hc) as (l & -> & Hl & Hn).
  assert (Hdiv : getsize (concat l) / RECORD_SIZE = Z.of_nat (length l)).
  { rewrite Hn, Z2Nat.id; [reflexivity|].
    apply Z.div_pos; [unfold getsize; lia | now rewrite RECORD_SIZE_eq]. }
  rewrite Hdiv in *.
  rewrite (insert_chunks l pos r blk Hl Hp Hr). do 3 f_equal.
  rewrite offset_nat by lia.
  destruct (concat_splice l (Z.to_nat (pos - 1)) Hl) as (<- & <-).
  rewrite concat_app. cbn [concat]. reflexivity.
Qed.

(** The insertion dialogue with a record that [pack_record] accepts, at a
    valid position of a consistent file: the six lines are read, the block of
    the record is spliced into the chosen file, the line of the insertion is
    printed and the session goes on.  This holds whatever the price typed: a
    finite price beyond the range of a single is stored as an infinity. *)
Theorem insert_in_session (py_int : str -> option Z)
    (py_float : str -> option float) (choose_file : io (option str))
    (k : nat) (p : str) (w : world)
    (l0 l1 nm l3 l4 cat : str) (rest : list str) (c blk : bytes)
    (pos cnt : Z) (x : float) :
  p <> [] ->
  stdin w = l0 :: l1 :: nm :: l3 :: l4 :: cat :: rest ->
  py_int l0 = Some 4 -> py_int l1 = Some pos -> py_int l3 = Some cnt ->
  py_float l4 = Some x ->
  files w p = Some c ->
  getsize c mod RECORD_SIZE = 0 ->
  1 <= pos <= getsize c / RECORD_SIZE + 1 ->
  pack_record (mkRecord nm cnt x cat) = Returned blk ->
  let w1 := mkWorld rest
              (stdout w ++ menu_text
               ++ map Ask [AskMenu; AskInsertPos; AskName; AskCount; AskPrice;
                           AskCategory]
               ++ [Op (if pos =? getsize c / RECORD_SIZE + 1 then Appended
                       else Inserted pos)])
              (upd (files w) p
                 (Some (firstn (Z.to_nat ((pos - 1) * RECORD_SIZE)) c
                        ++ blk
                        ++ skipn (Z.to_nat ((pos - 1) * RECORD_SIZE)) c))) in
  main_loop py_int py_float choose_file (S k) (Some p) w =
  main_loop py_int py_float choose_file k (Some p) w1.
Proof.
  intros Hp Hin H0 H1 H3 H4 Hf Hm Hpos Hr w1.
  pose proof (insert_spliced c pos _ blk Hm Hpos Hr) as Hins.
  cbn [main_loop]. unfold io_bind at 1.
  rewrite (menu_line py_int w l0 _ Hin), H0.
  change (4 =? 1) with false. change (4 =? 9) with false. cbv iota.
  unfold serve. change (4 =? 2) with false. change (4 =? 3) with false.
  change (4 =? 4) with true. cbv iota.
  assert (Hc : chosen (Some p) = Some p) by (destruct p; [contradiction | reflexivity]).
  rewrite Hc.
  unfold io_bind, try_except_ValueError, input, to_int, to_float, io_ret,
    io_fail, writing, print, say. cbn [stdin stdout files].
  rewrite H1. cbn [stdin stdout files]. rewrite H3. cbn [stdin stdout files].
  rewrite H4. cbn [stdin stdout files]. rewrite Hf, Hins.
  unfold w1. cbn [map stdin stdout files].
  rewrite <- !app_assoc. cbn [app]. reflexivity.
Qed.

(** ** Instances of the insertion dialogue *)

(** The price [1e39] typed in the insertion dialogue, on the empty file
    ["d"], and then the choice 9: the record is appended with the price bytes
    00 00 80 7f, those of the single infinity, and the session returns. *)
Lemma insert_in_session_witness :
  let w := mkWorld [[52]; [49]; [97]; [50]; [49; 101; 51; 57]; [98]; [57]] []
             (fun _ => Some []) in
  let blk := [x61] ++ repeat x00 19 ++ [x02; x00; x00; x00]
             ++ [x00; x00; x80; x7f] ++ [x62] ++ repeat x00 14 in
  let w1 := mkWorld [[57]]
              (stdout w ++ menu_text
               ++ map Ask [AskMenu; AskInsertPos; AskName; AskCount; AskPrice;
                           AskCategory]
               ++ [Op (if 1 =? getsize [] / RECORD_SIZE + 1 then Appended
                       else Inserted 1)])
              (upd (files w) [100]
                 (Some (firstn (Z.to_nat ((1 - 1) * RECORD_SIZE)) []
                        ++ blk
                        ++ skipn (Z.to_nat ((1 - 1) * RECORD_SIZE)) []))) in
  [100] <> []
  /\ int_of_str [52] = Some 4 /\ int_of_str [49] = Some 1
  /\ int_of_str [50] = Some 2
  /\ float_of_str [49; 101; 51; 57] = Some (float_of_decimal false 1 39)
  /\ overflows (float_of_decimal false 1 39) = true
  /\ getsize [] mod RECORD_SIZE = 0
  /\ 1 <= 1 <= getsize [] / RECORD_SIZE + 1
  /\ pack_record (mkRecord [97] 2 (float_of_decimal false 1 39) [98])
     = Returned blk
  /\ main_loop int_of_str float_of_str (io_ret None) 1 (Some [100]) w1
     = Some (Done tt, mkWorld [] (stdout w1 ++ menu_text ++ [Ask AskMenu; Bye])
                              (files w1))
  /\ files w1 [100] = Some blk
  /\ main_loop int_of_str float_of_str (io_ret None) 2 (Some [100]) w =
     main_loop int_of_str float_of_str (io_ret None) 1 (Some [100]) w1.
Proof.
  intros w blk w1.
  assert (H0 : [100] <> []) by discriminate.
  assert (H1 : int_of_str [52] = Some 4) by reflexivity.
  assert (H2 : int_of_str [49] = Some 1) by reflexivity.
  assert (H3 : int_of_str [50] = Some 2) by reflexivity.
  assert (H4 : float_of_str [49; 101; 51; 57]
               = Some (float_of_decimal false 1 39))
    by (vm_compute; reflexivity).
  assert (Ho : overflows (float_of_decimal false 1 39) = true)
    by (vm_compute; reflexivity).
  assert (H5 : getsize [] mod RECORD_SIZE = 0) by reflexivity.
  assert (H6 : 1 <= 1 <= getsize [] / RECORD_SIZE + 1)
    by (vm_compute; split; discriminate).
  assert (H7 : pack_record (mkRecord [97] 2 (float_of_decimal false 1 39) [98])
               = Returned blk) by (vm_compute; reflexivity).
  repeat (split; [assumption|]).
  split; [vm_compute; reflexivity|]. split; [vm_compute; reflexivity|].
  exact (insert_in_session int_of_str float_of_str (io_ret None) 1 [100] w
           [52] [49] [97] [50] [49; 101; 51; 57] [98]
           [[57]] [] blk 1 2 (float_of_decimal false 1 39)
           H0 eq_refl H1 H2 H3 H4 eq_refl H5 H6 H7).
Defined.
